(** * LinkShield / UrlGuard: the URL threat-scoring core

    A shallow embedding of the detection core of the extension
    (src/detection/threat-analyzer.ts and its later revision,
    signature-engine.ts, heuristic-engine.ts, ml-engine.ts, config.ts,
    utils/api-keys.ts) together with the properties of its verdicts.

    Conventions.
    - A JavaScript [number] that holds a score, a count or a time stamp is
      an integer in the code paths modelled here and is a [Z].
    - A JavaScript string is a [string] that holds its UTF-8 bytes (a lone
      surrogate as the three bytes this encoding would give it). Strings of
      ASCII characters are modelled as they are, and every serialised URL
      is such a string. Of the other characters the model has this: [btoa]
      and [encodeURIComponent] throw on some of them, [.] in a regular
      expression stops at U+2028 and U+2029, and a pattern of ASCII letters
      matches ASCII letters only, with or without the flag [i]. It does not
      have their case mapping or their length in code units: [toLowerCase]
      changes the letters A to Z only and lengths are counted in bytes,
      which is what JavaScript does on strings whose letters are ASCII.
    - [Date.now()] is an input of each call ([now]).
    - The outcome of every network request and of the extension storage is
      an input of each call (record [World]); the code's reaction to each
      outcome is modelled, the remote services are not.
    - The [URL] constructor of the platform is the class [Platform]; the
      general theorems hold for every platform. *)

From Stdlib Require Import Ascii String.
From stdpp Require Import gmap strings list fin_maps pretty sorting.

Open Scope string_scope.
Open Scope list_scope.
Open Scope Z_scope.

(* ===================================================================== *)
(** * JavaScript strings                                                  *)
(* ===================================================================== *)

Module JS.

Definition code (c : ascii) : nat := nat_of_ascii c.

Definition in_range (lo hi : nat) (c : ascii) : bool :=
  (lo <=? code c)%nat && (code c <=? hi)%nat.

Definition is_digit : ascii → bool := in_range 48 57.
Definition is_upper : ascii → bool := in_range 65 90.
Definition is_lower : ascii → bool := in_range 97 122.
Definition is_alpha (c : ascii) : bool := is_upper c || is_lower c.
Definition is_alnum (c : ascii) : bool := is_alpha c || is_digit c.
Definition is_hex (c : ascii) : bool :=
  is_digit c || in_range 65 70 c || in_range 97 102 c.

Definition lower_char (c : ascii) : ascii :=
  if is_upper c then ascii_of_nat (code c + 32) else c.

(** [s.toLowerCase()], on a string whose cased characters are ASCII *)
Fixpoint toLowerCase (s : string) : string :=
  match s with
  | EmptyString => EmptyString
  | String c s' => String (lower_char c) (toLowerCase s')
  end.

(** [s.startsWith(p)] *)
Fixpoint startsWith (s p : string) : bool :=
  match p, s with
  | EmptyString, _ => true
  | String _ _, EmptyString => false
  | String a p', String b s' => Ascii.eqb a b && startsWith s' p'
  end.

(** [s.includes(sub)] *)
Fixpoint includes (s sub : string) : bool :=
  startsWith s sub ||
  match s with
  | EmptyString => false
  | String _ s' => includes s' sub
  end.

(** [s.endsWith(p)] *)
Definition endsWith (s p : string) : bool :=
  startsWith (String.rev s) (String.rev p).

(** [s.slice(0, -1)] *)
Fixpoint slice_0_m1 (s : string) : string :=
  match s with
  | EmptyString => EmptyString
  | String _ EmptyString => EmptyString
  | String c s' => String c (slice_0_m1 s')
  end.

(** [s.substring(0, n)] *)
Fixpoint substring_0 (n : nat) (s : string) : string :=
  match n, s with
  | S n', String c s' => String c (substring_0 n' s')
  | _, _ => EmptyString
  end.

(** [s.split(sep)] for a one-character separator: never an empty array. *)
Fixpoint split (sep : ascii) (s : string) : list string :=
  match s with
  | EmptyString => [EmptyString]
  | String c s' =>
      if Ascii.eqb c sep then EmptyString :: split sep s'
      else match split sep s' with
           | [] => [String c EmptyString]
           | p :: ps => String c p :: ps
           end
  end.

(** [xs.join(sep)] *)
Definition join (sep : string) (xs : list string) : string := String.concat sep xs.

Definition chars (s : string) : list ascii := list_ascii_of_string s.

(** [(s.match(/[class]/g) || []).length] *)
Definition count_class (p : ascii → bool) (s : string) : nat :=
  length (filter (λ c, p c = true) (chars s)).

(** [/[class]/.test(s)] *)
Definition any_class (p : ascii → bool) (s : string) : bool :=
  existsb p (chars s).

(** [/^[class]*$/.test(s)] *)
Definition all_class (p : ascii → bool) (s : string) : bool :=
  forallb p (chars s).

(** [xs.includes(x)] on an array of strings *)
Definition array_includes (xs : list string) (x : string) : bool :=
  existsb (String.eqb x) xs.

(** [s.slice(n)] for [0 <= n] *)
Fixpoint drop_chars (n : nat) (s : string) : string :=
  match n, s with
  | S n', String _ s' => drop_chars n' s'
  | _, _ => s
  end.

(** The ASCII line terminators, which [.] does not match. *)
Definition is_line_terminator (c : ascii) : bool :=
  (code c =? 10)%nat || (code c =? 13)%nat.

(** The bytes of U+2028 and U+2029, the other two line terminators. *)
Definition at_line_separator (s : string) : bool :=
  match s with
  | String c1 (String c2 (String c3 _)) =>
      (code c1 =? 226)%nat && (code c2 =? 128)%nat
      && ((code c3 =? 168)%nat || (code c3 =? 169)%nat)
  | _ => false
  end.

(** [/^.*b/.test(s)] *)
Fixpoint dot_star_then (b s : string) : bool :=
  startsWith s b ||
  match s with
  | EmptyString => false
  | String c s' =>
      negb (is_line_terminator c || at_line_separator s) && dot_star_then b s'
  end.

(** [btoa(s)] throws a [DOMException] when [s] has a character above
    U+00FF, whose UTF-8 bytes start with a byte from 0xC4 on. *)
Definition btoa_throws (s : string) : bool :=
  existsb (λ c, (196 <=? code c)%nat) (chars s).

(** The message of that exception in Chrome, where the extension runs;
    other engines word it differently. *)
Definition btoa_message : string :=
  "Failed to execute 'btoa' on 'WorkerGlobalScope': The string to be encoded contains characters outside of the Latin1 range.".

(** [encodeURIComponent(s)] throws a [URIError] when [s] has a lone
    surrogate, the bytes 0xED 0xA0..0xBF and one more. *)
Fixpoint encodeURIComponent_throws (s : string) : bool :=
  match s with
  | EmptyString => false
  | String c s' =>
      match s' with
      | String d _ => (code c =? 237)%nat && in_range 160 191 d
      | EmptyString => false
      end
      || encodeURIComponent_throws s'
  end.

Definition URIError_message : string := "URI malformed".

(** [/a.*b/.test(s)], for literal [a] and [b] *)
Fixpoint test_a_dotstar_b (a b s : string) : bool :=
  (startsWith s a && dot_star_then b (drop_chars (String.length a) s)) ||
  match s with
  | EmptyString => false
  | String _ s' => test_a_dotstar_b a b s'
  end.

(** [s] starts with one character of each class of [ps], in this order. *)
Fixpoint starts_with_classes (ps : list (ascii → bool)) (s : string) : bool :=
  match ps, s with
  | [], _ => true
  | _ :: _, EmptyString => false
  | p :: ps', String c s' => p c && starts_with_classes ps' s'
  end.

(** [re.test(s)] for a regular expression [re] that is a sequence of
    character classes, such as [/[a-z]{5}[0-9]{3}/]. *)
Fixpoint test_classes (ps : list (ascii → bool)) (s : string) : bool :=
  starts_with_classes ps s ||
  match s with
  | EmptyString => false
  | String _ s' => test_classes ps s'
  end.

Definition is_char (a c : ascii) : bool := Ascii.eqb a c.
Definition is_lower_alnum (c : ascii) : bool := is_lower c || is_digit c.
Definition is_lower_hex (c : ascii) : bool := is_digit c || in_range 97 102 c.

(** [(s.match(/%[0-9A-F]{2}/gi) || []).length]: matches do not overlap. *)
Fixpoint count_percent_encoded (fuel : nat) (s : string) : nat :=
  match fuel with
  | O => O
  | S fuel' =>
      match s with
      | EmptyString => O
      | String _ s' =>
          if starts_with_classes [is_char "%"; is_hex; is_hex] s
          then S (count_percent_encoded fuel' (drop_chars 3 s))
          else count_percent_encoded fuel' s'
      end
  end.

(** [/([a-z0-9])\1{3,}/i.test(s)] *)
Fixpoint test_repeated4 (s : string) : bool :=
  match s with
  | EmptyString => false
  | String c s' =>
      (is_alnum c
       && starts_with_classes (repeat (λ d, Ascii.eqb (lower_char d) (lower_char c)) 3) s')
      || test_repeated4 s'
  end.

(** [x || d] on a string that may be undefined *)
Definition or_else (x : option string) (d : string) : string :=
  match x with
  | None | Some "" => d
  | Some v => v
  end.

End JS.

(* ===================================================================== *)
(** * Exceptions                                                          *)
(* ===================================================================== *)

(** A computation either returns or throws an [Error] with a message. *)
Inductive Exc (A : Type) : Type :=
| Ok (a : A)
| Throw (message : string).
Arguments Ok {A} a.
Arguments Throw {A} message.

Definition exc_bind {A B} (m : Exc A) (k : A → Exc B) : Exc B :=
  match m with
  | Ok a => k a
  | Throw e => Throw e
  end.

Notation "'let!' x ':=' m 'in' k" := (exc_bind m (λ x, k))
  (at level 10, x name, m at level 100, k at level 200).

(** [try { body } catch (error) { handler(error.message) }] *)
Definition try_catch {A} (body : Exc A) (handler : string → A) : A :=
  match body with
  | Ok a => a
  | Throw e => handler e
  end.

(* ===================================================================== *)
(** * types.ts                                                            *)
(* ===================================================================== *)

Inductive Layer := signature | heuristic | ml | behavior.

Inductive RiskLevel := safe | low | medium | high | critical.

#[global] Instance Layer_eq_dec : EqDecision Layer.
Proof. solve_decision. Defined.
#[global] Instance RiskLevel_eq_dec : EqDecision RiskLevel.
Proof. solve_decision. Defined.

Record DetectionLayer := {
  layer : Layer;
  method : string;
  score : Z;
  details : string;
  matched : bool
}.

#[global] Instance DetectionLayer_eq_dec : EqDecision DetectionLayer.
Proof. solve_decision. Defined.

Record ThreatAnalysisResult := {
  url : string;
  isMalicious : bool;
  riskScore : Z;
  riskLevel : RiskLevel;
  detectionLayers : list DetectionLayer;
  timestamp : Z;
  result_details : string
}.

Record CacheEntry := {
  result : ThreatAnalysisResult;
  entry_timestamp : Z
}.

Record APIResponse := {
  success : bool;
  malicious : bool;
  source : string;
  (** [details?.totalDetections], the only part of [details] that is read *)
  totalDetections : option Z;
  error : option string
}.

(* ===================================================================== *)
(** * config.ts                                                           *)
(* ===================================================================== *)

Module CONFIG.

Definition YOUR_API_KEY_HERE : string := "YOUR_API_KEY_HERE".

Module CACHE.
Definition SAFE_URL_TTL : Z := 3600000.
Definition MALICIOUS_URL_TTL : Z := 86400000.
Definition MAX_CACHE_SIZE : Z := 10000.
End CACHE.

Module RISK_THRESHOLDS.
Definition LOW : Z := 25.
Definition MEDIUM : Z := 40.
Definition HIGH : Z := 60.
Definition CRITICAL : Z := 85.
End RISK_THRESHOLDS.

Module HEURISTIC_WEIGHTS.
Definition IP_URL : Z := 40.
Definition SUSPICIOUS_TLD : Z := 25.
Definition PUNYCODE : Z := 35.
Definition LONG_URL : Z := 15.
Definition EXCESSIVE_SUBDOMAIN : Z := 20.
Definition URL_ENCODING : Z := 25.
Definition SUSPICIOUS_KEYWORDS : Z := 30.
Definition NO_HTTPS : Z := 15.
Definition PORT_IN_URL : Z := 20.
Definition SHORT_DOMAIN : Z := 10.
End HEURISTIC_WEIGHTS.

Definition SUSPICIOUS_TLDS : list string :=
  [ "tk"; "ml"; "ga"; "cf"; "gq"; "freenom";
    "zip"; "mov"; "loan"; "click"; "work"; "party"; "racing";
    "download"; "stream"; "trade"; "webcam"; "men"; "click";
    "homes"; "top"; "xyz"; "icu"; "site"; "online"; "vip"; "win";
    "bid"; "date"; "faith"; "review"; "science"; "pro"; "cfd";
    "sbs"; "bond"; "live"; "shop"; "club"; "space"; "fun"; "buzz";
    "country"; "kim"; "pw"; "cc"; "ws"; "gdn"; "rest"; "link" ].

Definition TRUSTED_INFRA_DOMAINS : list string :=
  [ "google.com"; "googleapis.com"; "googleusercontent.com"; "gstatic.com";
    "gmail.com"; "youtube.com"; "googlevideo.com"; "google-analytics.com";
    "doubleclick.net";
    "firebaseapp.com"; "firebaseio.com"; "firebasestorage.googleapis.com";
    "appspot.com"; "cloudfront.net"; "amazonaws.com"; "azureedge.net";
    "azure.com";
    "microsoft.com"; "microsoftonline.com"; "office.com"; "outlook.com";
    "live.com"; "windows.net";
    "github.com"; "github.io"; "gitlab.com"; "bitbucket.org";
    "sourceforge.net"; "npmjs.com"; "stackoverflow.com";
    "apple.com"; "icloud.com"; "facebook.com"; "fbcdn.net"; "twitter.com";
    "twimg.com"; "linkedin.com"; "licdn.com"; "amazon.com";
    "ssl-images-amazon.com"; "cloudflare.com"; "akamai.net"; "fastly.net" ].

Definition PHISHING_KEYWORDS : list string :=
  [ "login"; "signin"; "verify"; "account"; "security"; "update";
    "confirm"; "banking"; "paypal"; "suspended"; "limited";
    "unusual"; "activity"; "locked"; "validate"; "secure";
    "password"; "credential"; "verification"; "authorize";
    "authenticate"; "billing"; "payment"; "wallet"; "invoice" ].

Definition URGENT_KEYWORDS : list string :=
  [ "urgent"; "immediate"; "action required"; "expire"; "expires";
    "suspended"; "locked"; "unauthorized"; "verify now"; "click here";
    "act now"; "limited time"; "suspended account" ].

Definition TARGETED_BRANDS : list string :=
  [ "paypal"; "google"; "microsoft"; "apple"; "amazon"; "facebook";
    "netflix"; "instagram"; "twitter"; "linkedin"; "dropbox";
    "bankofamerica"; "chase"; "wellsfargo"; "citibank" ].

Module URL_LENGTH.
Definition SUSPICIOUS : Z := 75.
Definition VERY_SUSPICIOUS : Z := 150.
Definition EXTREME : Z := 250.
End URL_LENGTH.

Definition MAX_SUBDOMAINS : Z := 4.

Module PATH_ANALYSIS.
Definition MAX_DEPTH : Z := 8.
Definition MAX_SLASHES : Z := 10.
End PATH_ANALYSIS.

Module RATE_LIMITS.
Definition SAFE_BROWSING_PER_MINUTE : Z := 60.
Definition VIRUSTOTAL_PER_DAY : Z := 500.
End RATE_LIMITS.

End CONFIG.

(* ===================================================================== *)
(** * The platform's URL objects                                          *)
(* ===================================================================== *)

(** A parsed URL, as the URL Standard keeps it: the path is held in its
    serialised form, the host in its serialised form ([None]: no host). *)
Record URL := {
  scheme : string;
  username : string;
  password : string;
  host : option string;
  port : option Z;
  path : string;
  query : option string;
  fragment : option string
}.

Module URLObj.

Definition protocol (u : URL) : string := scheme u +:+ ":".
Definition hostname (u : URL) : string := default "" (host u).
Definition port_str (u : URL) : string :=
  match port u with None => "" | Some p => pretty p end.
Definition pathname (u : URL) : string := path u.
Definition search (u : URL) : string :=
  match query u with
  | None | Some "" => ""
  | Some q => "?" +:+ q
  end.

(** [u.hash = ''] drops the fragment. *)
Definition clear_hash (u : URL) : URL :=
  {| scheme := scheme u; username := username u; password := password u;
     host := host u; port := port u; path := path u; query := query u;
     fragment := None |}.

(** [u.href]: the URL serialiser. *)
Definition href (u : URL) : string :=
  protocol u
  +:+ match host u with
      | Some h =>
          "//"
          +:+ (if bool_decide (username u = "" ∧ password u = "") then ""
               else username u
                    +:+ (if bool_decide (password u = "") then ""
                         else ":" +:+ password u)
                    +:+ "@")
          +:+ h
          +:+ match port u with None => "" | Some p => ":" +:+ pretty p end
      | None => if JS.startsWith (path u) "//" then "/." else ""
      end
  +:+ path u
  +:+ match query u with None => "" | Some q => "?" +:+ q end
  +:+ match fragment u with None => "" | Some f => "#" +:+ f end.

End URLObj.

(** [new URL(s)]: returns the parsed URL or throws a [TypeError]. *)
Class Platform := { new_URL : string → Exc URL }.

(* ===================================================================== *)
(** * A URL parser for plain web addresses                                *)
(* ===================================================================== *)

(** The closed examples of this development need a concrete [new URL].
    [PlainURL.parse] follows the URL Standard on the addresses

      http(s)://host[:port][/path][?query][#fragment]

    whose characters are ASCII letters, digits and [-._~:/?#%!$&()*+,;=],
    whose host is made of non-empty labels of letters, digits and hyphens
    (no IDNA label, no number in last position other than a dotted quad in
    canonical form), and whose path has no dot segment. On these the
    standard keeps host (lower-cased), path, query and fragment as they are
    written. Everything else is rejected here, which the standard does for
    some of it only; the examples stay inside the addresses above or use
    strings without any scheme, which the standard rejects as well. *)
Module PlainURL.

Definition allowed_punct : string := "-._~:/?#%!$&()*+,;=".

Definition allowed (c : ascii) : bool :=
  JS.is_alnum c || existsb (Ascii.eqb c) (JS.chars allowed_punct).

(** Splits at the first character satisfying [stop]; the second part
    starts with that character (or is empty). *)
Fixpoint span_until (stop : ascii → bool) (s : string) : string * string :=
  match s with
  | EmptyString => (EmptyString, EmptyString)
  | String c s' =>
      if stop c then (EmptyString, s)
      else let '(a, b) := span_until stop s' in (String c a, b)
  end.

Definition is_one_of (cs : string) (c : ascii) : bool :=
  existsb (Ascii.eqb c) (JS.chars cs).

Definition tail (s : string) : string :=
  match s with EmptyString => EmptyString | String _ s' => s' end.

Fixpoint digits_value (acc : Z) (s : string) : Z :=
  match s with
  | EmptyString => acc
  | String c s' => digits_value (10 * acc + Z.of_nat (JS.code c - 48)) s'
  end.

Definition all_digits (s : string) : bool := JS.all_class JS.is_digit s.

Definition default_port (scheme : string) : Z :=
  if String.eqb scheme "http" then 80 else 443.

(** A part of a dotted quad in canonical form: decimal, no leading zero,
    at most 255. *)
Definition canonical_octet (s : string) : bool :=
  all_digits s
  && (1 <=? String.length s)%nat && (String.length s <=? 3)%nat
  && (String.eqb s "0" || negb (JS.startsWith s "0"))
  && (digits_value 0 s <=? 255).

Definition label_ok (l : string) : bool :=
  negb (String.eqb l "")
  && JS.all_class (λ c, JS.is_alnum c || Ascii.eqb c "-"%char) l
  && negb (JS.startsWith l "xn--").

Definition last_label (labels : list string) : string := List.last labels "".

Definition host_ok (h : string) : bool :=
  let labels := JS.split "."%char h in
  forallb label_ok labels
  && (if all_digits (last_label labels) || JS.startsWith (last_label labels) "0x"
      then (length labels =? 4)%nat && forallb canonical_octet labels
      else true).

Definition dot_segment (seg : string) : bool :=
  JS.array_includes [ "."; "%2e"; ".."; ".%2e"; "%2e."; "%2e%2e" ] (JS.toLowerCase seg).

Definition path_ok (p : string) : bool :=
  negb (existsb dot_segment (JS.split "/"%char p)).

Definition parse_port (scheme p : string) : Exc (option Z) :=
  if String.eqb p "" then Ok None
  else if negb (all_digits p) then Throw "Invalid URL"
  else
    let v := digits_value 0 p in
    if 65535 <? v then Throw "Invalid URL"
    else Ok (if v =? default_port scheme then None else Some v).

Definition parse (input : string) : Exc URL :=
  if negb (JS.all_class allowed input) then Throw "Invalid URL" else
  let '(sch, rest) := span_until (Ascii.eqb ":"%char) input in
  let sch := JS.toLowerCase sch in
  if negb (String.eqb sch "http" || String.eqb sch "https") then Throw "Invalid URL" else
  if negb (JS.startsWith rest "://") then Throw "Invalid URL" else
  let rest := tail (tail (tail rest)) in
  let '(authority, rest) := span_until (is_one_of "/?#") rest in
  let '(h, p) := span_until (Ascii.eqb ":"%char) authority in
  let h := JS.toLowerCase h in
  if negb (host_ok h) then Throw "Invalid URL" else
  let! prt := parse_port sch (tail p) in
  let '(pth, rest) := span_until (is_one_of "?#") rest in
  if negb (path_ok pth) then Throw "Invalid URL" else
  let '(q, rest) := span_until (Ascii.eqb "#"%char) rest in
  Ok {| scheme := sch; username := ""; password := "";
        host := Some h; port := prt;
        path := if String.eqb pth "" then "/" else pth;
        query := if JS.startsWith q "?" then Some (tail q) else None;
        fragment := if JS.startsWith rest "#" then Some (tail rest) else None |}.

Definition platform : Platform := {| new_URL := parse |}.

End PlainURL.

(* ===================================================================== *)
(** * The outside world of one call                                       *)
(* ===================================================================== *)

(** What [await fetch(...)] followed by [await response.json()] comes to. *)
Inductive Fetch (A : Type) : Type :=
| Rejected (message : option string)  (* a throw; [Some m]: an [Error] with message [m] *)
| HttpError (status : Z)              (* [!response.ok] *)
| Body (data : A).                    (* [response.ok], the parsed JSON *)
Arguments Rejected {A} message.
Arguments HttpError {A} status.
Arguments Body {A} data.

Record World := {
  (** [Date.now()] *)
  now : Z;
  (** [chrome.storage.local.get([LS_GOOGLE_SAFE_BROWSING, LS_VIRUSTOTAL, LS_PHISHTANK])] *)
  storage : Exc (option string * option string * option string);
  (** Safe Browsing: [data.matches], undefined or an array of this length *)
  safeBrowsingFetch : Fetch (option nat);
  (** PhishTank: [results?.in_database === true && results?.valid === true] *)
  phishTankFetch : Fetch bool;
  (** VirusTotal: [last_analysis_stats], undefined or its
      [malicious] and [suspicious] counts *)
  virusTotalFetch : Fetch (option (nat * nat))
}.

(** [error instanceof Error ? error.message : 'Unknown error'] *)
Definition error_message (e : option string) : string :=
  match e with Some m => m | None => "Unknown error" end.

(* ===================================================================== *)
(** * utils/api-keys.ts                                                   *)
(* ===================================================================== *)

Record ApiKeys := {
  GOOGLE_SAFE_BROWSING : string;
  VIRUSTOTAL : string;
  PHISHTANK : string
}.

Definition getApiKeys (w : World) : ApiKeys :=
  match storage w with
  | Ok (sb, vt, pt) =>
      {| GOOGLE_SAFE_BROWSING := JS.or_else sb CONFIG.YOUR_API_KEY_HERE;
         VIRUSTOTAL := JS.or_else vt CONFIG.YOUR_API_KEY_HERE;
         PHISHTANK := JS.or_else pt CONFIG.YOUR_API_KEY_HERE |}
  | Throw _ =>
      {| GOOGLE_SAFE_BROWSING := CONFIG.YOUR_API_KEY_HERE;
         VIRUSTOTAL := CONFIG.YOUR_API_KEY_HERE;
         PHISHTANK := CONFIG.YOUR_API_KEY_HERE |}
  end.

(* ===================================================================== *)
(** * signature-engine.ts                                                 *)
(* ===================================================================== *)

Module SignatureEngine.

(** The two static maps of the class. *)
Record State := {
  (** url -> (malicious, timestamp) *)
  safeBrowsingCache : gmap string (bool * Z);
  (** service -> (count, resetTime) *)
  rateLimitCounters : gmap string (Z * Z)
}.

Definition initial : State :=
  {| safeBrowsingCache := ∅; rateLimitCounters := ∅ |}.

Definition set_cache (st : State) (c : gmap string (bool * Z)) : State :=
  {| safeBrowsingCache := c; rateLimitCounters := rateLimitCounters st |}.

Definition set_counters (st : State) (c : gmap string (Z * Z)) : State :=
  {| safeBrowsingCache := safeBrowsingCache st; rateLimitCounters := c |}.

Definition failure (src err : string) : APIResponse :=
  {| success := false; malicious := false; source := src;
     totalDetections := None; error := Some err |}.

Definition answer (src : string) (m : bool) (n : option Z) : APIResponse :=
  {| success := true; malicious := m; source := src;
     totalDetections := n; error := None |}.

(** Rate limiting helper *)
Definition checkRateLimit (w : World) (service : string) (limit : Z)
    (st : State) : bool * State :=
  let reset :=
    (true, set_counters st (<[service := (1, now w + 60000)]> (rateLimitCounters st))) in
  match rateLimitCounters st !! service with
  | None => reset
  | Some (count, resetTime) =>
      if bool_decide (resetTime < now w) then reset
      else if bool_decide (limit ≤ count) then (false, st)
      else (true, set_counters st (<[service := (count + 1, resetTime)]> (rateLimitCounters st)))
  end.

Definition blacklisted (url : string) : bool :=
  let u := JS.toLowerCase url in
  JS.includes u "phishing"
  || JS.includes u "malware"
  || JS.includes u "scam"
  || JS.test_a_dotstar_b "fake" "login" u
  || JS.test_a_dotstar_b "secure" "verify" u
  || JS.test_a_dotstar_b "account" "suspend" u.

Section WithPlatform.
Context `{Platform}.

(** Check against local blacklist (fallback) *)
Definition checkLocalBlacklist (url : string) : APIResponse :=
  match new_URL url with
  | Ok _ => answer "Local Blacklist" (blacklisted url) None
  | Throw _ => failure "Local Blacklist" "Error checking local blacklist"
  end.

(** Check URL against Google Safe Browsing API *)
Definition checkSafeBrowsing (w : World) (url : string) (st : State)
    : APIResponse * State :=
  let miss :=
    let '(allowed, st) :=
      checkRateLimit w "safe_browsing" CONFIG.RATE_LIMITS.SAFE_BROWSING_PER_MINUTE st in
    if negb allowed then (failure "Google Safe Browsing" "Rate limit exceeded", st)
    else if String.eqb (GOOGLE_SAFE_BROWSING (getApiKeys w)) CONFIG.YOUR_API_KEY_HERE
    then (checkLocalBlacklist url, st)
    else match safeBrowsingFetch w with
         | Rejected e => (failure "Google Safe Browsing" (error_message e), st)
         | HttpError status =>
             (failure "Google Safe Browsing" ("API error: " +:+ pretty status), st)
         | Body matches =>
             let m := match matches with
                      | Some n => bool_decide (0 < n)%nat
                      | None => false
                      end in
             (answer "Google Safe Browsing" m None,
              set_cache st (<[url := (m, now w)]> (safeBrowsingCache st)))
         end in
  match safeBrowsingCache st !! url with
  | Some (m, ts) =>
      if bool_decide (now w - ts < CONFIG.CACHE.SAFE_URL_TTL)
      then (answer "Google Safe Browsing (cached)" m None, st)
      else miss
  | None => miss
  end.

End WithPlatform.

(** Check URL against PhishTank database *)
Definition checkPhishTank (w : World) (url : string) : APIResponse :=
  if String.eqb (PHISHTANK (getApiKeys w)) CONFIG.YOUR_API_KEY_HERE
  then answer "PhishTank" false None
  else if JS.encodeURIComponent_throws url   (* [encodeURIComponent(url)] *)
  then failure "PhishTank" JS.URIError_message
  else match phishTankFetch w with
       | Rejected e => failure "PhishTank" (error_message e)
       | HttpError status =>
           failure "PhishTank" ("API unavailable (" +:+ pretty status +:+ ")")
       | Body m => answer "PhishTank" m None
       end.

(** Check URL against VirusTotal *)
Definition checkVirusTotal (w : World) (url : string) (st : State)
    : APIResponse * State :=
  if String.eqb (VIRUSTOTAL (getApiKeys w)) CONFIG.YOUR_API_KEY_HERE
  then (failure "VirusTotal" "API key not configured", st)
  else
    let '(allowed, st) :=
      checkRateLimit w "virustotal" CONFIG.RATE_LIMITS.VIRUSTOTAL_PER_DAY st in
    if negb allowed then (failure "VirusTotal" "Rate limit exceeded", st)
    else if JS.btoa_throws url   (* Encode URL to base64: [btoa(url)] *)
    then (failure "VirusTotal" JS.btoa_message, st)
    else match virusTotalFetch w with
         | Rejected e => (failure "VirusTotal" (error_message e), st)
         | HttpError status =>
             (failure "VirusTotal" ("VirusTotal API error: " +:+ pretty status), st)
         | Body stats =>
             (* Consider malicious if ANY engine flags it *)
             let maliciousCount :=
               match stats with
               | Some (m, s) => Z.of_nat m + Z.of_nat s
               | None => 0
               end in
             (answer "VirusTotal" (bool_decide (0 < maliciousCount)) (Some maliciousCount), st)
         end.

(** An entry of the array [Promise.allSettled] resolves to. *)
Inductive Settled :=
| fulfilled (value : APIResponse)
| rejected (reason : string).

Definition apiNames : list string :=
  [ "Google Safe Browsing"; "PhishTank"; "VirusTotal" ].

(** The body of the [forEach] callback: the layers pushed for one entry. *)
Definition layersOf (result : Settled) (index : nat) : list DetectionLayer :=
  let apiName := default "undefined" (apiNames !! index) in
  match result with
  | fulfilled response =>
      if success response then
        if malicious response then
          [ {| layer := signature;
               method := source response;
               score := 100; (* External API detections are high confidence *)
               details :=
                 "Flagged as malicious by " +:+ source response
                 +:+ match totalDetections response with
                     | Some n => if bool_decide (n = 0) then ""
                                 else " (" +:+ pretty n +:+ " detections)"
                     | None => ""
                     end;
               matched := true |} ]
        else
          (* Add clean result for transparency *)
          [ {| layer := signature;
               method := source response;
               score := 0;
               details := "Checked by " +:+ source response +:+ " - Clean";
               matched := false |} ]
      else
        (* Add failed check for transparency *)
        [ {| layer := signature;
             method := apiName;
             score := 0;
             details := apiName +:+ " check failed: "
                        +:+ JS.or_else (error response) "Unknown error";
             matched := false |} ]
  | rejected reason =>
      (* Add error result for transparency *)
      [ {| layer := signature;
           method := apiName;
           score := 0;
           details := apiName +:+ " unavailable: " +:+ reason;
           matched := false |} ]
  end.

(** [results.forEach((result, index) => ...)] *)
Fixpoint forEach_layers (results : list Settled) (index : nat) : list DetectionLayer :=
  match results with
  | [] => []
  | r :: rs => layersOf r index ++ forEach_layers rs (S index)
  end.

Section WithPlatform.
Context `{Platform}.

(** The three checks, each of which catches everything it may throw, so
    that every promise is fulfilled. The checks share no key of the two
    maps, so that running them one after the other gives the state and
    the answers that their interleaving gives. *)
Definition settleAll (w : World) (url : string) (st : State) : list Settled * State :=
  let '(sb, st) := checkSafeBrowsing w url st in
  let pt := checkPhishTank w url in
  let '(vt, st) := checkVirusTotal w url st in
  ([ fulfilled sb; fulfilled pt; fulfilled vt ], st).

(** Aggregate results from multiple APIs *)
Definition checkAllAPIs (w : World) (url : string) (st : State)
    : list DetectionLayer * State :=
  let '(results, st) := settleAll w url st in
  (forEach_layers results 0, st).

End WithPlatform.

End SignatureEngine.

(* ===================================================================== *)
(** * Shannon entropy                                                     *)
(* ===================================================================== *)

(** [calculateEntropy] returns H = - sum (n/L) log2 (n/L) over the
    characters of its argument, n the number of occurrences of a character
    and L the length. Its callers compare H with decimal constants and
    print it with two decimals. H is kept here by the table of the n, and
    is compared exactly: with P = prod n^n, b L H = log2 (L^(b L) / P^b),
    so that H > a/b iff P^b * 2^(a L) < L^(b L).
    The double of the code is H up to the rounding of its operations. *)
Module Entropy.

Record t := { counts : list Z }.

Definition zero : t := {| counts := [] |}.

Fixpoint bump (c : ascii) (table : list (ascii * Z)) : list (ascii * Z) :=
  match table with
  | [] => [(c, 1)]
  | (d, n) :: table' =>
      if Ascii.eqb c d then (d, n + 1) :: table' else (d, n) :: bump c table'
  end.

(** [frequencies[char] = (frequencies[char] || 0) + 1] for every character *)
Definition frequencies (str : string) : list (ascii * Z) :=
  fold_left (λ table c, bump c table) (JS.chars str) [].

Fixpoint pow_pos (z : Z) (p : positive) : Z :=
  match p with
  | xH => z
  | xO p' => let r := pow_pos z p' in r * r
  | xI p' => let r := pow_pos z p' in z * (r * r)
  end.

(** [z ^ n] by repeated squaring, for [0 <= n] *)
Definition pow (z n : Z) : Z :=
  match n with
  | Zpos p => pow_pos z p
  | _ => 1
  end.

Definition total (e : t) : Z := fold_right Z.add 0 (counts e).

Definition pow_prod (e : t) : Z :=
  fold_right (λ n acc, pow n n * acc) 1 (counts e).

(** H > a/b, for [0 <= a] and [0 < b] *)
Definition gt (e : t) (a b : Z) : bool :=
  pow (pow_prod e) b * pow 2 (a * total e) <? pow (total e) (b * total e).

(** The integer part of 200 H. *)
Definition floor200 (e : t) : Z :=
  if total e =? 0 then 0
  else Z.log2 (pow (total e) (200 * total e) / pow (pow_prod e) 200) / total e.

Definition two_digits (n : Z) : string :=
  if n <? 10 then "0" +:+ pretty n else pretty n.

(** [entropy.toFixed(2)]: H in hundredths, rounded half up. *)
Definition toFixed2 (e : t) : string :=
  let k := (floor200 e + 1) / 2 in
  pretty (k / 100) +:+ "." +:+ two_digits (k mod 100).

End Entropy.

(* ===================================================================== *)
(** * heuristic-engine.ts                                                 *)
(* ===================================================================== *)

Record URLFeatures := {
  f_length : Z;
  domainLength : Z;
  subdomainCount : Z;
  hasIP : bool;
  usesHTTPS : bool;
  hasSuspiciousTLD : bool;
  hasPunycode : bool;
  hasPort : bool;
  specialCharCount : Z;
  digitCount : Z;
  entropy : Entropy.t;
  urlEncodingCount : Z;
  suspiciousEncoding : bool;
  hasReadableParams : bool;
  hasRandomParams : bool;
  hasQualityDomain : bool;
  phishingKeywordCount : Z;
  urgentKeywordCount : Z;
  brandImpersonation : option string;
  pathDepth : Z;
  pathSlashCount : Z;
  hasConsecutiveChars : bool;
  isShortener : bool;
  hasHyphenSpam : bool;
  hasDotSpam : bool
}.

Module HeuristicEngine.

Definition len (s : string) : Z := Z.of_nat (String.length s).
Definition size {A} (xs : list A) : Z := Z.of_nat (length xs).

(** Check if hostname is a URL shortener *)
Definition isURLShortener (hostname : string) : bool :=
  let shorteners :=
    [ "bit.ly"; "tinyurl.com"; "goo.gl"; "t.co"; "ow.ly";
      "is.gd"; "buff.ly"; "adf.ly"; "bit.do"; "short.link";
      "cutt.ly"; "rb.gy"; "tiny.cc"; "bc.vc" ] in
  existsb (λ s, String.eqb hostname s || JS.endsWith hostname ("." +:+ s)) shorteners.

(** Check if hostname is an IP address *)
Definition isIPAddress (hostname : string) : bool :=
  (* IPv4: /^(\d{1,3}\.){3}\d{1,3}$/ *)
  let ipv4 :=
    let parts := JS.split "." hostname in
    (length parts =? 4)%nat
    && forallb (λ p, JS.all_class JS.is_digit p
                     && (1 <=? String.length p)%nat && (String.length p <=? 3)%nat) parts in
  (* IPv6: /^([0-9a-fA-F]{0,4}:){2,7}[0-9a-fA-F]{0,4}$/ *)
  let ipv6 :=
    let parts := JS.split ":" hostname in
    (3 <=? length parts)%nat && (length parts <=? 8)%nat
    && forallb (λ p, JS.all_class JS.is_hex p && (String.length p <=? 4)%nat) parts in
  ipv4 || ipv6.

(** Calculate Shannon entropy of a string *)
Definition calculateEntropy (str : string) : Entropy.t :=
  {| Entropy.counts := (Entropy.frequencies str).*2 |}.

(** One row of the matrix: [prev] is row [i - 1] from column [j - 1] on,
    [left] is [matrix[i][j - 1]]; the result is row [i] from column [j] on. *)
Fixpoint levenshteinRow (bc : ascii) (a : list ascii) (prev : list nat) (left : nat)
    : list nat :=
  match a, prev with
  | ac :: a', diag :: ((up :: _) as prev') =>
      let v := if Ascii.eqb bc ac then diag
               else Nat.min (diag + 1) (Nat.min (left + 1) (up + 1)) in
      v :: levenshteinRow bc a' prev' v
  | _, _ => []
  end.

Fixpoint levenshteinRows (b a : list ascii) (prev : list nat) (i : nat) : list nat :=
  match b with
  | [] => prev
  | bc :: b' => levenshteinRows b' a (i :: levenshteinRow bc a prev i) (S i)
  end.

(** Calculate Levenshtein distance (edit distance) between two strings *)
Definition levenshteinDistance (a b : string) : nat :=
  List.last (levenshteinRows (JS.chars b) (JS.chars a) (seq 0 (S (String.length a))) 1) O.

Definition lookalikes : list (string * list string) :=
  [ ("a", [ "а"; "à"; "á"; "â"; "ã"; "ä" ]);
    ("e", [ "е"; "è"; "é"; "ê"; "ë" ]);
    ("i", [ "і"; "ì"; "í"; "î"; "ï" ]);
    ("o", [ "о"; "ò"; "ó"; "ô"; "õ"; "ö"; "0" ]);
    ("l", [ "1"; "і"; "|" ]) ].

(** The three tests of the loop body, for one brand. *)
Definition impersonates (hostLower brand : string) : bool :=
  (* brand name in domain but not official *)
  (JS.includes hostLower brand && negb (JS.endsWith hostLower (brand +:+ ".com")))
  (* typosquatting *)
  || (let distance := levenshteinDistance hostLower (brand +:+ ".com") in
      (0 <? distance)%nat && (distance <=? 2)%nat
      && JS.includes hostLower (JS.substring_0 4 brand))
  (* lookalike characters (homograph) *)
  || existsb (λ '(normal, fakes),
        existsb (λ fake, JS.includes hostLower fake && JS.includes brand normal) fakes)
       lookalikes.

(** Detect brand impersonation attempts *)
Definition detectBrandImpersonation (hostname : string) : option string :=
  let hostLower := JS.toLowerCase hostname in
  List.find (impersonates hostLower) CONFIG.TARGETED_BRANDS.

Definition defaultFeatures : URLFeatures :=
  {| f_length := 0; domainLength := 0; subdomainCount := 0;
     hasIP := false; usesHTTPS := true; hasSuspiciousTLD := false;
     hasPunycode := false; hasPort := false;
     specialCharCount := 0; digitCount := 0; entropy := Entropy.zero;
     urlEncodingCount := 0; suspiciousEncoding := false;
     hasReadableParams := true; hasRandomParams := false;
     hasQualityDomain := true;
     phishingKeywordCount := 0; urgentKeywordCount := 0;
     brandImpersonation := None;
     pathDepth := 0; pathSlashCount := 0;
     hasConsecutiveChars := false; isShortener := false;
     hasHyphenSpam := false; hasDotSpam := false |}.

Definition percentEncoded (s : string) : Z :=
  Z.of_nat (JS.count_percent_encoded (String.length s) s).

Definition keywordCount (keywords : list string) (s : string) : Z :=
  size (filter (λ keyword, JS.includes s keyword = true) keywords).

(** [parts[parts.length - k]] for a non-empty array *)
Definition from_end (parts : list string) (k : nat) : string :=
  default "" (parts !! (length parts - k)%nat).

Section WithPlatform.
Context `{Platform}.

(** Extract features from URL *)
Definition extractFeatures (url : string) : URLFeatures :=
  match new_URL url with
  | Ok urlObj =>
      let hostname := URLObj.hostname urlObj in
      let pathname := URLObj.pathname urlObj in
      let domainParts := JS.split "." hostname in
      let tld := from_end domainParts 1 in
      let hostnameEncodingCount := percentEncoded hostname in
      let pathEncodingCount := percentEncoded pathname in
      let urlLower := JS.toLowerCase url in
      let queryParams := URLObj.search urlObj in
      let sld := if bool_decide (2 ≤ size domainParts) then from_end domainParts 2 else "" in
      {| f_length := len url;
         domainLength := len hostname;
         subdomainCount := Z.max 0 (size domainParts - 2);
         hasIP := isIPAddress hostname;
         usesHTTPS := String.eqb (URLObj.protocol urlObj) "https:";
         hasSuspiciousTLD := JS.array_includes CONFIG.SUSPICIOUS_TLDS (JS.toLowerCase tld);
         hasPunycode := JS.includes hostname "xn--";
         hasPort := negb (String.eqb (URLObj.port_str urlObj) "");
         specialCharCount := Z.of_nat (JS.count_class (λ c, negb (JS.is_alnum c)) url);
         digitCount := Z.of_nat (JS.count_class JS.is_digit url);
         entropy := calculateEntropy hostname;
         urlEncodingCount := percentEncoded url;
         (* Encoding in hostname is very suspicious, in query params is normal *)
         suspiciousEncoding :=
           bool_decide (0 < hostnameEncodingCount) || bool_decide (5 < pathEncodingCount);
         hasReadableParams :=
           bool_decide (0 < len queryParams)
           && JS.test_classes [ JS.is_alpha; JS.is_alpha; JS.is_alpha; JS.is_char "=";
                                (λ c, negb (JS.is_char "&" c)) ] queryParams;
         hasRandomParams :=
           bool_decide (0 < len queryParams)
           && JS.test_classes (repeat JS.is_alnum 20) queryParams;
         hasQualityDomain :=
           bool_decide (3 ≤ len sld)
           && (negb (String.eqb sld "") && JS.all_class JS.is_alpha sld)
           && negb (JS.any_class JS.is_digit sld);
         phishingKeywordCount := keywordCount CONFIG.PHISHING_KEYWORDS urlLower;
         urgentKeywordCount := keywordCount CONFIG.URGENT_KEYWORDS urlLower;
         brandImpersonation := detectBrandImpersonation hostname;
         pathDepth :=
           size (filter (λ p, (0 < String.length p)%nat) (JS.split "/" pathname));
         pathSlashCount := Z.of_nat (JS.count_class (JS.is_char "/") pathname);
         hasConsecutiveChars := JS.test_repeated4 hostname;
         isShortener := isURLShortener hostname;
         hasHyphenSpam := bool_decide (3 < Z.of_nat (JS.count_class (JS.is_char "-") hostname));
         hasDotSpam := bool_decide (5 < size domainParts) |}
  | Throw _ =>
      (* Return safe defaults on error *)
      defaultFeatures
  end.

Definition rule (cond : bool) (name : string) (s : Z) (d : string) : list DetectionLayer :=
  if cond
  then [ {| layer := heuristic; method := name; score := s; details := d; matched := true |} ]
  else [].

(** The rules on the second-level domain and on the leftmost label. *)
Definition domainRules (domainParts : list string) : list DetectionLayer :=
  (if bool_decide (2 ≤ size domainParts) then
     let sld := from_end domainParts 2 in
     let isSuspiciousSLD :=
       (* Pattern 1: Long alphanumeric with hyphen (common in DGA) *)
       (JS.test_classes [ JS.is_lower_alnum; JS.is_char "-"; JS.is_lower_alnum ] sld
        && JS.any_class JS.is_digit sld && bool_decide (12 < len sld))
       (* Pattern 2: High density of random numbers/chars *)
       || JS.test_classes (repeat JS.is_lower 5 ++ repeat JS.is_digit 3) sld
       (* Pattern 3: Random hex-like string *)
       || (JS.all_class JS.is_hex sld && bool_decide (10 ≤ len sld)) in
     rule isSuspiciousSLD "DGA / Random Domain" 35
       "Domain name pattern appears randomly generated or algorithmic"
   else [])
  ++
  (if bool_decide (2 < size domainParts) then
     let subdomain := default "" (domainParts !! O) in
     rule ((JS.all_class JS.is_hex subdomain
            && bool_decide (3 ≤ len subdomain) && bool_decide (len subdomain ≤ 8))
           || (bool_decide (5 < len subdomain)
               && JS.any_class JS.is_digit subdomain
               && JS.any_class JS.is_lower subdomain))
       "Suspicious Subdomain" 30
       "Subdomain appears to be a generated hash or ID"
   else []).

(** Analyze URL using heuristics and return detection layers *)
Definition analyze (url : string) : Exc (list DetectionLayer) :=
  let features := extractFeatures url in
  let! urlObj := new_URL url in
  let hostname := JS.toLowerCase (URLObj.hostname urlObj) in
  let isTrustedInfra :=
    existsb (λ domain, String.eqb hostname domain || JS.endsWith hostname ("." +:+ domain))
      CONFIG.TRUSTED_INFRA_DOMAINS in
  let isStructuredURL := hasReadableParams features && hasQualityDomain features in
  let lengthThreshold :=
    if isStructuredURL then CONFIG.URL_LENGTH.EXTREME
    else CONFIG.URL_LENGTH.VERY_SUSPICIOUS in
  let keywordCountHostOnly := keywordCount CONFIG.PHISHING_KEYWORDS hostname in
  let phishingCount :=
    if isTrustedInfra then keywordCountHostOnly else phishingKeywordCount features in
  Ok (
    rule (hasIP features) "IP Address Detection" CONFIG.HEURISTIC_WEIGHTS.IP_URL
      "URL uses IP address instead of domain name"
    ++ rule (hasSuspiciousTLD features) "Suspicious TLD" CONFIG.HEURISTIC_WEIGHTS.SUSPICIOUS_TLD
      "Domain uses a TLD commonly associated with phishing"
    ++ rule (hasPunycode features) "Punycode/IDN Detection" CONFIG.HEURISTIC_WEIGHTS.PUNYCODE
      "URL contains internationalized domain (potential homograph attack)"
    ++ (if negb isTrustedInfra && bool_decide (lengthThreshold < f_length features) then
          rule true "Excessive URL Length" (CONFIG.HEURISTIC_WEIGHTS.LONG_URL * 2)
            ("URL length (" +:+ pretty (f_length features) +:+ ") is extremely suspicious")
        else
          rule (negb isTrustedInfra
                && bool_decide (CONFIG.URL_LENGTH.SUSPICIOUS < f_length features)
                && negb isStructuredURL)
            "Long URL" CONFIG.HEURISTIC_WEIGHTS.LONG_URL
            ("URL length (" +:+ pretty (f_length features) +:+ ") is suspicious"))
    ++ rule (bool_decide (CONFIG.MAX_SUBDOMAINS < subdomainCount features))
      "Excessive Subdomains" CONFIG.HEURISTIC_WEIGHTS.EXCESSIVE_SUBDOMAIN
      ("URL has " +:+ pretty (subdomainCount features) +:+ " subdomains (suspicious)")
    ++ rule (suspiciousEncoding features)
      "Suspicious URL Encoding" CONFIG.HEURISTIC_WEIGHTS.URL_ENCODING
      "URL encoding found in hostname or excessive in path (obfuscation attempt)"
    ++ rule (bool_decide (0 < phishingCount))
      "Phishing Keywords" (CONFIG.HEURISTIC_WEIGHTS.SUSPICIOUS_KEYWORDS * phishingCount)
      ("Contains " +:+ pretty phishingCount +:+ " phishing-related keyword(s)"
       +:+ (if isTrustedInfra then " in hostname" else ""))
    ++ match brandImpersonation features with
       | Some brand =>
           rule (negb (String.eqb brand "")) "Brand Impersonation" 50
             ("Potential impersonation of " +:+ brand)
       | None => []
       end
    ++ rule (negb (usesHTTPS features) && bool_decide (0 < phishingKeywordCount features))
      "No HTTPS on Sensitive Page" CONFIG.HEURISTIC_WEIGHTS.NO_HTTPS
      "Sensitive page without HTTPS encryption"
    ++ rule (hasConsecutiveChars features) "Character Pattern Anomaly" 15
      "Domain contains suspicious repeated character patterns"
    ++ rule (isShortener features) "URL Shortener Detected" 10
      "URL uses a shortening service (destination unknown)"
    ++ rule (hasHyphenSpam features) "Hyphen Spam" 18
      "Domain contains excessive hyphens"
    ++ rule (hasDotSpam features) "Subdomain Spam" 20
      "Domain has excessive subdomain levels"
    ++ rule (bool_decide (CONFIG.PATH_ANALYSIS.MAX_DEPTH < pathDepth features))
      "Excessive Path Depth" 12
      ("Path has " +:+ pretty (pathDepth features) +:+ " levels (suspicious structure)")
    ++ rule (bool_decide (0 < urgentKeywordCount features))
      "Social Engineering Language" (25 * urgentKeywordCount features)
      ("Contains " +:+ pretty (urgentKeywordCount features) +:+ " urgent/pressure keyword(s)")
    ++ (if negb isTrustedInfra && Entropy.gt (entropy features) 4 1 then
          rule true "High Domain Entropy" 25
            ("Domain has high entropy (" +:+ Entropy.toFixed2 (entropy features)
             +:+ "), possibly randomly generated")
        else [])
    ++ domainRules (JS.split "." (URLObj.hostname urlObj))).

End WithPlatform.

(** Calculate overall heuristic score *)
Definition calculateScore (layers : list DetectionLayer) : Z :=
  let totalScore := fold_left (λ sum l, sum + score l) layers 0 in
  Z.min 100 totalScore.

End HeuristicEngine.

(* ===================================================================== *)
(** * ml-engine.ts                                                        *)
(* ===================================================================== *)

(** A quotient [numerator / denominator] of two counts, [0 < denominator];
    the code compares such quotients with decimal constants. *)
Record Ratio := { numerator : Z; denominator : Z }.

(** [r > a / b], for [0 < b] *)
Definition ratio_gt (r : Ratio) (a b : Z) : bool :=
  a * denominator r <? b * numerator r.

Module MLFeatureVector.
Record t := {
  urlLength : Z;
  domainLength : Z;
  pathLength : Z;
  queryLength : Z;
  subdomainCount : Z;
  digitRatio : Ratio;
  specialCharRatio : Ratio;
  consonantRatio : Ratio;
  entropy : Entropy.t;
  hasIP : Z; (* 0 or 1 *)
  usesHTTPS : Z;
  hasSuspiciousTLD : Z;
  hasPunycode : Z;
  phishingKeywordScore : Z;
  urgentKeywordScore : Z;
  pathDepth : Z;
  hasConsecutiveChars : Z;
  isShortener : Z;
  hasReadableParams : Z;
  hasQualityDomain : Z;
  suspiciousEncoding : Z;
  hasRandomParams : Z
}.
End MLFeatureVector.

Module MLEngine.

Import HeuristicEngine.

Definition flag (b : bool) : Z := if b then 1 else 0.
Definition truthy (n : Z) : bool := negb (n =? 0).
Definition is1 (n : Z) : bool := n =? 1.
Definition is_vowel (c : ascii) : bool :=
  existsb (Ascii.eqb (JS.lower_char c)) (JS.chars "aeiou").

Definition defaultVector : MLFeatureVector.t :=
  {| MLFeatureVector.urlLength := 0;
     MLFeatureVector.domainLength := 0;
     MLFeatureVector.pathLength := 0;
     MLFeatureVector.queryLength := 0;
     MLFeatureVector.subdomainCount := 0;
     MLFeatureVector.digitRatio := {| numerator := 0; denominator := 1 |};
     MLFeatureVector.specialCharRatio := {| numerator := 0; denominator := 1 |};
     MLFeatureVector.consonantRatio := {| numerator := 0; denominator := 1 |};
     MLFeatureVector.entropy := Entropy.zero;
     MLFeatureVector.hasIP := 0;
     MLFeatureVector.usesHTTPS := 1;
     MLFeatureVector.hasSuspiciousTLD := 0;
     MLFeatureVector.hasPunycode := 0;
     MLFeatureVector.phishingKeywordScore := 0;
     MLFeatureVector.urgentKeywordScore := 0;
     MLFeatureVector.pathDepth := 0;
     MLFeatureVector.hasConsecutiveChars := 0;
     MLFeatureVector.isShortener := 0;
     MLFeatureVector.hasReadableParams := 1;
     MLFeatureVector.hasQualityDomain := 1;
     MLFeatureVector.suspiciousEncoding := 0;
     MLFeatureVector.hasRandomParams := 0 |}.

Section WithPlatform.
Context `{Platform}.

(** Convert URL features to ML feature vector *)
Definition extractMLFeatures (url : string) : MLFeatureVector.t :=
  let features := extractFeatures url in
  match new_URL url with
  | Ok urlObj =>
      let d := Z.max (f_length features) 1 in
      let vowelCount := Z.of_nat (JS.count_class is_vowel url) in
      {| MLFeatureVector.urlLength := f_length features;
         MLFeatureVector.domainLength := domainLength features;
         MLFeatureVector.pathLength := len (URLObj.pathname urlObj);
         MLFeatureVector.queryLength := len (URLObj.search urlObj);
         MLFeatureVector.subdomainCount := subdomainCount features;
         MLFeatureVector.digitRatio :=
           {| numerator := digitCount features; denominator := d |};
         MLFeatureVector.specialCharRatio :=
           {| numerator := specialCharCount features; denominator := d |};
         MLFeatureVector.consonantRatio :=
           {| numerator := f_length features - vowelCount - digitCount features;
              denominator := d |};
         MLFeatureVector.entropy := entropy features;
         MLFeatureVector.hasIP := flag (hasIP features);
         MLFeatureVector.usesHTTPS := flag (usesHTTPS features);
         MLFeatureVector.hasSuspiciousTLD := flag (hasSuspiciousTLD features);
         MLFeatureVector.hasPunycode := flag (hasPunycode features);
         MLFeatureVector.phishingKeywordScore := phishingKeywordCount features * 10;
         MLFeatureVector.urgentKeywordScore := urgentKeywordCount features * 15;
         MLFeatureVector.pathDepth := pathDepth features;
         MLFeatureVector.hasConsecutiveChars := flag (hasConsecutiveChars features);
         MLFeatureVector.isShortener := flag (isShortener features);
         MLFeatureVector.hasReadableParams := flag (hasReadableParams features);
         MLFeatureVector.hasQualityDomain := flag (hasQualityDomain features);
         MLFeatureVector.suspiciousEncoding := flag (suspiciousEncoding features);
         MLFeatureVector.hasRandomParams := flag (hasRandomParams features) |}
  | Throw _ => defaultVector
  end.

End WithPlatform.

(** [if (c) x += k] *)
Definition when (c : bool) (k : Z) : Z := if c then k else 0.

(** The prediction: the score, and the confidence in hundredths (the
    code adds and subtracts multiples of 0.01 from 0.7). *)
Definition predict (features : MLFeatureVector.t) : Z * Z :=
  let f := features in
  let readable := is1 (MLFeatureVector.hasReadableParams f) in
  let quality := is1 (MLFeatureVector.hasQualityDomain f) in
  (* POSITIVE SIGNALS (legitimacy indicators - reduce score) *)
  let legitimacyBonus :=
    when readable 20 + when quality 15
    + when (is1 (MLFeatureVector.usesHTTPS f) && quality) 8 in
  (* URL length (more lenient if structured): Math.floor(k * lengthPenalty) *)
  let lengthPenalty (k : Z) : Z := if readable then k / 2 else k in
  let score :=
    when (truthy (MLFeatureVector.hasIP f)) 35
    + when (truthy (MLFeatureVector.hasPunycode f)) 30
    + when (truthy (MLFeatureVector.hasSuspiciousTLD f)) 28
    + when (is1 (MLFeatureVector.suspiciousEncoding f)) 30
    + when (is1 (MLFeatureVector.hasRandomParams f)) 22
    + (if 300 <? MLFeatureVector.urlLength f then lengthPenalty 25
       else if 200 <? MLFeatureVector.urlLength f then lengthPenalty 15
       else if 120 <? MLFeatureVector.urlLength f then lengthPenalty 8
       else 0)
    + (if 40 <? MLFeatureVector.domainLength f then 18
       else if 25 <? MLFeatureVector.domainLength f then 10
       else 0)
    + (if 5 <? MLFeatureVector.subdomainCount f then 30
       else if 3 <? MLFeatureVector.subdomainCount f then 18
       else if 2 <? MLFeatureVector.subdomainCount f then 10
       else 0)
    + (if 10 <? MLFeatureVector.pathDepth f then 15
       else if 7 <? MLFeatureVector.pathDepth f then 8
       else 0)
    + (if ratio_gt (MLFeatureVector.digitRatio f) 4 10 then 20
       else if ratio_gt (MLFeatureVector.digitRatio f) 25 100 then 12
       else 0)
    + (if ratio_gt (MLFeatureVector.specialCharRatio f) 35 100 then 18
       else if ratio_gt (MLFeatureVector.specialCharRatio f) 2 10 then 10
       else 0)
    + when (ratio_gt (MLFeatureVector.consonantRatio f) 7 10) 12
    + (if Entropy.gt (MLFeatureVector.entropy f) 48 10 then 25
       else if Entropy.gt (MLFeatureVector.entropy f) 42 10 then 15
       else if Entropy.gt (MLFeatureVector.entropy f) 38 10 then 8
       else 0)
    + when (truthy (MLFeatureVector.hasConsecutiveChars f)) 12
    + Z.min (MLFeatureVector.phishingKeywordScore f) 35
    + Z.min (MLFeatureVector.urgentKeywordScore f) 40
    + when (truthy (MLFeatureVector.isShortener f)) 12
    + when (negb (truthy (MLFeatureVector.usesHTTPS f))) 10 in
  let confidence :=
    70
    + when readable 8 + when quality 5
    + when (truthy (MLFeatureVector.hasIP f)) 15
    + when (truthy (MLFeatureVector.hasPunycode f)) 10
    + when (truthy (MLFeatureVector.hasSuspiciousTLD f)) 8
    + when (is1 (MLFeatureVector.suspiciousEncoding f)) 10
    + when (is1 (MLFeatureVector.hasRandomParams f)) 8
    + when (5 <? MLFeatureVector.subdomainCount f) 10
    + when (ratio_gt (MLFeatureVector.digitRatio f) 4 10) 5
    + when (Entropy.gt (MLFeatureVector.entropy f) 48 10) 10
    + when (20 <? MLFeatureVector.urgentKeywordScore f) 15
    - when (truthy (MLFeatureVector.isShortener f)) 10 in
  (* Apply legitimacy bonus *)
  let score := Z.max 0 (score - legitimacyBonus) in
  (* Normalize *)
  let score := Z.min 100 (Z.max 0 score) in
  let confidence := Z.min 100 (Z.max 10 confidence) in
  (score, confidence).

Section WithPlatform.
Context `{Platform}.

(** Get ML-based detection layer *)
Definition analyze (url : string) : DetectionLayer :=
  let features := extractMLFeatures url in
  let '(score, confidence) := predict features in
  {| layer := ml;
     method := "ML Model (" +:+ pretty confidence +:+ "% confidence)";
     score := score;
     details := "ML prediction: " +:+ pretty score +:+ "/100 (confidence: "
                +:+ pretty confidence +:+ "%)";
     matched := 45 <? score |}.

End WithPlatform.

End MLEngine.

(* ===================================================================== *)
(** * threat-analyzer.ts: URL normalisation                               *)
(* ===================================================================== *)

Section Normalize.
Context `{Platform}.

Definition normalizeURL (url : string) : string :=
  match new_URL url with
  | Ok urlObj =>
      (* Remove fragments and trailing slashes *)
      let urlObj := URLObj.clear_hash urlObj in
      let normalized := URLObj.href urlObj in
      let normalized :=
        if JS.endsWith normalized "/" then JS.slice_0_m1 normalized
        else normalized in
      JS.toLowerCase normalized
  | Throw _ => JS.toLowerCase url
  end.

End Normalize.

(* ===================================================================== *)
(** * threat-analyzer.ts: verdict mapping                                 *)
(* ===================================================================== *)

Definition getRiskLevel (score : Z) : RiskLevel :=
  if bool_decide (CONFIG.RISK_THRESHOLDS.CRITICAL ≤ score) then critical
  else if bool_decide (CONFIG.RISK_THRESHOLDS.HIGH ≤ score) then high
  else if bool_decide (CONFIG.RISK_THRESHOLDS.MEDIUM ≤ score) then medium
  else if bool_decide (CONFIG.RISK_THRESHOLDS.LOW ≤ score) then low
  else safe.

(** The order safe < low < medium < high < critical. *)
Definition rank (l : RiskLevel) : nat :=
  match l with safe => 0 | low => 1 | medium => 2 | high => 3 | critical => 4 end.

Definition level_le (a b : RiskLevel) : Prop := (rank a ≤ rank b)%nat.

(* ===================================================================== *)
(** * threat-analyzer.ts: cache and whitelist                             *)
(* ===================================================================== *)

(** A JavaScript [Map] with string keys: the entries in insertion order,
    no key twice. *)
Module JSMap.
Section Map.
Context {V : Type}.

Fixpoint get (m : list (string * V)) (k : string) : option V :=
  match m with
  | [] => None
  | (k', v) :: m' => if String.eqb k' k then Some v else get m' k
  end.

Fixpoint set (m : list (string * V)) (k : string) (v : V) : list (string * V) :=
  match m with
  | [] => [(k, v)]
  | (k', v') :: m' =>
      if String.eqb k' k then (k', v) :: m' else (k', v') :: set m' k v
  end.

Definition delete (m : list (string * V)) (k : string) : list (string * V) :=
  filter (λ e, e.1 ≠ k) m.

Definition size (m : list (string * V)) : Z := Z.of_nat (length m).

End Map.
End JSMap.

(** The static fields of [ThreatAnalyzer], and those of [SignatureEngine]
    that its calls change. *)
Record State := {
  cache : list (string * CacheEntry);
  whitelist : gset string;
  apis : SignatureEngine.State
}.

Definition initial : State :=
  {| cache := []; whitelist := ∅; apis := SignatureEngine.initial |}.

Definition with_cache (st : State) (c : list (string * CacheEntry)) : State :=
  {| cache := c; whitelist := whitelist st; apis := apis st |}.

Definition with_whitelist (st : State) (wl : gset string) : State :=
  {| cache := cache st; whitelist := wl; apis := apis st |}.

Definition with_apis (st : State) (a : SignatureEngine.State) : State :=
  {| cache := cache st; whitelist := whitelist st; apis := a |}.

(** [entries.sort((a, b) => a[1].timestamp - b[1].timestamp)]: the sort is
    stable. *)
Fixpoint insert_by_timestamp (x : string * CacheEntry) (l : list (string * CacheEntry))
    : list (string * CacheEntry) :=
  match l with
  | [] => [x]
  | y :: l' =>
      if entry_timestamp y.2 <=? entry_timestamp x.2
      then y :: insert_by_timestamp x l'
      else x :: l
  end.

Definition sort_by_timestamp (l : list (string * CacheEntry)) : list (string * CacheEntry) :=
  fold_left (λ acc x, insert_by_timestamp x acc) l [].

(** Cache analysis result *)
Definition cacheResult (w : World) (url : string) (r : ThreatAnalysisResult)
    (c : list (string * CacheEntry)) : list (string * CacheEntry) :=
  let c :=
    (* Limit cache size *)
    if bool_decide (CONFIG.CACHE.MAX_CACHE_SIZE ≤ JSMap.size c) then
      (* Remove oldest entries *)
      let entries := sort_by_timestamp c in
      (* Math.floor(MAX_CACHE_SIZE * 0.2) *)
      let toRemove := take (Z.to_nat (CONFIG.CACHE.MAX_CACHE_SIZE * 2 / 10)) entries in
      fold_left (λ c e, JSMap.delete c e.1) toRemove c
    else c in
  JSMap.set c url {| result := r; entry_timestamp := now w |}.

(** Add domain to whitelist *)
Definition addToWhitelist (domain : string) (st : State) : State :=
  with_whitelist st ({[ JS.toLowerCase domain ]} ∪ whitelist st).

(** Remove domain from whitelist *)
Definition removeFromWhitelist (domain : string) (st : State) : State :=
  with_whitelist st (whitelist st ∖ {[ JS.toLowerCase domain ]}).

(** Clear cache *)
Definition clearCache (st : State) : State := with_cache st [].

(** The verdict of the whitelist branch. *)
Definition whitelistedResult (w : World) (normalizedUrl : string) : ThreatAnalysisResult :=
  {| url := normalizedUrl;
     isMalicious := false;
     riskScore := 0;
     riskLevel := safe;
     detectionLayers :=
       [ {| layer := signature; method := "Whitelist"; score := 0;
            details := "Domain is whitelisted"; matched := false |} ];
     timestamp := now w;
     result_details := "Whitelisted domain" |}.

(** The verdict of the [catch] branch: safe on error (fail-open). *)
Definition errorResult (w : World) (url message : string) : ThreatAnalysisResult :=
  {| url := url;
     isMalicious := false;
     riskScore := 0;
     riskLevel := safe;
     detectionLayers :=
       [ {| layer := signature; method := "Error Handler"; score := 0;
            details := "Analysis error: " +:+ message; matched := false |} ];
     timestamp := now w;
     result_details := "Error during analysis" |}.

(** [cached && Date.now() - cached.timestamp < CONFIG.CACHE.SAFE_URL_TTL] *)
Definition cachedResult (w : World) (st : State) (normalizedUrl : string)
    : option ThreatAnalysisResult :=
  match JSMap.get (cache st) normalizedUrl with
  | Some cached =>
      if bool_decide (now w - entry_timestamp cached < CONFIG.CACHE.SAFE_URL_TTL)
      then Some (result cached) else None
  | None => None
  end.

Definition is_malicious_level (l : RiskLevel) : bool :=
  bool_decide (l = high) || bool_decide (l = critical).

(* ===================================================================== *)
(** * threat-analyzer.ts: the analyzer that returns on a signature match  *)
(* ===================================================================== *)

Module ThreatAnalyzer.

(** The scoring loop of [buildResult]: the total and [signatureMatched]. *)
Fixpoint scoreLoop (layers : list DetectionLayer) (totalScore : Z) : Z * bool :=
  match layers with
  | [] => (totalScore, false)
  | l :: rest =>
      if bool_decide (layer l = signature) && matched l then
        (* Signature matches are definitive - always block *)
        (100, true)
      else scoreLoop rest (if matched l then totalScore + score l else totalScore)
  end.

(** Build final threat analysis result *)
Definition buildResult (w : World) (url : string) (layers : list DetectionLayer)
    : ThreatAnalysisResult :=
  let '(totalScore, signatureMatched) := scoreLoop layers 0 in
  (* Cap at 100 *)
  let totalScore := Z.min 100 totalScore in
  (* If signature matched, ensure it's always treated as malicious *)
  let totalScore := if signatureMatched then 100 else totalScore in
  let riskLevel := getRiskLevel totalScore in
  let matchedLayers := filter (λ l, matched l = true) layers in
  {| url := url;
     isMalicious := is_malicious_level riskLevel;
     riskScore := totalScore;
     riskLevel := riskLevel;
     detectionLayers := layers;
     timestamp := now w;
     result_details :=
       if bool_decide (0 < length matchedLayers)%nat
       then "Detected by: " +:+ JS.join ", " (method <$> matchedLayers)
       else "No threats detected" |}.

Section WithPlatform.
Context `{Platform}.

(** The [try] block of [analyze]. *)
Definition analyze_try (w : World) (st : State) (url : string)
    : Exc ThreatAnalysisResult * State :=
  let normalizedUrl := normalizeURL url in
  match new_URL normalizedUrl with
  | Throw e => (Throw e, st)
  | Ok parsed =>
      let hostname := URLObj.hostname parsed in
      (* Check whitelist *)
      if bool_decide (hostname ∈ whitelist st)
      then (Ok (whitelistedResult w normalizedUrl), st)
      else
        (* Check cache *)
        match cachedResult w st normalizedUrl with
        | Some r => (Ok r, st)
        | None =>
            (* Layer 1: Signature-based (API checks) *)
            let '(signatureLayers, a) :=
              SignatureEngine.checkAllAPIs w normalizedUrl (apis st) in
            let st := with_apis st a in
            (* If signature found malicious, return immediately *)
            if bool_decide (0 < length signatureLayers)%nat
               && existsb matched signatureLayers
            then
              let r := buildResult w normalizedUrl signatureLayers in
              (Ok r, with_cache st (cacheResult w normalizedUrl r (cache st)))
            else
              (* Layer 2: Heuristic analysis *)
              match HeuristicEngine.analyze normalizedUrl with
              | Throw e => (Throw e, st)
              | Ok heuristicLayers =>
                  (* Layer 3: ML-based detection *)
                  let mlLayer := MLEngine.analyze normalizedUrl in
                  let allLayers := signatureLayers ++ heuristicLayers ++ [mlLayer] in
                  let r := buildResult w normalizedUrl allLayers in
                  (Ok r, with_cache st (cacheResult w normalizedUrl r (cache st)))
              end
        end
  end.

(** Main analysis function *)
Definition analyze (w : World) (st : State) (url : string)
    : ThreatAnalysisResult * State :=
  let '(outcome, st) := analyze_try w st url in
  (try_catch outcome (errorResult w url), st).

End WithPlatform.

End ThreatAnalyzer.

(* ===================================================================== *)
(** * The revised analyzer: all layers run, external services first       *)
(* ===================================================================== *)

(** The repository holds a second [threat-analyzer.ts], whose header
    documents the priority logic: external APIs are the source of truth,
    and all detection layers still run. Its [normalizeURL], [getRiskLevel],
    [cacheResult] and whitelist functions are those above. *)
Module ThreatAnalyzerPriority.

Definition isExternalAPI (l : DetectionLayer) : bool :=
  bool_decide (layer l = signature)
  && (JS.includes (method l) "VirusTotal"
      || JS.includes (method l) "Google Safe Browsing"
      || JS.includes (method l) "PhishTank").

(** Build final threat analysis result *)
Definition buildResult (w : World) (url : string) (layers : list DetectionLayer)
    : ThreatAnalysisResult :=
  (* Separate external API results from other detection methods *)
  let externalAPILayers := filter (λ l, isExternalAPI l = true) layers in
  (* [includes] compares objects; a layer with the fields of an external
     one is external too, so that comparing fields selects the same layers *)
  let otherLayers := filter (λ l, l ∉ externalAPILayers) layers in
  (* Check if any external API flagged it as malicious *)
  let externalAPIDetected := existsb matched externalAPILayers in
  if externalAPIDetected then
    (* External APIs are the source of truth - treat as malicious *)
    let matchedAPIs := filter (λ l, matched l = true) externalAPILayers in
    let otherMatched := filter (λ l, matched l = true) otherLayers in
    {| url := url;
       isMalicious := true;
       riskScore := 100;
       riskLevel := critical;
       detectionLayers := layers;
       timestamp := now w;
       result_details :=
         "Flagged by external threat intelligence: "
         +:+ JS.join ", " (method <$> matchedAPIs)
         +:+ (if bool_decide (0 < length otherMatched)%nat
              then " | Also detected by: " +:+ JS.join ", " (method <$> otherMatched)
              else "") |}
  else
    (* No external API detection - use traditional scoring *)
    let totalScore :=
      fold_left (λ total l, if matched l then total + score l else total) layers 0 in
    (* Cap at 100 *)
    let totalScore := Z.min 100 totalScore in
    let riskLevel := getRiskLevel totalScore in
    let matchedLayers := filter (λ l, matched l = true) layers in
    {| url := url;
       isMalicious := is_malicious_level riskLevel;
       riskScore := totalScore;
       riskLevel := riskLevel;
       detectionLayers := layers;
       timestamp := now w;
       result_details :=
         (if bool_decide (0 < length matchedLayers)%nat
          then "Detected by: " +:+ JS.join ", " (method <$> matchedLayers)
          else "No threats detected")
         +:+ (if bool_decide (0 < length externalAPILayers)%nat
              then " | External threat intelligence: Clean"
              else "") |}.

Section WithPlatform.
Context `{Platform}.

(** The [try] block of [analyze]. *)
Definition analyze_try (w : World) (st : State) (url : string)
    : Exc ThreatAnalysisResult * State :=
  let normalizedUrl := normalizeURL url in
  match new_URL normalizedUrl with
  | Throw e => (Throw e, st)
  | Ok parsed =>
      let hostname := URLObj.hostname parsed in
      (* Check whitelist *)
      if bool_decide (hostname ∈ whitelist st)
      then (Ok (whitelistedResult w normalizedUrl), st)
      else
        (* Check cache *)
        match cachedResult w st normalizedUrl with
        | Some r => (Ok r, st)
        | None =>
            (* Layer 1: Signature-based (API checks) *)
            let '(signatureLayers, a) :=
              SignatureEngine.checkAllAPIs w normalizedUrl (apis st) in
            let st := with_apis st a in
            (* Layer 2: Heuristic analysis (always run for complete analysis) *)
            match HeuristicEngine.analyze normalizedUrl with
            | Throw e => (Throw e, st)
            | Ok heuristicLayers =>
                (* Layer 3: ML-based detection (always run for complete analysis) *)
                let mlLayer := MLEngine.analyze normalizedUrl in
                let allLayers := signatureLayers ++ heuristicLayers ++ [mlLayer] in
                let r := buildResult w normalizedUrl allLayers in
                (Ok r, with_cache st (cacheResult w normalizedUrl r (cache st)))
            end
        end
  end.

(** Main analysis function *)
Definition analyze (w : World) (st : State) (url : string)
    : ThreatAnalysisResult * State :=
  let '(outcome, st) := analyze_try w st url in
  (try_catch outcome (errorResult w url), st).

End WithPlatform.

End ThreatAnalyzerPriority.

(* ===================================================================== *)
(** * Runs of the analyzer                                                *)
(* ===================================================================== *)

(** The states that the class can be in: it starts with an empty cache and
    an empty whitelist, and its public functions are the only code that
    changes them. [analyze] is the analyzer of either revision. *)
Inductive reachable
    (analyze : World → State → string → ThreatAnalysisResult * State) : State → Prop :=
| reachable_initial :
    reachable analyze initial
| reachable_analyze w st url :
    reachable analyze st → reachable analyze (analyze w st url).2
| reachable_addToWhitelist domain st :
    reachable analyze st → reachable analyze (addToWhitelist domain st)
| reachable_removeFromWhitelist domain st :
    reachable analyze st → reachable analyze (removeFromWhitelist domain st)
| reachable_clearCache st :
    reachable analyze st → reachable analyze (clearCache st).

(** A signal of the Signature layer that matched. *)
Definition signatureMatched (l : DetectionLayer) : Prop :=
  layer l = signature ∧ matched l = true.

#[global] Instance signatureMatched_dec l : Decision (signatureMatched l).
Proof. unfold signatureMatched. apply _. Defined.

(** A world without API keys in which every service would answer "clean". *)
Definition quietWorld : World :=
  {| now := 1000;
     storage := Ok (None, None, None);
     safeBrowsingFetch := Body None;
     phishTankFetch := Body false;
     virusTotalFetch := Body None |}.

(** A world in which VirusTotal has a key and reports three detections. *)
Definition flaggingWorld : World :=
  {| now := 1000;
     storage := Ok (None, Some "0123abcd", None);
     safeBrowsingFetch := Body None;
     phishTankFetch := Body false;
     virusTotalFetch := Body (Some (3%nat, O)) |}.

(** The verdict of a result is within range. *)
Definition in_range (r : ThreatAnalysisResult) : Prop := 0 ≤ riskScore r ≤ 100.

(** The verdict of a result gives priority to the Signature layer. *)
Definition priority (r : ThreatAnalysisResult) : Prop :=
  Exists signatureMatched (detectionLayers r) →
  riskScore r = 100 ∧ riskLevel r = critical ∧ isMalicious r = true.

(** The first character of the [details] of a result tells where the
    result was made: [buildResult] writes "Detected by", "No threats
    detected" or "Flagged by", the whitelist branch "Whitelisted domain",
    the error handler "Error during analysis". *)
Definition details_head (r : ThreatAnalysisResult) : option ascii :=
  match result_details r with
  | String c _ => Some c
  | EmptyString => None
  end.

Definition built (r : ThreatAnalysisResult) : Prop :=
  details_head r = Some "D"%char ∨ details_head r = Some "N"%char
  ∨ details_head r = Some "F"%char.

(** The cache holds results of [buildResult] on collected signals only. *)
Definition cache_sound (st : State) : Prop :=
  ∀ k e, (k, e) ∈ cache st → in_range (result e) ∧ priority (result e) ∧ built (result e).

(** What a settled check says: flagged only by a fulfilled, successful,
    malicious answer. *)
Definition flagged (r : SignatureEngine.Settled) : bool :=
  match r with
  | SignatureEngine.fulfilled v => success v && malicious v
  | SignatureEngine.rejected _ => false
  end.

(** The signal of one settled check. *)
Definition signal_of (r : SignatureEngine.Settled) (l : DetectionLayer) : Prop :=
  layer l = signature ∧ matched l = flagged r ∧
  score l = if matched l then 100 else 0.

(** Every collected signal has a score that is not negative, and a matched
    Signature signal has score 100. *)
Definition layer_ok (l : DetectionLayer) : Prop :=
  0 ≤ score l ∧ (signatureMatched l → score l = 100).

(** What the heuristic rules emit. *)
Definition heuristic_signal (l : DetectionLayer) : Prop :=
  layer l = heuristic ∧ matched l = true ∧ 0 < score l.

(** The revised analyzer adds up the matched scores when no external
    service flagged the URL. *)
Definition matchedSum (ls : list DetectionLayer) (t : Z) : Z :=
  fold_left (λ total l, if matched l then total + score l else total) ls t.

(** The four ways through [analyze], [build] being the [buildResult] of the
    revision: the URL does not parse, its host is whitelisted, a fresh
    result is cached, or the layers run and their signals [ls] are
    assessed and cached. *)
Inductive outcome `{Platform}
    (build : World → string → list DetectionLayer → ThreatAnalysisResult)
    (w : World) (st : State) (url : string) : ThreatAnalysisResult * State → Prop :=
| outcome_error e :
    new_URL (normalizeURL url) = Throw e →
    outcome build w st url (errorResult w url e, st)
| outcome_whitelisted parsed :
    new_URL (normalizeURL url) = Ok parsed →
    URLObj.hostname parsed ∈ whitelist st →
    outcome build w st url (whitelistedResult w (normalizeURL url), st)
| outcome_cached parsed r :
    new_URL (normalizeURL url) = Ok parsed →
    URLObj.hostname parsed ∉ whitelist st →
    cachedResult w st (normalizeURL url) = Some r →
    outcome build w st url (r, st)
| outcome_fresh parsed ls :
    new_URL (normalizeURL url) = Ok parsed →
    URLObj.hostname parsed ∉ whitelist st →
    cachedResult w st (normalizeURL url) = None →
    Forall layer_ok ls →
    let n := normalizeURL url in
    let a := (SignatureEngine.checkAllAPIs w n (apis st)).2 in
    outcome build w st url
      (build w n ls, with_cache (with_apis st a) (cacheResult w n (build w n ls) (cache st))).

(** A [buildResult] whose results are sound on collected signals. *)
Definition sound_build
    (build : World → string → list DetectionLayer → ThreatAnalysisResult) : Prop :=
  ∀ w u ls, Forall layer_ok ls →
    in_range (build w u ls) ∧ priority (build w u ls) ∧ built (build w u ls).

(* ===================================================================== *)
(** * Repeated calls of the rate limiter                                  *)
(* ===================================================================== *)

(** [checkRateLimit] called once in each world of [ws], in this order: the
    number of calls that it allowed, and the state after the last one. *)
Fixpoint allowedCalls (ws : list World) (service : string) (limit : Z)
    (st : SignatureEngine.State) : nat * SignatureEngine.State :=
  match ws with
  | [] => (O, st)
  | w :: ws' =>
      let '(allowed, st) := SignatureEngine.checkRateLimit w service limit st in
      let '(n, st) := allowedCalls ws' service limit st in
      (if allowed then S n else n, st)
  end.

(** A world in which Safe Browsing has a key and reports one match. *)
Definition safeBrowsingWorld : World :=
  {| now := 5000;
     storage := Ok (Some "sb-key", None, None);
     safeBrowsingFetch := Body (Some 1%nat);
     phishTankFetch := Body false;
     virusTotalFetch := Body None |}.

(* ===================================================================== *)
(** * The edit distance                                                   *)
(* ===================================================================== *)

(** The recursion that the matrix of [levenshteinDistance] tabulates, on
    the characters of two strings taken from their ends ([s] and [t] are
    the strings written backwards): the distance to the empty string is the
    length; equal last characters cost nothing; otherwise one more than the
    least of the three neighbours. *)
Fixpoint editDistance (s t : list ascii) : nat :=
  match s with
  | [] => length t
  | x :: s' =>
      (fix row (t : list ascii) : nat :=
         match t with
         | [] => length s
         | y :: t' =>
             if Ascii.eqb x y then editDistance s' t'
             else Nat.min (editDistance s' t' + 1)
                    (Nat.min (row t' + 1) (editDistance s' t + 1))
         end) t
  end.

(** The prefixes of [suffix], each written backwards on top of [acc]:
    the columns of the matrix. *)
Fixpoint columns (acc suffix : list ascii) : list (list ascii) :=
  acc :: match suffix with
         | [] => []
         | c :: suffix' => columns (c :: acc) suffix'
         end.

(** The hosts that [HeuristicEngine.analyze] treats as trusted
    infrastructure. *)
Definition isTrustedInfra (hostname : string) : bool :=
  existsb (λ domain, String.eqb hostname domain || JS.endsWith hostname ("." +:+ domain))
    CONFIG.TRUSTED_INFRA_DOMAINS.

(** The verdict of a result: what the caller acts on. *)
Definition verdict (r : ThreatAnalysisResult) : Z * RiskLevel * bool :=
  (riskScore r, riskLevel r, isMalicious r).

(** [a[1].timestamp - b[1].timestamp <= 0], the order of [entries.sort]. *)
Definition older (x y : string * CacheEntry) : Prop :=
  entry_timestamp x.2 ≤ entry_timestamp y.2.

(** A cache that has reached [MAX_CACHE_SIZE]: the entry of key [i] was
    made at time [i]. *)
Definition fullCache : list (string * CacheEntry) :=
  (λ i : Z, (pretty i, {| result := ThreatAnalyzer.buildResult quietWorld (pretty i) [];
                          entry_timestamp := i |}))
  <$> seqZ 0 CONFIG.CACHE.MAX_CACHE_SIZE.

(* ===================================================================== *)
(** * The service worker: statistics and blocking                         *)
(* ===================================================================== *)

Record Statistics := {
  totalChecked : Z;
  totalBlocked : Z;
  (** the counters [signature], [heuristic], [ml], [behavior] *)
  blockedByLayer : Layer → Z;
  (** the counters [safe], [low], [medium], [high], [critical] *)
  riskDistribution : RiskLevel → Z;
  lastReset : Z
}.

Module BlockedSite.
Record t := {
  url : string;
  timestamp : Z;
  riskLevel : RiskLevel;
  reason : string
}.
End BlockedSite.

(** [counters[key]++] *)
Definition increment {K : Type} `{EqDecision K} (key : K) (counters : K → Z) : K → Z :=
  λ k, if decide (k = key) then counters k + 1 else counters k.

(** The service worker that is appended to threat-analyzer.ts. An [async]
    handler runs until its next [await]; what it does between two awaits
    is one step here, and a handler that waits for [chrome.storage.session]
    is kept in [suspended] until the call settles, so that other handlers
    run in between as they do in the browser. [ThreatAnalyzer.analyze] is
    one step, as above. Not modelled: the badge, the responses of the
    message handler, and [chrome.storage.local], which these handlers write
    and only [onInstalled] reads. *)
Module ServiceWorker.

Definition MAX_RECENT_BLOCKED : Z := 100.

(** [details] of [chrome.webRequest.onBeforeRequest] *)
Record Details := {
  request_type : string;
  request_url : string;
  tabId : Z
}.

(** The [await] at which a request handler is suspended. *)
Inductive Await :=
| storingAnalysis  (* [await chrome.storage.session.set({analysis_<tabId>: result})] *)
| storingBlocked.  (* [await chrome.storage.session.set({blocked_<tabId>: result})] *)

#[global] Instance Await_eq_dec : EqDecision Await.
Proof. solve_decision. Defined.

Record Handler := {
  request : Details;
  analysis : ThreatAnalysisResult;
  awaits : Await
}.

(** What [chrome.tabs.update(tabId, { url })] is asked to show. *)
Inductive Page :=
| blockedPage (url : string)   (* [getURL('blocked.html') + `?url=...&tabId=...`] *)
| page (url : string).

Record Worker := {
  stats : Statistics;
  recentlyBlocked : list BlockedSite.t;
  analyzer : State;
  session : gmap string ThreatAnalysisResult;
  suspended : list Handler;
  (** the calls of [chrome.tabs.update], the latest last *)
  tabUpdates : list (Z * Page)
}.

Definition zeroStats (now : Z) : Statistics :=
  {| totalChecked := 0;
     totalBlocked := 0;
     blockedByLayer := λ _, 0;
     riskDistribution := λ _, 0;
     lastReset := now |}.

(** The worker when its script has run, at time [now]. *)
Definition loaded (now : Z) : Worker :=
  {| stats := zeroStats now;
     recentlyBlocked := [];
     analyzer := initial;
     session := ∅;
     suspended := [];
     tabUpdates := [] |}.

Definition with_stats (s : Worker) (st : Statistics) : Worker :=
  {| stats := st; recentlyBlocked := recentlyBlocked s; analyzer := analyzer s;
     session := session s; suspended := suspended s; tabUpdates := tabUpdates s |}.

Definition with_recentlyBlocked (s : Worker) (l : list BlockedSite.t) : Worker :=
  {| stats := stats s; recentlyBlocked := l; analyzer := analyzer s;
     session := session s; suspended := suspended s; tabUpdates := tabUpdates s |}.

Definition with_analyzer (s : Worker) (a : State) : Worker :=
  {| stats := stats s; recentlyBlocked := recentlyBlocked s; analyzer := a;
     session := session s; suspended := suspended s; tabUpdates := tabUpdates s |}.

Definition with_session (s : Worker) (m : gmap string ThreatAnalysisResult) : Worker :=
  {| stats := stats s; recentlyBlocked := recentlyBlocked s; analyzer := analyzer s;
     session := m; suspended := suspended s; tabUpdates := tabUpdates s |}.

Definition with_suspended (s : Worker) (hs : list Handler) : Worker :=
  {| stats := stats s; recentlyBlocked := recentlyBlocked s; analyzer := analyzer s;
     session := session s; suspended := hs; tabUpdates := tabUpdates s |}.

Definition with_tabUpdates (s : Worker) (us : list (Z * Page)) : Worker :=
  {| stats := stats s; recentlyBlocked := recentlyBlocked s; analyzer := analyzer s;
     session := session s; suspended := suspended s; tabUpdates := us |}.

(** [`analysis_${tabId}`] and [`blocked_${tabId}`] *)
Definition analysisKey (tab : Z) : string := "analysis_" +:+ pretty tab.
Definition blockedKey (tab : Z) : string := "blocked_" +:+ pretty tab.

(** The requests that the handler looks at: main and sub frames, no
    browser pages. *)
Definition intercepted (d : Details) : bool :=
  negb (negb (String.eqb (request_type d) "main_frame")
        && negb (String.eqb (request_type d) "sub_frame"))
  && negb (JS.startsWith (request_url d) "chrome://"
           || JS.startsWith (request_url d) "chrome-extension://"
           || JS.startsWith (request_url d) "edge://").

(** [stats.totalChecked++; stats.riskDistribution[result.riskLevel]++] *)
Definition checked (r : ThreatAnalysisResult) (st : Statistics) : Statistics :=
  {| totalChecked := totalChecked st + 1;
     totalBlocked := totalBlocked st;
     blockedByLayer := blockedByLayer st;
     riskDistribution := increment (riskLevel r) (riskDistribution st);
     lastReset := lastReset st |}.

(** [stats.totalBlocked++] and the loop over the matched layers; every
    [layer.layer] is a key of [blockedByLayer]. *)
Definition blocked (r : ThreatAnalysisResult) (st : Statistics) : Statistics :=
  {| totalChecked := totalChecked st;
     totalBlocked := totalBlocked st + 1;
     blockedByLayer :=
       fold_left (λ counters l, increment (layer l) counters)
         (filter (λ l, matched l = true) (detectionLayers r)) (blockedByLayer st);
     riskDistribution := riskDistribution st;
     lastReset := lastReset st |}.

(** [recentlyBlocked.unshift(site)], then [pop()] above the limit. *)
Definition remember (site : BlockedSite.t) (recent : list BlockedSite.t)
    : list BlockedSite.t :=
  let recent := site :: recent in
  if bool_decide (MAX_RECENT_BLOCKED < Z.of_nat (length recent))
  then removelast recent else recent.

Section Handlers.
Variable analyze : World → State → string → ThreatAnalysisResult * State.

(** The request handler up to its first [chrome.storage.session.set]. *)
Definition onBeforeRequest (w : World) (d : Details) (s : Worker) : Worker :=
  if negb (intercepted d) then s
  else
    let '(result, a) := analyze w (analyzer s) (request_url d) in
    let s := with_analyzer s a in
    (* Update statistics *)
    let s := with_stats s (checked result (stats s)) in
    (* Store analysis result for popup *)
    with_suspended s
      (suspended s ++ [{| request := d; analysis := result; awaits := storingAnalysis |}]).

(** The request handler from [if (result.isMalicious)] to its second
    [chrome.storage.session.set]. *)
Definition block (w : World) (h : Handler) (s : Worker) : Worker :=
  let result := analysis h in
  let s := with_stats s (blocked result (stats s)) in
  (* Add to recently blocked *)
  let s := with_recentlyBlocked s
             (remember {| BlockedSite.url := request_url (request h);
                          BlockedSite.timestamp := now w;
                          BlockedSite.riskLevel := riskLevel result;
                          BlockedSite.reason := result_details result |}
                (recentlyBlocked s)) in
  (* Store blocked info for the blocked page *)
  with_suspended s
    (suspended s ++ [{| request := request h; analysis := result; awaits := storingBlocked |}]).

(** The [i]-th suspended handler goes on: its storage call has settled,
    fulfilled ([ok]) or rejected, which [catch (error)] logs. *)
Definition settle (w : World) (i : nat) (ok : bool) (s : Worker) : Worker :=
  match suspended s !! i with
  | None => s
  | Some h =>
      let s := with_suspended s (delete i (suspended s)) in
      if negb ok then s
      else
        let tab := tabId (request h) in
        match awaits h with
        | storingAnalysis =>
            let s := with_session s (<[analysisKey tab := analysis h]> (session s)) in
            (* Block if malicious *)
            if isMalicious (analysis h) then block w h s else s
        | storingBlocked =>
            let s := with_session s (<[blockedKey tab := analysis h]> (session s)) in
            (* Navigate to blocked page; [encodeURIComponent(details.url)] may throw *)
            if JS.encodeURIComponent_throws (request_url (request h)) then s
            else
              with_tabUpdates s
                (tabUpdates s ++ [(tab, blockedPage (request_url (request h)))])
        end
  end.

(** [message] of [chrome.runtime.onMessage], by its [type]. *)
Inductive Message :=
| msg_analyzeURL (url : string)
| msg_getStats
| msg_resetStats
| msg_addToWhitelist (domain : string)
| msg_removeFromWhitelist (domain : string)
| msg_getWhitelist
| msg_proceedAnyway (tab : option Z) (url : string)
| msg_unknown.

(** The message handler; [ok]: the storage call of the case is fulfilled. *)
Definition onMessage (w : World) (message : Message) (ok : bool) (s : Worker) : Worker :=
  match message with
  | msg_analyzeURL u => with_analyzer s (analyze w (analyzer s) u).2
  | msg_getStats => s
  | msg_resetStats => with_stats s (zeroStats (now w))
  | msg_addToWhitelist domain => with_analyzer s (addToWhitelist domain (analyzer s))
  | msg_removeFromWhitelist domain => with_analyzer s (removeFromWhitelist domain (analyzer s))
  | msg_getWhitelist => s
  | msg_proceedAnyway tab u =>
      (* User chose to proceed to blocked site *)
      match tab with
      | Some t =>
          if t =? 0 then s                       (* [if (message.tabId)] *)
          else if negb ok then s
          else
            let s := with_session s (delete (blockedKey t) (session s)) in
            with_tabUpdates s (tabUpdates s ++ [(t, page u)])
      | None => s
      end
  | msg_unknown => s
  end.

(** [chrome.alarms.onAlarm] *)
Definition onAlarm (name : string) (s : Worker) : Worker :=
  if String.eqb name "clearCache" then with_analyzer s (clearCache (analyzer s))
  else s.

(** [chrome.tabs.onRemoved] *)
Definition onRemoved (tab : Z) (ok : bool) (s : Worker) : Worker :=
  if ok then with_session s (delete (blockedKey tab) (delete (analysisKey tab) (session s)))
  else s.

(** What happens to the worker, one handler step at a time. *)
Inductive Event :=
| BeforeRequest (w : World) (d : Details)
| Settles (w : World) (i : nat) (ok : bool)
| Receives (w : World) (message : Message) (ok : bool)
| Alarm (name : string)
| TabRemoved (tab : Z) (ok : bool).

Definition step (s : Worker) (e : Event) : Worker :=
  match e with
  | BeforeRequest w d => onBeforeRequest w d s
  | Settles w i ok => settle w i ok s
  | Receives w message ok => onMessage w message ok s
  | Alarm name => onAlarm name s
  | TabRemoved tab ok => onRemoved tab ok s
  end.

(** The worker after the events, loaded at time [t]. *)
Definition run (t : Z) (events : list Event) : Worker :=
  fold_left step events (loaded t).

End Handlers.

Definition sumLevels (counters : RiskLevel → Z) : Z :=
  counters safe + counters low + counters medium + counters high + counters critical.

Definition sumLayers (counters : Layer → Z) : Z :=
  counters signature + counters heuristic + counters ml + counters behavior.

(** The number of handlers that wait for their analysis to be stored. *)
Definition waiting (hs : list Handler) : Z :=
  Z.of_nat (length (filter (λ h, awaits h = storingAnalysis) hs)).

Definition isReset (e : Event) : bool :=
  match e with
  | Receives _ msg_resetStats _ => true
  | _ => false
  end.

End ServiceWorker.

(** A malicious verdict is severe and rests on a matched signal. *)
Definition grounded (r : ThreatAnalysisResult) : Prop :=
  isMalicious r = true →
  (riskLevel r = high ∨ riskLevel r = critical) ∧
  Exists (λ l, matched l = true) (detectionLayers r).

(** A site that was blocked at the level [high] or [critical]. *)
Definition severe (site : BlockedSite.t) : Prop :=
  BlockedSite.riskLevel site = high ∨ BlockedSite.riskLevel site = critical.

(* ===================================================================== *)
(** * The popup: API keys on display                                      *)
(* ===================================================================== *)

Module Popup.

(** ['*'.repeat(n)] *)
Fixpoint stars (n : nat) : string :=
  match n with
  | O => ""
  | S n' => String "*" (stars n')
  end.

(** Mask API key for display *)
Definition maskApiKey (key : string) : string :=
  if String.eqb key "" || (String.length key <? 8)%nat then key
  else
    (* Show first 4 and last 4 chars, mask the rest *)
    let visible := 4%nat in
    let start := JS.substring_0 visible key in
    let end_ := JS.drop_chars (String.length key - visible) key in
    let masked := stars (Nat.max 8 (String.length key - visible * 2)) in
    start +:+ masked +:+ end_.

(** What the display lets through: all of a display without a mask, the
    four characters on either side of the mask otherwise. *)
Definition shown (display : string) : string :=
  if (String.length display <? 8)%nat then display
  else JS.substring_0 4 display +:+ JS.drop_chars (String.length display - 4) display.

End Popup.

(** What it takes for a service to flag a URL, read off the outcomes that
    the claim names. Safe Browsing: a fresh cache entry says so, or there
    is none and the limiter admits the call, and then the local blacklist
    (without a key) or the answer of the service (with one) says so. *)
Definition cachedVerdict (w : World) (url : string) (st : SignatureEngine.State)
    : option bool :=
  match SignatureEngine.safeBrowsingCache st !! url with
  | Some (m, ts) =>
      if bool_decide (now w - ts < CONFIG.CACHE.SAFE_URL_TTL) then Some m else None
  | None => None
  end.

Definition admitted (w : World) (service : string) (limit : Z)
    (st : SignatureEngine.State) : Prop :=
  (SignatureEngine.checkRateLimit w service limit st).1 = true.

Definition safeBrowsingFlags `{Platform} (w : World) (url : string)
    (st : SignatureEngine.State) : Prop :=
  cachedVerdict w url st = Some true ∨
  (cachedVerdict w url st = None ∧
   admitted w "safe_browsing" CONFIG.RATE_LIMITS.SAFE_BROWSING_PER_MINUTE st ∧
   ((GOOGLE_SAFE_BROWSING (getApiKeys w) = CONFIG.YOUR_API_KEY_HERE ∧
     (∃ parsed, new_URL url = Ok parsed) ∧
     SignatureEngine.blacklisted url = true) ∨
    (GOOGLE_SAFE_BROWSING (getApiKeys w) ≠ CONFIG.YOUR_API_KEY_HERE ∧
     ∃ n, safeBrowsingFetch w = Body (Some (S n))))).

(** PhishTank: a key, a URL that can be encoded, and the answer that the
    URL is in the database and valid. *)
Definition phishTankFlags (w : World) (url : string) : Prop :=
  PHISHTANK (getApiKeys w) ≠ CONFIG.YOUR_API_KEY_HERE ∧
  JS.encodeURIComponent_throws url = false ∧
  phishTankFetch w = Body true.

(** VirusTotal: a key, a call that the limiter admits, a URL that can be
    encoded, and an answer that counts a detection. *)
Definition virusTotalFlags (w : World) (url : string) (st : SignatureEngine.State) : Prop :=
  VIRUSTOTAL (getApiKeys w) ≠ CONFIG.YOUR_API_KEY_HERE ∧
  admitted w "virustotal" CONFIG.RATE_LIMITS.VIRUSTOTAL_PER_DAY st ∧
  JS.btoa_throws url = false ∧
  ∃ m s, virusTotalFetch w = Body (Some (m, s)) ∧ (0 < m + s)%nat.

(** A world in which every service has a key: Safe Browsing finds two
    matches, PhishTank is down, the request to VirusTotal fails. *)
Definition failingWorld : World :=
  {| now := 1000;
     storage := Ok (Some "key-sb", Some "key-vt", Some "key-pt");
     safeBrowsingFetch := Body (Some 2%nat);
     phishTankFetch := HttpError 503;
     virusTotalFetch := Rejected (Some "Failed to fetch") |}.

(** A run that fills the cache: the addresses http://a.io/1, http://a.io/11,
    http://a.io/111 and so on, analysed one after the other. *)
Fixpoint ones (n : nat) : string :=
  match n with
  | O => "1"
  | S n' => String "1" (ones n')
  end.

Definition address (n : nat) : string := "http://a.io/" +:+ ones n.

Definition visit (st : State) (n : nat) : State :=
  (@ThreatAnalyzer.analyze PlainURL.platform quietWorld st (address n)).2.

(** The analyzer after the first [n] addresses. *)
Definition visited (n : nat) : State := fold_left visit (seq 0 n) initial.

(* ===================================================================== *)
(** * Properties                                                          *)
(* ===================================================================== *)

(** C6. [getRiskLevel] is monotonically non-decreasing in the score, and
    the boundary scores fall in the buckets 24: safe, 25 and 39: low,
    40 and 59: medium, 60 and 84: high, 85: critical. *)
Theorem getRiskLevel_monotone_boundaries :
  (∀ s1 s2 : Z, s1 ≤ s2 → level_le (getRiskLevel s1) (getRiskLevel s2)) ∧
  getRiskLevel 24 = safe ∧ getRiskLevel 25 = low ∧
  getRiskLevel 39 = low ∧ getRiskLevel 40 = medium ∧
  getRiskLevel 59 = medium ∧ getRiskLevel 60 = high ∧
  getRiskLevel 84 = high ∧ getRiskLevel 85 = critical.
Proof.
  split; [|repeat split; reflexivity].
  intros s1 s2 Hle. unfold level_le, getRiskLevel.
  unfold CONFIG.RISK_THRESHOLDS.CRITICAL, CONFIG.RISK_THRESHOLDS.HIGH,
    CONFIG.RISK_THRESHOLDS.MEDIUM, CONFIG.RISK_THRESHOLDS.LOW.
  repeat case_bool_decide; simpl; lia.
Qed.

(** The two sides of the first boundary. *)
Lemma getRiskLevel_monotone_boundaries_witness :
  level_le (getRiskLevel 24) (getRiskLevel 25).
Proof.
  apply (proj1 getRiskLevel_monotone_boundaries 24 25). lia.
Defined.

(* --------------------------------------------------------------------- *)
(** ** Normalisation                                                      *)
(* --------------------------------------------------------------------- *)

(** C4. Normalisation is not idempotent: [normalizeURL] removes one
    trailing slash only, so that an address ending in two slashes is
    normalised to one that ends in a slash, which a second normalisation
    removes. *)
Theorem normalizeURL_not_idempotent :
  @normalizeURL PlainURL.platform "http://example.com//" = "http://example.com/" ∧
  @normalizeURL PlainURL.platform
    (@normalizeURL PlainURL.platform "http://example.com//") = "http://example.com" ∧
  @normalizeURL PlainURL.platform (@normalizeURL PlainURL.platform "http://example.com//")
  ≠ @normalizeURL PlainURL.platform "http://example.com//".
Proof.
  split; [vm_compute; reflexivity|].
  split; [vm_compute; reflexivity|].
  intros Heq. vm_compute in Heq. discriminate Heq.
Qed.

Lemma lower_char_idempotent c : JS.lower_char (JS.lower_char c) = JS.lower_char c.
Proof. destruct c as [[] [] [] [] [] [] [] []]; reflexivity. Qed.

Lemma toLowerCase_idempotent s : JS.toLowerCase (JS.toLowerCase s) = JS.toLowerCase s.
Proof.
  induction s as [|c s IH]; simpl; [reflexivity|].
  rewrite lower_char_idempotent, IH. reflexivity.
Qed.

(** The branch for strings that do not parse is idempotent; the defect is
    in the branch that strips the slash. *)
Lemma normalizeURL_malformed_idempotent `{Platform} url e e' :
  new_URL url = Throw e →
  new_URL (JS.toLowerCase url) = Throw e' →
  normalizeURL (normalizeURL url) = normalizeURL url.
Proof.
  intros H1 H2. unfold normalizeURL. rewrite H1, H2.
  apply toLowerCase_idempotent.
Qed.

(* --------------------------------------------------------------------- *)
(** ** The gateway                                                        *)
(* --------------------------------------------------------------------- *)

Lemma layersOf_signal r i :
  ∃ l, SignatureEngine.layersOf r i = [l] ∧ signal_of r l.
Proof.
  destruct r as [v|reason]; simpl.
  - destruct (success v) eqn:Hs, (malicious v) eqn:Hm; simpl;
      eexists; (split; [reflexivity|]); unfold signal_of; simpl;
      rewrite ?Hs, ?Hm; auto.
  - eexists; split; [reflexivity|]. unfold signal_of; simpl; auto.
Qed.

Lemma forEach_layers_signals rs i :
  Forall2 signal_of rs (SignatureEngine.forEach_layers rs i).
Proof.
  revert i. induction rs as [|r rs IH]; intros i; simpl; [constructor|].
  destruct (layersOf_signal r i) as (l & -> & Hl). simpl.
  constructor; auto.
Qed.

Section Gateway.
Context `{Platform}.

Lemma settleAll_three w url st :
  length (SignatureEngine.settleAll w url st).1 = 3%nat.
Proof.
  unfold SignatureEngine.settleAll.
  destruct (SignatureEngine.checkSafeBrowsing w url st) as [sb st1].
  destruct (SignatureEngine.checkVirusTotal w url st1) as [vt st2].
  reflexivity.
Qed.

Lemma checkAllAPIs_signals w url st :
  Forall2 signal_of (SignatureEngine.settleAll w url st).1
                    (SignatureEngine.checkAllAPIs w url st).1.
Proof.
  unfold SignatureEngine.checkAllAPIs.
  destruct (SignatureEngine.settleAll w url st) as [rs st']. simpl.
  apply forEach_layers_signals.
Qed.

(** The outcomes of one check, here for Safe Browsing: a fresh cache entry
    answers without a request and without a token of the rate limiter. *)
Lemma checkSafeBrowsing_cache_hit w url st m ts :
  SignatureEngine.safeBrowsingCache st !! url = Some (m, ts) →
  now w - ts < CONFIG.CACHE.SAFE_URL_TTL →
  SignatureEngine.checkSafeBrowsing w url st
  = (SignatureEngine.answer "Google Safe Browsing (cached)" m None, st).
Proof.
  intros Hc Hfresh. unfold SignatureEngine.checkSafeBrowsing.
  rewrite Hc, bool_decide_eq_true_2 by exact Hfresh. reflexivity.
Qed.

(** An exhausted rate limiter answers with a failure, without a request. *)
Lemma checkSafeBrowsing_rate_limited w url st count resetTime :
  SignatureEngine.safeBrowsingCache st !! url = None →
  SignatureEngine.rateLimitCounters st !! "safe_browsing" = Some (count, resetTime) →
  now w ≤ resetTime →
  CONFIG.RATE_LIMITS.SAFE_BROWSING_PER_MINUTE ≤ count →
  SignatureEngine.checkSafeBrowsing w url st
  = (SignatureEngine.failure "Google Safe Browsing" "Rate limit exceeded", st).
Proof.
  intros Hc Hr Hnow Hcount.
  unfold SignatureEngine.checkSafeBrowsing, SignatureEngine.checkRateLimit.
  rewrite Hc, Hr, bool_decide_eq_false_2, bool_decide_eq_true_2 by lia.
  reflexivity.
Qed.

Lemma or_else_some key d : key ≠ "" → JS.or_else (Some key) d = key.
Proof. destruct key; [contradiction|reflexivity]. Qed.

(** A request that fails answers with a failure. *)
Lemma checkVirusTotal_request_fails w url st key status :
  storage w = Ok (None, Some key, None) →
  key ≠ "" → key ≠ CONFIG.YOUR_API_KEY_HERE →
  SignatureEngine.rateLimitCounters st !! "virustotal" = None →
  JS.btoa_throws url = false →
  virusTotalFetch w = HttpError status →
  (SignatureEngine.checkVirusTotal w url st).1
  = SignatureEngine.failure "VirusTotal" ("VirusTotal API error: " +:+ pretty status).
Proof.
  intros Hs Hk1 Hk2 Hr Hb Hf.
  unfold SignatureEngine.checkVirusTotal, SignatureEngine.checkRateLimit, getApiKeys.
  rewrite Hs, Hr, Hb, Hf. cbn [VIRUSTOTAL].
  rewrite (or_else_some key _ Hk1), (proj2 (String.eqb_neq _ _) Hk2).
  reflexivity.
Qed.

End Gateway.

(* --------------------------------------------------------------------- *)
(** ** The signals that the layers produce                                *)
(* --------------------------------------------------------------------- *)

Lemma signal_of_ok r l : signal_of r l → layer_ok l.
Proof.
  intros (_ & _ & Hs). split.
  - rewrite Hs. destruct (matched l); lia.
  - intros [_ Hm]. rewrite Hs, Hm. reflexivity.
Qed.

Lemma not_signature_ok l : layer l ≠ signature → 0 ≤ score l → layer_ok l.
Proof. intros Hl Hs. split; [exact Hs|]. intros [Hl' _]. contradiction. Qed.

Lemma Forall_rule (P : DetectionLayer → Prop) cond name s d :
  (cond = true →
   P {| layer := heuristic; method := name; score := s; details := d; matched := true |}) →
  Forall P (@HeuristicEngine.rule cond name s d).
Proof.
  intros HP. unfold HeuristicEngine.rule. destruct cond; [|constructor].
  constructor; [auto|constructor].
Qed.

Lemma keywordCount_nonneg kws s : 0 ≤ HeuristicEngine.keywordCount kws s.
Proof. unfold HeuristicEngine.keywordCount, HeuristicEngine.size. lia. Qed.

Ltac heuristic_rule :=
  first [ apply Forall_rule; intros Hcond
        | apply Forall_cons; split; [|apply Forall_nil] ];
  unfold heuristic_signal; simpl;
  repeat split; try reflexivity;
  try match goal with
      | Hc : bool_decide _ = true |- _ => apply bool_decide_eq_true_1 in Hc
      | Hc : _ && bool_decide _ = true |- _ =>
          apply andb_true_iff in Hc as [_ Hc]; apply bool_decide_eq_true_1 in Hc
      end;
  cbv [CONFIG.HEURISTIC_WEIGHTS.IP_URL CONFIG.HEURISTIC_WEIGHTS.SUSPICIOUS_TLD
       CONFIG.HEURISTIC_WEIGHTS.PUNYCODE CONFIG.HEURISTIC_WEIGHTS.LONG_URL
       CONFIG.HEURISTIC_WEIGHTS.EXCESSIVE_SUBDOMAIN CONFIG.HEURISTIC_WEIGHTS.URL_ENCODING
       CONFIG.HEURISTIC_WEIGHTS.SUSPICIOUS_KEYWORDS CONFIG.HEURISTIC_WEIGHTS.NO_HTTPS];
  try lia.

Section Layers.
Context `{Platform}.

Lemma domainRules_signals parts :
  Forall heuristic_signal (HeuristicEngine.domainRules parts).
Proof.
  unfold HeuristicEngine.domainRules. apply Forall_app. split.
  - case_bool_decide; [|constructor]. heuristic_rule.
  - case_bool_decide; [|constructor]. heuristic_rule.
Qed.

Lemma HeuristicEngine_analyze_signals url ls :
  HeuristicEngine.analyze url = Ok ls → Forall heuristic_signal ls.
Proof.
  unfold HeuristicEngine.analyze, exc_bind.
  destruct (new_URL url) as [urlObj|e]; [|discriminate].
  intros [= <-]. cbv zeta.
  repeat (apply Forall_app; split);
    try (heuristic_rule; fail);
    try apply domainRules_signals;
    repeat match goal with
      | |- Forall _ (if ?c then _ else _) => destruct c
      | |- Forall _ (match ?c with Some _ => _ | None => _ end) => destruct c
      | |- Forall _ [] => constructor
      end;
    try (heuristic_rule; fail).
Qed.

(** With a URL that parses, the heuristic engine returns. *)
Lemma HeuristicEngine_analyze_returns url urlObj :
  new_URL url = Ok urlObj → ∃ ls, HeuristicEngine.analyze url = Ok ls.
Proof.
  intros Hp. unfold HeuristicEngine.analyze, exc_bind. rewrite Hp. eauto.
Qed.

Lemma MLEngine_predict_range f :
  0 ≤ (MLEngine.predict f).1 ≤ 100 ∧ 10 ≤ (MLEngine.predict f).2 ≤ 100.
Proof. unfold MLEngine.predict. simpl. lia. Qed.

Lemma MLEngine_analyze_signal url :
  layer (MLEngine.analyze url) = ml ∧ 0 ≤ score (MLEngine.analyze url) ≤ 100.
Proof.
  unfold MLEngine.analyze.
  pose proof (MLEngine_predict_range (MLEngine.extractMLFeatures url)) as Hr.
  destruct (MLEngine.predict _) as [sc conf]. simpl in *. split; [reflexivity|lia].
Qed.

Lemma signature_layers_ok w url st :
  Forall layer_ok (SignatureEngine.checkAllAPIs w url st).1.
Proof.
  eapply Forall2_Forall_r; [apply checkAllAPIs_signals|].
  apply Forall_forall. intros r _ l Hl. eapply signal_of_ok, Hl.
Qed.

Lemma heuristic_layers_ok url ls :
  HeuristicEngine.analyze url = Ok ls → Forall layer_ok ls.
Proof.
  intros Hls. eapply Forall_impl; [eapply HeuristicEngine_analyze_signals, Hls|].
  intros l (Hl & _ & Hs). apply not_signature_ok; [rewrite Hl; discriminate|lia].
Qed.

Lemma ml_layer_ok url : layer_ok (MLEngine.analyze url).
Proof.
  destruct (MLEngine_analyze_signal url) as [Hl Hs].
  apply not_signature_ok; [rewrite Hl; discriminate|lia].
Qed.

End Layers.

(* --------------------------------------------------------------------- *)
(** ** [buildResult]                                                      *)
(* --------------------------------------------------------------------- *)

Lemma getRiskLevel_100 : getRiskLevel 100 = critical.
Proof. reflexivity. Qed.

Lemma scoreLoop_signature ls t :
  Exists signatureMatched ls → ThreatAnalyzer.scoreLoop ls t = (100, true).
Proof.
  intros Hex. revert t. induction Hex as [l ls [Hl Hm]|l ls _ IH]; intros t; simpl.
  - rewrite Hm, bool_decide_eq_true_2 by exact Hl. reflexivity.
  - destruct (bool_decide (layer l = signature) && matched l); [reflexivity|apply IH].
Qed.

Lemma scoreLoop_nonneg ls t :
  Forall layer_ok ls → 0 ≤ t → 0 ≤ (ThreatAnalyzer.scoreLoop ls t).1.
Proof.
  intros Hok. revert t. induction Hok as [|l ls [Hl _] _ IH]; intros t Ht; simpl; [lia|].
  destruct (bool_decide (layer l = signature) && matched l); simpl; [lia|].
  apply IH. destruct (matched l); lia.
Qed.

(** With the analyzer that returns on a signature match, a matched
    Signature signal decides the verdict whatever the other signals are. *)
Lemma buildResult_priority w u ls : priority (ThreatAnalyzer.buildResult w u ls).
Proof.
  unfold priority, ThreatAnalyzer.buildResult. intros Hex.
  destruct (ThreatAnalyzer.scoreLoop ls 0) as [t b] eqn:Hloop. simpl in Hex.
  rewrite (scoreLoop_signature ls 0 Hex) in Hloop. injection Hloop as <- <-.
  simpl. auto.
Qed.

Lemma buildResult_in_range w u ls :
  Forall layer_ok ls → in_range (ThreatAnalyzer.buildResult w u ls).
Proof.
  intros Hok. unfold in_range, ThreatAnalyzer.buildResult.
  pose proof (scoreLoop_nonneg ls 0 Hok ltac:(lia)) as Hnn.
  destruct (ThreatAnalyzer.scoreLoop ls 0) as [t b]. simpl in *.
  destruct b; lia.
Qed.

Lemma buildResult_built w u ls : built (ThreatAnalyzer.buildResult w u ls).
Proof.
  unfold built, details_head, ThreatAnalyzer.buildResult.
  destruct (ThreatAnalyzer.scoreLoop ls 0) as [t b]. simpl.
  case_bool_decide; simpl; auto.
Qed.

Lemma matchedSum_ge ls t : Forall layer_ok ls → t ≤ matchedSum ls t.
Proof.
  intros Hok. revert t. induction Hok as [|l ls [Hl _] _ IH]; intros t; simpl; [lia|].
  etrans; [|apply IH]. destruct (matched l); lia.
Qed.

Lemma matchedSum_signature ls t :
  Forall layer_ok ls → Exists signatureMatched ls → t + 100 ≤ matchedSum ls t.
Proof.
  intros Hok Hex. revert t.
  induction Hex as [l ls Hsig|l ls _ IH]; intros t;
    apply Forall_cons in Hok as [[Hl Hs] Hok]; simpl.
  - etrans; [|apply matchedSum_ge, Hok].
    destruct Hsig as [Hlay Hm]. rewrite Hm, (Hs (conj Hlay Hm)). lia.
  - etrans; [|apply IH, Hok]. destruct (matched l); lia.
Qed.

Lemma priority_buildResult_priority w u ls :
  Forall layer_ok ls → priority (ThreatAnalyzerPriority.buildResult w u ls).
Proof.
  intros Hok. unfold priority, ThreatAnalyzerPriority.buildResult.
  destruct (existsb matched _); simpl; [auto|].
  intros Hex. pose proof (matchedSum_signature ls 0 Hok Hex) as Hge.
  unfold matchedSum in Hge. rewrite Z.min_l by lia. auto.
Qed.

Lemma priority_buildResult_in_range w u ls :
  Forall layer_ok ls → in_range (ThreatAnalyzerPriority.buildResult w u ls).
Proof.
  intros Hok. unfold in_range, ThreatAnalyzerPriority.buildResult.
  destruct (existsb matched _); simpl; [lia|].
  pose proof (matchedSum_ge ls 0 Hok) as Hge. unfold matchedSum in Hge. lia.
Qed.

Lemma priority_buildResult_built w u ls :
  built (ThreatAnalyzerPriority.buildResult w u ls).
Proof.
  unfold built, details_head, ThreatAnalyzerPriority.buildResult.
  destruct (existsb matched _); simpl; [auto|].
  case_bool_decide; simpl; auto.
Qed.

(* --------------------------------------------------------------------- *)
(** ** The cache                                                          *)
(* --------------------------------------------------------------------- *)

Lemma JSMap_get_elem {V} (m : list (string * V)) k v :
  JSMap.get m k = Some v → (k, v) ∈ m.
Proof.
  induction m as [|[k' v'] m IH]; simpl; [discriminate|].
  destruct (String.eqb_spec k' k) as [->|_].
  - intros [= ->]. left.
  - intros Hg. right. auto.
Qed.

Lemma JSMap_set_elem {V} (m : list (string * V)) k v k' v' :
  (k', v') ∈ JSMap.set m k v → (k', v') ∈ m ∨ v' = v.
Proof.
  induction m as [|[k0 v0] m IH]; simpl.
  - intros [= _ ->]%list_elem_of_singleton. auto.
  - destruct (String.eqb k0 k).
    + intros [[= _ ->]|Hin]%elem_of_cons; [auto|]. left. right. exact Hin.
    + intros [->|Hin]%elem_of_cons; [left; left|].
      destruct (IH Hin); [left; right|]; auto.
Qed.

Lemma JSMap_delete_elem {V} (m : list (string * V)) k x :
  x ∈ JSMap.delete m k → x ∈ m.
Proof. unfold JSMap.delete. intros [_ ?]%list_elem_of_filter. assumption. Qed.

Lemma evict_elem (toRemove c : list (string * CacheEntry)) x :
  x ∈ fold_left (λ c e, JSMap.delete c e.1) toRemove c → x ∈ c.
Proof.
  revert c. induction toRemove as [|e es IH]; intros c; simpl; [auto|].
  intros Hin. eapply JSMap_delete_elem, IH, Hin.
Qed.

(** [cacheResult] leaves old entries or removes them, and adds the new
    result. *)
Lemma cacheResult_elem w u r c k e :
  (k, e) ∈ cacheResult w u r c → (k, e) ∈ c ∨ result e = r.
Proof.
  unfold cacheResult. intros [Hin| ->]%JSMap_set_elem; [left|right; reflexivity].
  case_bool_decide; [eapply evict_elem, Hin|exact Hin].
Qed.

Lemma cachedResult_elem w st n r :
  cachedResult w st n = Some r → ∃ e, (n, e) ∈ cache st ∧ r = result e.
Proof.
  unfold cachedResult. destruct (JSMap.get (cache st) n) as [e|] eqn:Hg; [|discriminate].
  case_bool_decide; [|discriminate]. intros [= <-].
  exists e. split; [apply JSMap_get_elem, Hg|reflexivity].
Qed.

Lemma cache_sound_cached w st n r :
  cache_sound st → cachedResult w st n = Some r → in_range r ∧ priority r ∧ built r.
Proof. intros Hinv (e & Hin & ->)%cachedResult_elem. eapply Hinv, Hin. Qed.

Lemma cache_sound_cacheResult w st a n r :
  cache_sound st → in_range r → priority r → built r →
  cache_sound (with_cache (with_apis st a) (cacheResult w n r (cache st))).
Proof.
  intros Hinv Hr Hp Hb k e [Hin| ->]%cacheResult_elem; [eapply Hinv, Hin|auto].
Qed.

(* --------------------------------------------------------------------- *)
(** ** The ways through [analyze]                                         *)
(* --------------------------------------------------------------------- *)

Section Analyzer.
Context `{Platform}.

Lemma collected_ok w n st ls :
  HeuristicEngine.analyze n = Ok ls →
  Forall layer_ok ((SignatureEngine.checkAllAPIs w n st).1 ++ ls ++ [MLEngine.analyze n]).
Proof.
  intros Hls. apply Forall_app. split; [apply signature_layers_ok|].
  apply Forall_app. split; [eapply heuristic_layers_ok, Hls|].
  apply Forall_singleton, ml_layer_ok.
Qed.

Lemma analyze_outcome w st url :
  outcome ThreatAnalyzer.buildResult w st url (ThreatAnalyzer.analyze w st url).
Proof.
  unfold ThreatAnalyzer.analyze, ThreatAnalyzer.analyze_try.
  destruct (new_URL (normalizeURL url)) as [parsed|e] eqn:Hparse;
    [|apply outcome_error, Hparse].
  case_bool_decide as Hwl; [eapply outcome_whitelisted; eassumption|].
  destruct (cachedResult w st (normalizeURL url)) as [r|] eqn:Hc;
    [eapply outcome_cached; eassumption|].
  pose proof (signature_layers_ok w (normalizeURL url) (apis st)) as Hsig.
  pose proof (outcome_fresh ThreatAnalyzer.buildResult w st url parsed) as Hfresh.
  cbv zeta in Hfresh.
  destruct (SignatureEngine.checkAllAPIs w (normalizeURL url) (apis st)) as [sigs a] eqn:Hs.
  simpl in Hsig, Hfresh.
  destruct (bool_decide (0 < length sigs)%nat && existsb matched sigs); simpl.
  - apply Hfresh; assumption.
  - destruct (HeuristicEngine_analyze_returns _ _ Hparse) as [hs Hhs].
    rewrite Hhs. simpl. apply Hfresh; try assumption.
    pose proof (collected_ok w (normalizeURL url) (apis st) hs Hhs) as Hok.
    rewrite Hs in Hok. exact Hok.
Qed.

(** The revised analyzer assesses the signals of all three layers, in the
    order Signature, Heuristic, ML. *)
Lemma priority_analyze_fresh w st url parsed :
  new_URL (normalizeURL url) = Ok parsed →
  URLObj.hostname parsed ∉ whitelist st →
  cachedResult w st (normalizeURL url) = None →
  let n := normalizeURL url in
  ∃ hs, HeuristicEngine.analyze n = Ok hs ∧
    let ls := (SignatureEngine.checkAllAPIs w n (apis st)).1 ++ hs ++ [MLEngine.analyze n] in
    let a := (SignatureEngine.checkAllAPIs w n (apis st)).2 in
    let r := ThreatAnalyzerPriority.buildResult w n ls in
    ThreatAnalyzerPriority.analyze w st url
    = (r, with_cache (with_apis st a) (cacheResult w n r (cache st))).
Proof.
  intros Hparse Hwl Hc n.
  destruct (HeuristicEngine_analyze_returns _ _ Hparse) as [hs Hhs].
  exists hs. split; [exact Hhs|]. subst n.
  unfold ThreatAnalyzerPriority.analyze, ThreatAnalyzerPriority.analyze_try.
  cbv zeta. rewrite Hparse, bool_decide_eq_false_2, Hc by exact Hwl.
  destruct (SignatureEngine.checkAllAPIs w (normalizeURL url) (apis st)) as [sigs a].
  rewrite Hhs. reflexivity.
Qed.

Lemma priority_analyze_outcome w st url :
  outcome ThreatAnalyzerPriority.buildResult w st url
    (ThreatAnalyzerPriority.analyze w st url).
Proof.
  destruct (new_URL (normalizeURL url)) as [parsed|e] eqn:Hparse.
  - destruct (decide (URLObj.hostname parsed ∈ whitelist st)) as [Hwl|Hwl].
    + unfold ThreatAnalyzerPriority.analyze, ThreatAnalyzerPriority.analyze_try.
      cbv zeta. rewrite Hparse, bool_decide_eq_true_2 by exact Hwl.
      eapply outcome_whitelisted; eassumption.
    + destruct (cachedResult w st (normalizeURL url)) as [r|] eqn:Hc.
      * unfold ThreatAnalyzerPriority.analyze, ThreatAnalyzerPriority.analyze_try.
        cbv zeta. rewrite Hparse, bool_decide_eq_false_2, Hc by exact Hwl.
        eapply outcome_cached; eassumption.
      * destruct (priority_analyze_fresh w st url parsed Hparse Hwl Hc) as (hs & Hhs & ->).
        eapply outcome_fresh; try eassumption.
        apply collected_ok, Hhs.
  - unfold ThreatAnalyzerPriority.analyze, ThreatAnalyzerPriority.analyze_try.
    cbv zeta. rewrite Hparse. apply outcome_error, Hparse.
Qed.

Lemma buildResult_sound : sound_build ThreatAnalyzer.buildResult.
Proof.
  intros w u ls Hok.
  auto using buildResult_in_range, buildResult_priority, buildResult_built.
Qed.

Lemma priority_buildResult_sound : sound_build ThreatAnalyzerPriority.buildResult.
Proof.
  intros w u ls Hok.
  auto using priority_buildResult_in_range, priority_buildResult_priority,
    priority_buildResult_built.
Qed.

Lemma whitelistedResult_sound w n :
  in_range (whitelistedResult w n) ∧ priority (whitelistedResult w n).
Proof.
  split; [unfold in_range; simpl; lia|].
  intros [l [->%list_elem_of_singleton [_ Hm]]]%Exists_exists. discriminate Hm.
Qed.

Lemma errorResult_sound w u e :
  in_range (errorResult w u e) ∧ priority (errorResult w u e).
Proof.
  split; [unfold in_range; simpl; lia|].
  intros [l [->%list_elem_of_singleton [_ Hm]]]%Exists_exists. discriminate Hm.
Qed.

(** Every way through [analyze] gives a sound verdict and keeps the cache
    sound. *)
Lemma outcome_sound build w st url run :
  sound_build build → cache_sound st → outcome build w st url run →
  in_range run.1 ∧ priority run.1 ∧ cache_sound run.2.
Proof.
  intros Hbuild Hinv Hrun.
  destruct Hrun as [e _|parsed _ _|parsed r _ _ Hc|parsed ls _ _ _ Hok]; simpl.
  - destruct (errorResult_sound w url e). auto.
  - destruct (whitelistedResult_sound w (normalizeURL url)). auto.
  - destruct (cache_sound_cached _ _ _ _ Hinv Hc) as (? & ? & ?). auto.
  - destruct (Hbuild w (normalizeURL url) ls Hok) as (? & ? & ?).
    auto using cache_sound_cacheResult.
Qed.

Lemma reachable_sound analyze build st :
  sound_build build →
  (∀ w st url, outcome build w st url (analyze w st url)) →
  reachable analyze st → cache_sound st.
Proof.
  intros Hbuild Hout Hreach.
  induction Hreach as [|w st url _ IH|d st _ IH|d st _ IH|st _ IH].
  - intros k e Hin. inversion Hin.
  - eapply outcome_sound; [exact Hbuild|exact IH|apply Hout].
  - exact IH.
  - exact IH.
  - intros k e Hin. inversion Hin.
Qed.

(** Where a result was made can be read from it. *)
Lemma built_not_handlers r :
  built r →
  result_details r ≠ "Whitelisted domain" ∧ result_details r ≠ "Error during analysis".
Proof.
  unfold built, details_head. intros Hb.
  split; intros Heq; rewrite Heq in Hb; destruct Hb as [Hb|[Hb|Hb]]; discriminate Hb.
Qed.

Lemma outcome_whitelisted_iff build w st url run :
  sound_build build → cache_sound st → outcome build w st url run →
  (result_details run.1 = "Whitelisted domain" ↔
   ∃ parsed, new_URL (normalizeURL url) = Ok parsed ∧ URLObj.hostname parsed ∈ whitelist st).
Proof.
  intros Hbuild Hinv Hrun.
  destruct Hrun as [e He|parsed Hp Hwl|parsed r Hp Hwl Hc|parsed ls Hp Hwl _ Hok]; simpl.
  - split; [discriminate|]. intros (p & Hp & _). congruence.
  - split; [eauto|reflexivity].
  - destruct (cache_sound_cached _ _ _ _ Hinv Hc) as (_ & _ & Hb).
    apply built_not_handlers in Hb as [Hb _].
    split; [contradiction|]. intros (p & Hp' & Hin).
    rewrite Hp in Hp'. injection Hp' as <-. contradiction.
  - destruct (Hbuild w (normalizeURL url) ls Hok) as (_ & _ & Hb).
    apply built_not_handlers in Hb as [Hb _].
    split; [contradiction|]. intros (p & Hp' & Hin).
    rewrite Hp in Hp'. injection Hp' as <-. contradiction.
Qed.

Lemma outcome_handlers_keep_state build w st url run :
  sound_build build → cache_sound st → outcome build w st url run →
  result_details run.1 = "Whitelisted domain"
  ∨ result_details run.1 = "Error during analysis" →
  run.2 = st.
Proof.
  intros Hbuild Hinv Hrun Hd.
  destruct Hrun as [e He|parsed Hp Hwl|parsed r Hp Hwl Hc|parsed ls Hp Hwl _ Hok]; simpl;
    try reflexivity.
  destruct (Hbuild w (normalizeURL url) ls Hok) as (_ & _ & Hb).
  apply built_not_handlers in Hb as [Hb1 Hb2]. simpl in Hd.
  destruct Hd; contradiction.
Qed.

End Analyzer.

(* --------------------------------------------------------------------- *)
(** ** Verdicts                                                           *)
(* --------------------------------------------------------------------- *)

Section Verdicts.
Context `{Platform}.

Lemma reachable_cache_sound st :
  reachable ThreatAnalyzer.analyze st → cache_sound st.
Proof.
  apply (reachable_sound _ ThreatAnalyzer.buildResult);
    [apply buildResult_sound|apply analyze_outcome].
Qed.

Lemma priority_reachable_cache_sound st :
  reachable ThreatAnalyzerPriority.analyze st → cache_sound st.
Proof.
  apply (reachable_sound _ ThreatAnalyzerPriority.buildResult);
    [apply priority_buildResult_sound|apply priority_analyze_outcome].
Qed.

(** C5. Score range. In every state that the analyzer can be in, every
    result of [analyze] (fresh, cached, whitelisted or from the error
    handler) has a [riskScore] between 0 and 100; this holds for both
    revisions of the analyzer. *)
Theorem riskScore_in_range (w : World) (st : State) (url : string) :
  (reachable ThreatAnalyzer.analyze st →
   0 ≤ riskScore (ThreatAnalyzer.analyze w st url).1 ≤ 100) ∧
  (reachable ThreatAnalyzerPriority.analyze st →
   0 ≤ riskScore (ThreatAnalyzerPriority.analyze w st url).1 ≤ 100).
Proof.
  split; intros Hreach.
  - eapply outcome_sound;
      [apply buildResult_sound|apply reachable_cache_sound, Hreach|apply analyze_outcome].
  - eapply outcome_sound;
      [apply priority_buildResult_sound|apply priority_reachable_cache_sound, Hreach
      |apply priority_analyze_outcome].
Qed.

(** C3. Whitelist override. When the host of the normalised URL is in the
    whitelist, [analyze] returns the verdict [riskScore = 0],
    [riskLevel = safe], [isMalicious = false] with exactly one signal, which
    is not matched; the result does not depend on the services, and the
    state (the cache, and the request cache and rate limiters of the
    gateway) is left as it was: no layer has run. Both revisions. *)
Theorem whitelisted_host_is_safe (w : World) (st : State) (url : string) (parsed : URL) :
  new_URL (normalizeURL url) = Ok parsed →
  URLObj.hostname parsed ∈ whitelist st →
  ThreatAnalyzer.analyze w st url = (whitelistedResult w (normalizeURL url), st) ∧
  ThreatAnalyzerPriority.analyze w st url = (whitelistedResult w (normalizeURL url), st) ∧
  let r := (ThreatAnalyzer.analyze w st url).1 in
  riskScore r = 0 ∧ riskLevel r = safe ∧ isMalicious r = false ∧
  ∃ l, detectionLayers r = [l] ∧ matched l = false.
Proof.
  intros Hparse Hwl.
  assert (ThreatAnalyzer.analyze w st url = (whitelistedResult w (normalizeURL url), st)) as Ha.
  { unfold ThreatAnalyzer.analyze, ThreatAnalyzer.analyze_try. cbv zeta.
    rewrite Hparse, bool_decide_eq_true_2 by exact Hwl. reflexivity. }
  split; [exact Ha|]. split.
  - unfold ThreatAnalyzerPriority.analyze, ThreatAnalyzerPriority.analyze_try. cbv zeta.
    rewrite Hparse, bool_decide_eq_true_2 by exact Hwl. reflexivity.
  - rewrite Ha. simpl. repeat split. eexists. split; reflexivity.
Qed.

(** C9. The whitelist is matched exactly and without regard to case:
    [addToWhitelist] and [removeFromWhitelist] act on the lower-cased
    domain; in every state that the analyzer can be in, [analyze] returns
    the whitelist verdict exactly when the host of the normalised URL is an
    element of the whitelist; and adding a domain whitelists no host other
    than its lower-cased form, so that adding "example.com" leaves
    "www.example.com" out. *)
Theorem whitelist_is_exact_and_lowercase :
  (∀ domain st,
     whitelist (addToWhitelist domain st) = {[ JS.toLowerCase domain ]} ∪ whitelist st ∧
     whitelist (removeFromWhitelist domain st) = whitelist st ∖ {[ JS.toLowerCase domain ]}) ∧
  (∀ w st url,
     reachable ThreatAnalyzer.analyze st →
     (result_details (ThreatAnalyzer.analyze w st url).1 = "Whitelisted domain" ↔
      ∃ parsed, new_URL (normalizeURL url) = Ok parsed ∧
                URLObj.hostname parsed ∈ whitelist st)) ∧
  (∀ domain st h,
     h ∈ whitelist (addToWhitelist domain st) ↔
     h = JS.toLowerCase domain ∨ h ∈ whitelist st) ∧
  ("www.example.com" ∉ whitelist (addToWhitelist "example.com" initial)) ∧
  ("example.com" ∈ whitelist (addToWhitelist "Example.COM" initial)).
Proof.
  split; [intros; split; reflexivity|].
  split.
  { intros w st url Hreach.
    eapply outcome_whitelisted_iff;
      [apply buildResult_sound|apply reachable_cache_sound, Hreach|apply analyze_outcome]. }
  split.
  { intros domain st h. unfold addToWhitelist. simpl. set_solver. }
  split.
  - unfold addToWhitelist, initial. simpl.
    intros [Heq%elem_of_singleton|Hin%elem_of_empty]%elem_of_union; [|exact Hin].
    vm_compute in Heq. discriminate Heq.
  - unfold addToWhitelist, initial. simpl. apply elem_of_union_l, elem_of_singleton.
    vm_compute. reflexivity.
Qed.

(** C10. The verdicts of the error handler and of the whitelist branch are
    not cached: in every state that the analyzer can be in, when [analyze]
    returns the "Error during analysis" verdict or the "Whitelisted domain"
    verdict, the state after the call is the state before it; in
    particular the cache is unchanged, and a later [analyze] of the URL
    finds in it what it would have found before. *)
Theorem handler_verdicts_are_not_cached (w : World) (st : State) (url : string) :
  reachable ThreatAnalyzer.analyze st →
  let run := ThreatAnalyzer.analyze w st url in
  result_details run.1 = "Error during analysis"
  ∨ result_details run.1 = "Whitelisted domain" →
  cache run.2 = cache st ∧
  ∀ w' u, cachedResult w' run.2 u = cachedResult w' st u.
Proof.
  intros Hreach run Hd.
  assert (run.2 = st) as ->; [|auto].
  eapply outcome_handlers_keep_state;
    [apply buildResult_sound|apply reachable_cache_sound, Hreach|apply analyze_outcome|].
  fold run. tauto.
Qed.

(** The error handler is the way out of every throw in [analyze], and the
    cache is as it was then. *)
Lemma analyze_throw_keeps_cache w st url e st' :
  ThreatAnalyzer.analyze_try w st url = (Throw e, st') →
  ThreatAnalyzer.analyze w st url = (errorResult w url e, st') ∧ cache st' = cache st.
Proof.
  intros Htry. unfold ThreatAnalyzer.analyze. rewrite Htry. split; [reflexivity|].
  revert Htry. unfold ThreatAnalyzer.analyze_try. cbv zeta.
  destruct (new_URL (normalizeURL url)) as [parsed|e0]; [|intros [= _ <-]; reflexivity].
  case_bool_decide; [discriminate|].
  destruct (cachedResult w st (normalizeURL url)); [discriminate|].
  destruct (SignatureEngine.checkAllAPIs w (normalizeURL url) (apis st)) as [sigs a].
  destruct (_ && _); [discriminate|].
  destruct (HeuristicEngine.analyze (normalizeURL url)); [discriminate|].
  intros [= _ <-]. reflexivity.
Qed.

(** The revised analyzer runs the three layers whenever neither the
    whitelist nor the cache answers, and lists every signal they produce,
    also when a Signature signal matched. *)
Lemma priority_analyze_runs_all_layers w st url parsed :
  new_URL (normalizeURL url) = Ok parsed →
  URLObj.hostname parsed ∉ whitelist st →
  cachedResult w st (normalizeURL url) = None →
  ∃ hs, HeuristicEngine.analyze (normalizeURL url) = Ok hs ∧
    detectionLayers (ThreatAnalyzerPriority.analyze w st url).1
    = (SignatureEngine.checkAllAPIs w (normalizeURL url) (apis st)).1
      ++ hs ++ [MLEngine.analyze (normalizeURL url)].
Proof.
  intros Hparse Hwl Hc.
  destruct (priority_analyze_fresh w st url parsed Hparse Hwl Hc) as (hs & Hhs & Heq).
  exists hs. split; [exact Hhs|]. rewrite Heq. simpl.
  unfold ThreatAnalyzerPriority.buildResult. destruct (existsb matched _); reflexivity.
Qed.

(** Feature extraction is total and falls back to the benign defaults;
    the heuristic engine throws what [new URL] throws. *)
Lemma HeuristicEngine_malformed url e :
  new_URL url = Throw e →
  HeuristicEngine.extractFeatures url = HeuristicEngine.defaultFeatures ∧
  HeuristicEngine.analyze url = Throw e.
Proof.
  intros Hparse. unfold HeuristicEngine.extractFeatures, HeuristicEngine.analyze, exc_bind.
  rewrite Hparse. split; reflexivity.
Qed.

End Verdicts.

(* --------------------------------------------------------------------- *)
(** ** Runs on the plain URL parser                                       *)
(* --------------------------------------------------------------------- *)


(** The scenarios of the specification, on the plain parser. A: a clean
    address is safe with score 0. *)
Example scenario_clean :
  let r := (@ThreatAnalyzerPriority.analyze PlainURL.platform quietWorld initial
              "https://google.com").1 in
  isMalicious r = false ∧ riskLevel r = safe ∧ riskScore r = 0.
Proof. vm_compute. auto. Qed.

(** B: a dotted quad with a phishing keyword, no service flagging it: the
    Signature layer is present and unmatched, "IP Address Detection" is
    matched, and the level is above [low]. *)
Example scenario_ip_login :
  let r := (@ThreatAnalyzerPriority.analyze PlainURL.platform quietWorld initial
              "http://192.168.1.1/login").1 in
  level_le low (riskLevel r) ∧
  ¬ Exists signatureMatched (detectionLayers r) ∧
  Exists (λ l, layer l = signature) (detectionLayers r) ∧
  Exists (λ l, method l = "IP Address Detection" ∧ matched l = true) (detectionLayers r).
Proof.
  cbv zeta. split; [vm_compute; lia|].
  split; [|split]; apply (bool_decide_unpack _); vm_compute; exact I.
Qed.

(** C: one service flags an address that the heuristics and the proxy
    model find clean: critical, 100, and the details name that service. *)
Example scenario_flagged_by_one_service :
  let r := (@ThreatAnalyzerPriority.analyze PlainURL.platform flaggingWorld initial
              "https://google.com").1 in
  isMalicious r = true ∧ riskLevel r = critical ∧ riskScore r = 100 ∧
  result_details r = "Flagged by external threat intelligence: VirusTotal".
Proof. vm_compute. auto. Qed.

(** Within the time to live, a second [analyze] of a URL returns the cached
    result and changes nothing. *)
Example analyze_twice :
  let first := @ThreatAnalyzer.analyze PlainURL.platform quietWorld initial
                 "http://192.168.1.1/login" in
  @ThreatAnalyzer.analyze PlainURL.platform flaggingWorld first.2
    "http://192.168.1.1/login#again"
  = first.
Proof. vm_compute. reflexivity. Qed.

(** C8. Feature extraction returns the benign defaults on a string that is
    not a URL, and [HeuristicEngine.analyze] throws on it: its
    [new URL(url)] is outside any [try]. *)
Theorem HeuristicEngine_analyze_throws_on_malformed :
  @HeuristicEngine.extractFeatures PlainURL.platform "not a url"
  = HeuristicEngine.defaultFeatures ∧
  @HeuristicEngine.analyze PlainURL.platform "not a url" = Throw "Invalid URL".
Proof. split; vm_compute; reflexivity. Qed.

(** The first analysis of a dotted-quad login page. *)
Lemma riskScore_in_range_witness :
  0 ≤ riskScore (@ThreatAnalyzer.analyze PlainURL.platform quietWorld initial
                   "http://192.168.1.1/login").1 ≤ 100.
Proof.
  apply (proj1 (@riskScore_in_range PlainURL.platform quietWorld initial
                  "http://192.168.1.1/login")).
  apply reachable_initial.
Defined.

(** A domain added in upper case whitelists the URL written in any case. *)
Lemma whitelisted_host_is_safe_witness :
  @ThreatAnalyzer.analyze PlainURL.platform quietWorld
    (addToWhitelist "Example.COM" initial) "HTTPS://example.com/Login#top"
  = (whitelistedResult quietWorld "https://example.com/login",
     addToWhitelist "Example.COM" initial).
Proof.
  refine (proj1 (@whitelisted_host_is_safe PlainURL.platform quietWorld
                   (addToWhitelist "Example.COM" initial) "HTTPS://example.com/Login#top"
                   {| scheme := "https"; username := ""; password := "";
                      host := Some "example.com"; port := None; path := "/login";
                      query := None; fragment := None |} _ _)).
  - vm_compute. reflexivity.
  - apply (bool_decide_unpack _). vm_compute. exact I.
Defined.

(** Whitelisting "example.com" does not whitelist "www.example.com". *)
Lemma whitelist_is_exact_and_lowercase_witness :
  result_details (@ThreatAnalyzer.analyze PlainURL.platform quietWorld
                    (addToWhitelist "example.com" initial) "https://www.example.com").1
  ≠ "Whitelisted domain".
Proof.
  intros Hd.
  apply (proj1 (proj1 (proj2 (@whitelist_is_exact_and_lowercase PlainURL.platform))
                  quietWorld (addToWhitelist "example.com" initial)
                  "https://www.example.com"
                  (reachable_addToWhitelist _ "example.com" initial (reachable_initial _))))
    in Hd.
  destruct Hd as (parsed & Hp & Hin).
  vm_compute in Hp. injection Hp as <-.
  revert Hin. apply (bool_decide_unpack _). vm_compute. exact I.
Defined.

(** The error verdict for a string that is not a URL leaves the cache empty. *)
Lemma handler_verdicts_are_not_cached_witness :
  cache (@ThreatAnalyzer.analyze PlainURL.platform quietWorld initial "not a url").2
  = cache initial.
Proof.
  apply (@handler_verdicts_are_not_cached PlainURL.platform quietWorld initial "not a url").
  - apply reachable_initial.
  - left. vm_compute. reflexivity.
Defined.

(* ===================================================================== *)
(** * Further properties of the code                                      *)
(* ===================================================================== *)

(* --------------------------------------------------------------------- *)
(** ** Normalisation and the result cache                                 *)
(* --------------------------------------------------------------------- *)

Lemma JSMap_get_set_eq {V} (m : list (string * V)) k v :
  JSMap.get (JSMap.set m k v) k = Some v.
Proof.
  induction m as [|[k0 v0] m IH]; simpl.
  - rewrite String.eqb_refl. reflexivity.
  - destruct (String.eqb k0 k) eqn:Hk; simpl; rewrite Hk; [reflexivity|exact IH].
Qed.

Lemma JSMap_get_set_ne {V} (m : list (string * V)) k k' v :
  k ≠ k' → JSMap.get (JSMap.set m k v) k' = JSMap.get m k'.
Proof.
  intros Hne. induction m as [|[k0 v0] m IH]; simpl.
  - rewrite (proj2 (String.eqb_neq _ _) Hne). reflexivity.
  - destruct (String.eqb_spec k0 k) as [->|Hk]; simpl.
    + rewrite (proj2 (String.eqb_neq _ _) Hne). reflexivity.
    + rewrite IH. reflexivity.
Qed.

(** X2. [cacheResult] stores the result under the URL with the current
    time, also when it first evicts entries; and while the cache is not
    full, it leaves the entry of every other URL as it was. *)
Theorem cacheResult_lookup (w : World) (u : string) (r : ThreatAnalysisResult)
    (c : list (string * CacheEntry)) :
  JSMap.get (cacheResult w u r c) u = Some {| result := r; entry_timestamp := now w |} ∧
  (JSMap.size c < CONFIG.CACHE.MAX_CACHE_SIZE →
   ∀ k, k ≠ u → JSMap.get (cacheResult w u r c) k = JSMap.get c k).
Proof.
  unfold cacheResult. split; [apply JSMap_get_set_eq|].
  intros Hsize k Hk. rewrite bool_decide_eq_false_2 by lia.
  apply JSMap_get_set_ne. congruence.
Qed.

Lemma cacheResult_lookup_witness :
  JSMap.get (cacheResult quietWorld "http://b" (whitelistedResult quietWorld "http://b")
               (cacheResult quietWorld "http://a" (errorResult quietWorld "http://a" "e") []))
    "http://a"
  = JSMap.get (cacheResult quietWorld "http://a" (errorResult quietWorld "http://a" "e") [])
      "http://a".
Proof.
  apply (proj2 (cacheResult_lookup quietWorld "http://b"
                  (whitelistedResult quietWorld "http://b")
                  (cacheResult quietWorld "http://a" (errorResult quietWorld "http://a" "e") []))).
  - vm_compute. reflexivity.
  - discriminate.
Defined.

Section Replay.
Context `{Platform}.



Lemma outcome_fresh_inv build w st url parsed run :
  outcome build w st url run →
  new_URL (normalizeURL url) = Ok parsed →
  URLObj.hostname parsed ∉ whitelist st →
  cachedResult w st (normalizeURL url) = None →
  ∃ ls a, run = (build w (normalizeURL url) ls,
                 with_cache (with_apis st a)
                   (cacheResult w (normalizeURL url) (build w (normalizeURL url) ls) (cache st))).
Proof.
  intros Hrun Hp Hwl Hc.
  destruct Hrun as [e He|p Hp' Hwl'|p r Hp' Hwl' Hc'|p ls Hp' Hwl' Hc' Hok].
  - congruence.
  - rewrite Hp in Hp'. injection Hp' as <-. contradiction.
  - congruence.
  - eauto.
Qed.


End Replay.


(* --------------------------------------------------------------------- *)
(** ** The whitelist                                                      *)
(* --------------------------------------------------------------------- *)

(** X4. Removing a domain undoes adding it, in whatever case the two are
    written: when the domain was not whitelisted before, the state after
    [addToWhitelist] and [removeFromWhitelist] is the state before. *)
Theorem whitelist_add_remove (domain domain' : string) (st : State) :
  JS.toLowerCase domain' = JS.toLowerCase domain →
  JS.toLowerCase domain ∉ whitelist st →
  removeFromWhitelist domain' (addToWhitelist domain st) = st.
Proof.
  intros Hcase Hnew. destruct st as [c wl a].
  unfold removeFromWhitelist, addToWhitelist, with_whitelist. simpl in *.
  f_equal. rewrite Hcase. apply set_eq. intros x.
  rewrite elem_of_difference, elem_of_union, elem_of_singleton.
  split; [tauto|]. intros Hx. split; [tauto|congruence].
Qed.

Lemma whitelist_add_remove_witness :
  removeFromWhitelist "EXAMPLE.com" (addToWhitelist "Example.COM" initial) = initial.
Proof.
  apply whitelist_add_remove.
  - vm_compute. reflexivity.
  - apply (bool_decide_unpack _). vm_compute. exact I.
Defined.

(* --------------------------------------------------------------------- *)
(** ** The gateway: rate limiter, request cache, keys                     *)
(* --------------------------------------------------------------------- *)

Lemma allowedCalls_in_window ws service limit st count resetTime :
  SignatureEngine.rateLimitCounters st !! service = Some (count, resetTime) →
  Forall (λ w, now w ≤ resetTime) ws →
  (allowedCalls ws service limit st).1 = Nat.min (length ws) (Z.to_nat (limit - count)).
Proof.
  intros Hc Hws. revert st count Hc.
  induction Hws as [|w ws Hw _ IH]; intros st count Hc; [reflexivity|].
  cbn [allowedCalls length].
  unfold SignatureEngine.checkRateLimit. rewrite Hc.
  rewrite bool_decide_eq_false_2 by lia.
  case_bool_decide as Hfull.
  - specialize (IH st count Hc).
    destruct (allowedCalls ws service limit st) as [n st']. cbn [fst] in *. lia.
  - set (st1 := SignatureEngine.set_counters st _).
    specialize (IH st1 (count + 1)).
    assert (SignatureEngine.rateLimitCounters st1 !! service = Some (count + 1, resetTime))
      as Hc1 by (subst st1; simpl; apply lookup_insert_eq).
    specialize (IH Hc1).
    destruct (allowedCalls ws service limit st1) as [n st']. cbn [fst] in *. lia.
Qed.

(** X5. The quota of the rate limiter. A call that finds no counter for
    the service opens a window of 60 seconds and is allowed; of the calls
    that follow within the window, the first [limit - 1] are allowed and
    all others are refused. (So at most [limit] calls pass per window when
    [limit] is at least 1, and a limit of 0 still lets one call pass.) *)
Theorem checkRateLimit_quota (w : World) (ws : list World) (service : string)
    (limit : Z) (st : SignatureEngine.State) :
  SignatureEngine.rateLimitCounters st !! service = None →
  Forall (λ w', now w' ≤ now w + 60000) ws →
  (allowedCalls (w :: ws) service limit st).1
  = S (Nat.min (length ws) (Z.to_nat (limit - 1))).
Proof.
  intros Hc Hws. cbn [allowedCalls]. unfold SignatureEngine.checkRateLimit. rewrite Hc.
  set (st1 := SignatureEngine.set_counters st _).
  pose proof (allowedCalls_in_window ws service limit st1 1 (now w + 60000)) as Hin.
  assert (SignatureEngine.rateLimitCounters st1 !! service = Some (1, now w + 60000))
    as Hc1 by (subst st1; simpl; apply lookup_insert_eq).
  specialize (Hin Hc1 Hws).
  destruct (allowedCalls ws service limit st1) as [n st']. cbn [fst] in *.
  rewrite Hin. reflexivity.
Qed.

(** Three calls in one window against a limit of two. *)
Lemma checkRateLimit_quota_witness :
  (allowedCalls [quietWorld; quietWorld; flaggingWorld] "safe_browsing" 2
     SignatureEngine.initial).1 = 2%nat.
Proof.
  refine (checkRateLimit_quota quietWorld [quietWorld; flaggingWorld] "safe_browsing" 2
            SignatureEngine.initial _ _).
  - vm_compute. reflexivity.
  - apply (bool_decide_unpack _). vm_compute. exact I.
Defined.

(** X6. The quota of VirusTotal is a quota per minute, although the
    configuration names it [VIRUSTOTAL_PER_DAY]: however many requests the
    counter holds, once the reset time of the window (one minute after its
    first request) has passed, [checkVirusTotal] is not refused by the
    limiter and opens a new window of one minute with the counter at 1.
    It then sends the request and returns the answer of the service,
    unless the URL has a character above U+00FF: then [btoa] throws, no
    request is sent and the check fails. *)
Theorem checkVirusTotal_quota_is_per_minute (w : World) (url : string)
    (st : SignatureEngine.State) (count resetTime : Z) :
  VIRUSTOTAL (getApiKeys w) ≠ CONFIG.YOUR_API_KEY_HERE →
  SignatureEngine.rateLimitCounters st !! "virustotal" = Some (count, resetTime) →
  resetTime < now w →
  let run := SignatureEngine.checkVirusTotal w url st in
  SignatureEngine.rateLimitCounters run.2 !! "virustotal" = Some (1, now w + 60000) ∧
  (JS.btoa_throws url = false →
   ∀ stats, virusTotalFetch w = Body stats →
     success run.1 = true ∧ source run.1 = "VirusTotal" ∧
     (malicious run.1 = true ↔
      ∃ m s, stats = Some (m, s) ∧ (0 < m + s)%nat)) ∧
  (JS.btoa_throws url = true →
   run.1 = SignatureEngine.failure "VirusTotal" JS.btoa_message).
Proof.
  intros Hkey Hc Hpast.
  unfold SignatureEngine.checkVirusTotal, SignatureEngine.checkRateLimit.
  rewrite (proj2 (String.eqb_neq _ _) Hkey), Hc, bool_decide_eq_true_2 by exact Hpast.
  cbn [negb]. destruct (JS.btoa_throws url) eqn:Hbtoa.
  - cbn [fst snd SignatureEngine.set_counters SignatureEngine.rateLimitCounters].
    split; [apply lookup_insert_eq|].
    split; [discriminate|reflexivity].
  - split.
    { destruct (virusTotalFetch w);
        cbn [snd SignatureEngine.set_counters SignatureEngine.rateLimitCounters];
        apply lookup_insert_eq. }
    split; [|discriminate]. intros _ stats ->. cbn [fst].
    unfold SignatureEngine.answer. cbn [success source malicious].
    split; [reflexivity|]. split; [reflexivity|].
    rewrite bool_decide_eq_true. destruct stats as [[m s']|].
    + split; [intros Hpos; exists m, s'; split; [reflexivity|lia]|].
      intros (m' & s'' & [= <- <-] & Hpos). lia.
    + split; [lia|]. intros (m' & s'' & [=] & _).
Qed.

(** 500 requests counted, and one more, 60001 ms after the window opened. *)
Lemma checkVirusTotal_quota_is_per_minute_witness :
  let run := SignatureEngine.checkVirusTotal flaggingWorld "http://a"
               (SignatureEngine.set_counters SignatureEngine.initial
                  {[ "virustotal" := (500, 999) ]}) in
  SignatureEngine.rateLimitCounters run.2 !! "virustotal" = Some (1, 61000) ∧
  success run.1 = true ∧ source run.1 = "VirusTotal" ∧ malicious run.1 = true.
Proof.
  pose proof (checkVirusTotal_quota_is_per_minute flaggingWorld "http://a"
                (SignatureEngine.set_counters SignatureEngine.initial
                   {[ "virustotal" := (500, 999) ]}) 500 999) as Hquota.
  destruct Hquota as (Hcounter & Hsent & _).
  - vm_compute. discriminate.
  - vm_compute. reflexivity.
  - vm_compute. reflexivity.
  - destruct (Hsent eq_refl (Some (3%nat, O)) eq_refl) as (Hsuccess & Hsource & Hmal).
    split; [exact Hcounter|]. split; [exact Hsuccess|]. split; [exact Hsource|].
    apply Hmal. exists 3%nat, O. split; [reflexivity|lia].
Defined.

Section RequestCache.
Context `{Platform}.

Lemma checkLocalBlacklist_source url :
  source (SignatureEngine.checkLocalBlacklist url) = "Local Blacklist".
Proof.
  unfold SignatureEngine.checkLocalBlacklist. destruct (new_URL url); reflexivity.
Qed.

Lemma checkSafeBrowsing_cache_effect w url st :
  let run := SignatureEngine.checkSafeBrowsing w url st in
  (success run.1 = true ∧ source run.1 = "Google Safe Browsing" →
   SignatureEngine.safeBrowsingCache run.2 !! url = Some (malicious run.1, now w)) ∧
  (¬ (success run.1 = true ∧ source run.1 = "Google Safe Browsing") →
   SignatureEngine.safeBrowsingCache run.2 = SignatureEngine.safeBrowsingCache st).
Proof.
  pose proof (checkLocalBlacklist_source url) as Hl.
  unfold SignatureEngine.checkSafeBrowsing, SignatureEngine.checkRateLimit. cbv zeta.
  destruct (SignatureEngine.safeBrowsingCache st !! url) as [[m ts]|];
    destruct (SignatureEngine.rateLimitCounters st !! "safe_browsing") as [[c r]|];
    repeat case_bool_decide;
    destruct (String.eqb (GOOGLE_SAFE_BROWSING (getApiKeys w)) CONFIG.YOUR_API_KEY_HERE);
    destruct (safeBrowsingFetch w) as [e|status|[n|]];
    cbn [negb fst snd success source malicious SignatureEngine.answer
         SignatureEngine.failure SignatureEngine.safeBrowsingCache
         SignatureEngine.set_cache SignatureEngine.set_counters];
    (split;
     [ intros [Hs Hsrc]; try discriminate Hs; try discriminate Hsrc;
       try (rewrite Hl in Hsrc; discriminate Hsrc); apply lookup_insert_eq
     | intros Hn; try reflexivity; exfalso; apply Hn; split; reflexivity ]).
Qed.

(** X7. The request cache of Safe Browsing holds the answers of the remote
    service and nothing else. When [checkSafeBrowsing] returns a successful
    answer of the service itself, every check of the same URL within the
    time to live is answered from the cache with the same verdict and
    changes nothing (no request, no token of the rate limiter); in every
    other case (cache hit, rate limit, no key and local blacklist, failed
    request) the cache is left as it was. *)
Theorem checkSafeBrowsing_caches_remote_answers (w : World) (url : string)
    (st : SignatureEngine.State) :
  let run := SignatureEngine.checkSafeBrowsing w url st in
  (success run.1 = true ∧ source run.1 = "Google Safe Browsing" →
   ∀ w', now w' - now w < CONFIG.CACHE.SAFE_URL_TTL →
     SignatureEngine.checkSafeBrowsing w' url run.2
     = (SignatureEngine.answer "Google Safe Browsing (cached)" (malicious run.1) None,
        run.2)) ∧
  (¬ (success run.1 = true ∧ source run.1 = "Google Safe Browsing") →
   SignatureEngine.safeBrowsingCache run.2 = SignatureEngine.safeBrowsingCache st).
Proof.
  intros run. destruct (checkSafeBrowsing_cache_effect w url st) as [Hput Hkeep].
  fold run in Hput, Hkeep. split; [|exact Hkeep].
  intros Hremote w' Hfresh.
  apply (checkSafeBrowsing_cache_hit w' url run.2 _ (now w)); [apply Hput, Hremote|exact Hfresh].
Qed.

(** X8. Without keys the gateway asks no service: when the three keys are
    the placeholder (nothing stored, empty strings stored, or the storage
    failing), the signals of [checkAllAPIs] and the state it leaves do not
    depend on what the three requests would return. *)
Theorem checkAllAPIs_without_keys_asks_no_service (w w' : World) (url : string)
    (st : SignatureEngine.State) :
  now w' = now w → storage w' = storage w →
  GOOGLE_SAFE_BROWSING (getApiKeys w) = CONFIG.YOUR_API_KEY_HERE →
  PHISHTANK (getApiKeys w) = CONFIG.YOUR_API_KEY_HERE →
  VIRUSTOTAL (getApiKeys w) = CONFIG.YOUR_API_KEY_HERE →
  SignatureEngine.checkAllAPIs w' url st = SignatureEngine.checkAllAPIs w url st.
Proof.
  intros Hnow Hstorage Hsb Hpt Hvt.
  assert (getApiKeys w' = getApiKeys w) as Hkeys
    by (unfold getApiKeys; rewrite Hstorage; reflexivity).
  unfold SignatureEngine.checkAllAPIs, SignatureEngine.settleAll,
    SignatureEngine.checkSafeBrowsing, SignatureEngine.checkPhishTank,
    SignatureEngine.checkVirusTotal, SignatureEngine.checkRateLimit.
  rewrite Hkeys, Hnow, Hsb, Hpt, Hvt, String.eqb_refl. reflexivity.
Qed.

End RequestCache.

(** The remote answer for a URL is replayed a second later. *)
Lemma checkSafeBrowsing_caches_remote_answers_witness :
  let run := @SignatureEngine.checkSafeBrowsing PlainURL.platform safeBrowsingWorld
               "http://a.example/" SignatureEngine.initial in
  @SignatureEngine.checkSafeBrowsing PlainURL.platform quietWorld "http://a.example/" run.2
  = (SignatureEngine.answer "Google Safe Browsing (cached)" true None, run.2).
Proof.
  refine (proj1 (@checkSafeBrowsing_caches_remote_answers PlainURL.platform
                   safeBrowsingWorld "http://a.example/" SignatureEngine.initial) _ quietWorld _).
  - vm_compute. split; reflexivity.
  - vm_compute. reflexivity.
Defined.

(** Two worlds without keys that differ in the answers of the services. *)
Lemma checkAllAPIs_without_keys_asks_no_service_witness :
  @SignatureEngine.checkAllAPIs PlainURL.platform
    {| now := 1000; storage := Ok (None, None, None);
       safeBrowsingFetch := Body (Some 2%nat); phishTankFetch := Body true;
       virusTotalFetch := Body (Some (4%nat, 1%nat)) |}
    "http://a.example/" SignatureEngine.initial
  = @SignatureEngine.checkAllAPIs PlainURL.platform quietWorld "http://a.example/"
      SignatureEngine.initial.
Proof.
  apply (@checkAllAPIs_without_keys_asks_no_service PlainURL.platform); reflexivity.
Defined.

(* --------------------------------------------------------------------- *)
(** ** The heuristic engine: edit distance                                *)
(* --------------------------------------------------------------------- *)

Lemma editDistance_nil_r s : editDistance s [] = length s.
Proof. destruct s; reflexivity. Qed.

Lemma editDistance_cons x s y t :
  editDistance (x :: s) (y :: t)
  = if Ascii.eqb x y then editDistance s t
    else Nat.min (editDistance s t + 1)
           (Nat.min (editDistance (x :: s) t + 1) (editDistance s (y :: t) + 1)).
Proof. reflexivity. Qed.

Lemma columns_lengths acc suffix :
  length <$> columns acc suffix = seq (length acc) (S (length suffix)).
Proof.
  revert acc. induction suffix as [|c suffix IH]; intros acc; [reflexivity|].
  cbn [columns fmap list_fmap length seq]. f_equal. apply (IH (c :: acc)).
Qed.

Lemma columns_last acc suffix :
  List.last (columns acc suffix) [] = rev_append suffix acc.
Proof.
  revert acc. induction suffix as [|c suffix IH]; intros acc; [reflexivity|].
  cbn [columns rev_append]. rewrite <- (IH (c :: acc)).
  destruct suffix; reflexivity.
Qed.

Lemma levenshteinRow_columns bc rb acc suffix :
  HeuristicEngine.levenshteinRow bc suffix
    (editDistance rb <$> columns acc suffix) (editDistance (bc :: rb) acc)
  = editDistance (bc :: rb) <$> List.tl (columns acc suffix).
Proof.
  revert acc. induction suffix as [|ac suffix IH]; intros acc; [reflexivity|].
  specialize (IH (ac :: acc)).
  destruct suffix as [|ac' suffix].
  - cbn [columns fmap list_fmap HeuristicEngine.levenshteinRow List.tl].
    rewrite editDistance_cons. reflexivity.
  - cbn [columns fmap list_fmap HeuristicEngine.levenshteinRow List.tl] in IH |- *.
    rewrite editDistance_cons. f_equal. exact IH.
Qed.

Lemma levenshteinRows_columns b rb a :
  HeuristicEngine.levenshteinRows b a (editDistance rb <$> columns [] a) (S (length rb))
  = editDistance (rev_append b rb) <$> columns [] a.
Proof.
  revert rb. induction b as [|bc b IH]; intros rb; [reflexivity|].
  cbn [HeuristicEngine.levenshteinRows rev_append].
  rewrite <- (IH (bc :: rb)). f_equal.
  change (S (length rb)) with (editDistance (bc :: rb) []) at 2.
  rewrite (levenshteinRow_columns bc rb [] a).
  change (S (length rb)) with (editDistance (bc :: rb) []).
  destruct a; reflexivity.
Qed.

Lemma chars_length s : length (JS.chars s) = String.length s.
Proof. induction s as [|c s IH]; simpl; [reflexivity|]. f_equal. exact IH. Qed.

Lemma last_fmap_columns (f : list ascii → nat) acc a :
  List.last (f <$> columns acc a) O = f (List.last (columns acc a) []).
Proof.
  revert acc. induction a as [|c a IH]; intros acc; [reflexivity|].
  specialize (IH (c :: acc)). cbn [columns fmap list_fmap] in IH |- *.
  destruct a; exact IH.
Qed.

Lemma levenshtein_matrix (a b : string) :
  HeuristicEngine.levenshteinDistance a b
  = editDistance (rev (JS.chars b)) (rev (JS.chars a)).
Proof.
  unfold HeuristicEngine.levenshteinDistance.
  rewrite <- (chars_length a).
  change (seq 0 (S (length (JS.chars a))))
    with (seq (length (@nil ascii)) (S (length (JS.chars a)))).
  rewrite <- columns_lengths.
  assert (length <$> columns [] (JS.chars a) = editDistance [] <$> columns [] (JS.chars a))
    as -> by reflexivity.
  pose proof (levenshteinRows_columns (JS.chars b) [] (JS.chars a)) as Hrows.
  change (S (length (@nil ascii))) with 1%nat in Hrows. rewrite Hrows.
  rewrite last_fmap_columns, columns_last, !rev_append_rev, !app_nil_r.
  reflexivity.
Qed.

(** X9. [levenshteinDistance] computes the edit distance: its matrix, kept
    row by row, holds the values of the recursion [editDistance] on the
    prefixes of the two strings, and the value returned is that of the
    whole strings. *)
Theorem levenshteinDistance_is_editDistance (a b : string) :
  HeuristicEngine.levenshteinDistance a b
  = editDistance (rev (JS.chars b)) (rev (JS.chars a)).
Proof. apply levenshtein_matrix. Qed.

Lemma editDistance_zero s t : editDistance s t = O ↔ s = t.
Proof.
  revert t. induction s as [|x s IH]; intros t.
  - destruct t; simpl; split; congruence.
  - destruct t as [|y t]; [simpl; split; congruence|].
    rewrite editDistance_cons.
    destruct (Ascii.eqb_spec x y) as [->|Hne].
    + rewrite IH. split; congruence.
    + split; [lia|congruence].
Qed.

Lemma editDistance_sym s t : editDistance s t = editDistance t s.
Proof.
  revert t. induction s as [|x s IHs]; intros t.
  - rewrite editDistance_nil_r. reflexivity.
  - induction t as [|y t IHt]; [rewrite editDistance_nil_r; reflexivity|].
    rewrite !editDistance_cons, (Ascii.eqb_sym y x), IHt, (IHs t), (IHs (y :: t)).
    destruct (Ascii.eqb x y); lia.
Qed.

Lemma editDistance_bounds s t :
  (length s - length t ≤ editDistance s t ∧
   length t - length s ≤ editDistance s t ∧
   editDistance s t ≤ Nat.max (length s) (length t))%nat.
Proof.
  revert t. induction s as [|x s IHs]; intros t.
  - simpl. lia.
  - induction t as [|y t IHt]; [rewrite editDistance_nil_r; simpl; lia|].
    rewrite editDistance_cons.
    pose proof (IHs t). pose proof (IHs (y :: t)).
    cbn [length] in *.
    destruct (Ascii.eqb x y); lia.
Qed.

Lemma chars_inj s t : JS.chars s = JS.chars t → s = t.
Proof.
  intros Heq. rewrite <- (string_of_list_ascii_of_string s),
    <- (string_of_list_ascii_of_string t).
  unfold JS.chars in Heq. rewrite Heq. reflexivity.
Qed.

(** X10. The distance of two strings is 0 exactly when they are equal, and
    it does not depend on the order of the two. (The typosquatting rule
    asks for a distance above 0, so it never fires on the official domain
    itself.) *)
Theorem levenshteinDistance_zero_sym (a b : string) :
  (HeuristicEngine.levenshteinDistance a b = O ↔ a = b) ∧
  HeuristicEngine.levenshteinDistance a b = HeuristicEngine.levenshteinDistance b a.
Proof.
  rewrite !levenshtein_matrix. split.
  - rewrite editDistance_zero. split.
    + intros Heq. apply chars_inj.
      rewrite <- (rev_involutive (JS.chars a)), <- (rev_involutive (JS.chars b)).
      rewrite Heq. reflexivity.
    + intros ->. reflexivity.
  - apply editDistance_sym.
Qed.

(** X11. The distance lies between the difference of the lengths of the
    two strings and the greater of the lengths. (So the typosquatting rule,
    which asks for a distance of at most 2 from "brand.com", looks at hosts
    whose length differs from it by at most 2.) *)
Theorem levenshteinDistance_bounds (a b : string) :
  (String.length a - String.length b ≤ HeuristicEngine.levenshteinDistance a b ∧
   String.length b - String.length a ≤ HeuristicEngine.levenshteinDistance a b ∧
   HeuristicEngine.levenshteinDistance a b
   ≤ Nat.max (String.length a) (String.length b))%nat.
Proof.
  rewrite levenshtein_matrix.
  pose proof (editDistance_bounds (rev (JS.chars b)) (rev (JS.chars a))) as Hb.
  rewrite !length_rev, !chars_length in Hb. lia.
Qed.

(* --------------------------------------------------------------------- *)
(** ** The heuristic engine: rules                                        *)
(* --------------------------------------------------------------------- *)

Lemma impersonates_digit_one hostLower :
  JS.includes hostLower "1" = true →
  HeuristicEngine.impersonates hostLower "paypal" = true.
Proof.
  intros H1. unfold HeuristicEngine.impersonates.
  apply orb_true_intro. right.
  apply existsb_exists. exists ("l", [ "1"; "і"; "|" ]). split.
  - unfold HeuristicEngine.lookalikes. do 4 right. left. reflexivity.
  - apply existsb_exists. exists "1". split; [left; reflexivity|].
    rewrite H1. reflexivity.
Qed.

Section Rules.
Context `{Platform}.

Lemma extractFeatures_brand url urlObj :
  new_URL url = Ok urlObj →
  brandImpersonation (HeuristicEngine.extractFeatures url)
  = HeuristicEngine.detectBrandImpersonation (URLObj.hostname urlObj).
Proof.
  intros Hp. unfold HeuristicEngine.extractFeatures. rewrite Hp. reflexivity.
Qed.

(** X12. Every host with the digit 1 in it is reported as impersonating
    PayPal: "1" is in the table of look-alikes of the letter "l", "paypal"
    has an "l", and the look-alike test asks for nothing else; "paypal" is
    the first brand tried. So the heuristic engine emits the signal "Brand
    Impersonation" with score 50 for every such URL, dotted quads like
    192.168.1.1 among them. *)
Theorem digit_one_is_brand_impersonation (url : string) (urlObj : URL) :
  new_URL url = Ok urlObj →
  JS.includes (JS.toLowerCase (URLObj.hostname urlObj)) "1" = true →
  HeuristicEngine.detectBrandImpersonation (URLObj.hostname urlObj) = Some "paypal" ∧
  ∃ ls, HeuristicEngine.analyze url = Ok ls ∧
        {| layer := heuristic; method := "Brand Impersonation"; score := 50;
           details := "Potential impersonation of paypal"; matched := true |} ∈ ls.
Proof.
  intros Hp H1.
  assert (HeuristicEngine.detectBrandImpersonation (URLObj.hostname urlObj) = Some "paypal")
    as Hbrand.
  { unfold HeuristicEngine.detectBrandImpersonation, CONFIG.TARGETED_BRANDS.
    cbn [List.find]. rewrite (impersonates_digit_one _ H1). reflexivity. }
  split; [exact Hbrand|].
  unfold HeuristicEngine.analyze, exc_bind. rewrite Hp. eexists. split; [reflexivity|].
  cbv zeta. rewrite (extractFeatures_brand url urlObj Hp), Hbrand.
  do 7 (apply elem_of_app; right). apply elem_of_app. left.
  apply list_elem_of_singleton. reflexivity.
Qed.

End Rules.

(** The dotted quad of a home router. *)
Lemma digit_one_is_brand_impersonation_witness :
  @HeuristicEngine.detectBrandImpersonation "192.168.1.1" = Some "paypal".
Proof.
  refine (proj1 (@digit_one_is_brand_impersonation PlainURL.platform
                   "http://192.168.1.1/"
                   {| scheme := "http"; username := ""; password := "";
                      host := Some "192.168.1.1"; port := None; path := "/";
                      query := None; fragment := None |} _ _)).
  - vm_compute. reflexivity.
  - vm_compute. reflexivity.
Defined.

Lemma split_head sep c s :
  Ascii.eqb c sep = false →
  ∃ p ps, JS.split sep (String c s) = String c p :: ps.
Proof.
  intros Hc. cbn [JS.split]. rewrite Hc.
  destruct (JS.split sep s) as [|p ps]; eauto.
Qed.

(** X13. A host that starts with a bracket is never taken for an IP
    address. The URL object writes IPv6 hosts in brackets, so that the
    pattern for IPv6, which has no brackets, matches none of them: an IPv6
    literal gets no "IP Address Detection". *)
Theorem bracketed_host_is_no_IP (s : string) :
  HeuristicEngine.isIPAddress (String "["%char s) = false.
Proof.
  unfold HeuristicEngine.isIPAddress.
  destruct (split_head "."%char "["%char s eq_refl) as (p & ps & ->).
  destruct (split_head ":"%char "["%char s eq_refl) as (q & qs & ->).
  cbn [forallb JS.all_class JS.chars list_ascii_of_string].
  assert (JS.is_digit "["%char = false) as -> by reflexivity.
  assert (JS.is_hex "["%char = false) as -> by reflexivity.
  cbn [andb]. rewrite !andb_false_r. reflexivity.
Qed.

(* --------------------------------------------------------------------- *)
(** ** The heuristic engine: entropy and trusted infrastructure           *)
(* --------------------------------------------------------------------- *)

Lemma Entropy_pow_pos z p : Entropy.pow_pos z p = z ^ Zpos p.
Proof.
  induction p as [p IH|p IH|]; cbn [Entropy.pow_pos].
  - rewrite IH, Pos2Z.inj_xI, Z.pow_add_r, Z.pow_1_r, Z.pow_twice_r by lia. ring.
  - rewrite IH, Pos2Z.inj_xO, Z.pow_twice_r. reflexivity.
  - rewrite Z.pow_1_r. reflexivity.
Qed.

Lemma Entropy_pow z n : 0 ≤ n → Entropy.pow z n = z ^ n.
Proof.
  intros Hn. destruct n as [|p|p]; [reflexivity|apply Entropy_pow_pos|lia].
Qed.

Lemma bump_counts c table :
  Forall (λ n, 1 ≤ n) table.*2 →
  Forall (λ n, 1 ≤ n) (Entropy.bump c table).*2 ∧
  fold_right Z.add 0 (Entropy.bump c table).*2 = fold_right Z.add 0 table.*2 + 1.
Proof.
  induction table as [|[d n] table IH]; intros Hpos.
  - cbn. split; [constructor; [lia|constructor]|reflexivity].
  - apply Forall_cons in Hpos as [Hn Hpos]. cbn [Entropy.bump].
    destruct (Ascii.eqb c d); cbn [fmap list_fmap snd fold_right] in *.
    + split; [constructor; [lia|exact Hpos]|lia].
    + destruct (IH Hpos) as [IH1 IH2]. split; [constructor; assumption|lia].
Qed.

Lemma frequencies_counts l table :
  Forall (λ n, 1 ≤ n) table.*2 →
  let table' := fold_left (λ table c, Entropy.bump c table) l table in
  Forall (λ n, 1 ≤ n) table'.*2 ∧
  fold_right Z.add 0 table'.*2 = fold_right Z.add 0 table.*2 + Z.of_nat (length l).
Proof.
  revert table. induction l as [|c l IH]; intros table Hpos; cbn [fold_left length].
  - split; [exact Hpos|lia].
  - destruct (bump_counts c table Hpos) as [Hpos' Hsum'].
    destruct (IH _ Hpos') as [IH1 IH2]. cbv zeta in IH1, IH2.
    split; [exact IH1|]. rewrite IH2, Hsum'. lia.
Qed.

Lemma pow_prod_pos counts :
  Forall (λ n, 1 ≤ n) counts →
  1 ≤ fold_right (λ n acc, Entropy.pow n n * acc) 1 counts.
Proof.
  induction 1 as [|n counts Hn _ IH]; cbn [fold_right]; [lia|].
  rewrite Entropy_pow by lia.
  assert (0 < n ^ n) by (apply Z.pow_pos_nonneg; lia). nia.
Qed.

Lemma short_string_entropy s :
  (String.length s ≤ 16)%nat →
  Entropy.gt (HeuristicEngine.calculateEntropy s) 4 1 = false.
Proof.
  intros Hlen. unfold Entropy.gt, Entropy.total, Entropy.pow_prod,
    HeuristicEngine.calculateEntropy, Entropy.frequencies.
  cbn [Entropy.counts].
  destruct (frequencies_counts (JS.chars s) [] ltac:(constructor)) as [Hpos Hsum].
  cbv zeta in Hpos, Hsum. cbn [fmap list_fmap fold_right] in Hsum.
  rewrite chars_length in Hsum. rewrite Hsum.
  pose proof (pow_prod_pos _ Hpos) as HP.
  set (P := fold_right _ 1 _) in *. set (L := Z.of_nat (String.length s)) in *.
  apply Z.ltb_ge.
  rewrite !Entropy_pow by lia.
  rewrite Z.pow_1_r, Z.add_0_l, Z.mul_1_l.
  assert (L ^ L ≤ 16 ^ L) as H16 by (apply Z.pow_le_mono_l; lia).
  assert (16 ^ L = 2 ^ (4 * L)) as H2 by (rewrite Z.pow_mul_r by lia; reflexivity).
  assert (0 < 2 ^ (4 * L)) by (apply Z.pow_pos_nonneg; lia).
  nia.
Qed.

(** No signal of [ls] has one of the methods [names]. *)
Ltac methods_rule :=
  repeat first
    [ apply Forall_nil
    | apply Forall_rule; intros Hcond;
      first [ discriminate Hcond
            | cbn [method]; rewrite Forall_forall; intros name Hname;
              repeat (apply elem_of_cons in Hname as [->|Hname]; [discriminate|]);
              inversion Hname ]
    | apply Forall_cons; split;
      [ cbn [method]; rewrite Forall_forall; intros name Hname;
        repeat (apply elem_of_cons in Hname as [->|Hname]; [discriminate|]);
        inversion Hname | ]
    | match goal with
      | |- Forall _ (if ?c then _ else _) => destruct c
      | |- Forall _ (match ?c with Some _ => _ | None => _ end) => destruct c
      end ].

Lemma Ok_inj {A} (x y : A) : Ok x = Ok y → x = y.
Proof. intros [= ->]. reflexivity. Qed.

Section Suppression.
Context `{Platform}.

Lemma extractFeatures_entropy url urlObj :
  new_URL url = Ok urlObj →
  entropy (HeuristicEngine.extractFeatures url)
  = HeuristicEngine.calculateEntropy (URLObj.hostname urlObj).
Proof.
  intros Hp. unfold HeuristicEngine.extractFeatures. rewrite Hp. reflexivity.
Qed.

Lemma domainRules_methods names parts :
  "DGA / Random Domain" ∉ names → "Suspicious Subdomain" ∉ names →
  Forall (λ l, Forall (λ name, method l ≠ name) names) (HeuristicEngine.domainRules parts).
Proof.
  intros H1 H2. unfold HeuristicEngine.domainRules. apply Forall_app. split.
  - case_bool_decide; [|constructor]. apply Forall_rule. intros _. cbn [method].
    apply Forall_forall. intros name Hin <-. contradiction.
  - case_bool_decide; [|constructor]. apply Forall_rule. intros _. cbn [method].
    apply Forall_forall. intros name Hin <-. contradiction.
Qed.

(** X14. A host name of at most 16 characters never has "High Domain
    Entropy": the entropy of a string is at most the logarithm of its
    length, and the rule asks for more than 4 = log2 16. *)
Theorem short_host_has_no_high_entropy (url : string) (urlObj : URL)
    (ls : list DetectionLayer) :
  new_URL url = Ok urlObj →
  (String.length (URLObj.hostname urlObj) ≤ 16)%nat →
  HeuristicEngine.analyze url = Ok ls →
  Entropy.gt (HeuristicEngine.calculateEntropy (URLObj.hostname urlObj)) 4 1 = false ∧
  Forall (λ l, method l ≠ "High Domain Entropy") ls.
Proof.
  intros Hp Hlen Hls.
  pose proof (short_string_entropy _ Hlen) as Hgt. split; [exact Hgt|].
  cut (Forall (λ l, Forall (λ name, method l ≠ name) [ "High Domain Entropy" ]) ls).
  { intros HF. eapply Forall_impl; [exact HF|].
    intros l Hl. apply Forall_cons in Hl as [Hl _]. exact Hl. }
  revert Hls. unfold HeuristicEngine.analyze, exc_bind. rewrite Hp.
  intros <-%Ok_inj.
  cbv zeta. rewrite (extractFeatures_entropy url urlObj Hp), Hgt, andb_false_r.
  repeat (apply Forall_app; split);
    try (apply domainRules_methods;
         intros Hin; repeat (apply elem_of_cons in Hin as [Hin|Hin]; [discriminate Hin|]);
         inversion Hin);
    methods_rule; try exact I.
Qed.

(** X15. On trusted infrastructure the rules on the length of the URL and
    on the entropy of the host are switched off: for a host that is one of
    [TRUSTED_INFRA_DOMAINS] or a subdomain of one, the heuristic engine
    emits none of "Excessive URL Length", "Long URL" and "High Domain
    Entropy", whatever the URL is. *)
Theorem trusted_infra_suppresses_length_and_entropy (url : string) (urlObj : URL)
    (ls : list DetectionLayer) :
  new_URL url = Ok urlObj →
  isTrustedInfra (JS.toLowerCase (URLObj.hostname urlObj)) = true →
  HeuristicEngine.analyze url = Ok ls →
  Forall (λ l, method l ≠ "Excessive URL Length" ∧ method l ≠ "Long URL"
               ∧ method l ≠ "High Domain Entropy") ls.
Proof.
  intros Hp Htrusted Hls.
  cut (Forall (λ l, Forall (λ name, method l ≠ name)
                      [ "Excessive URL Length"; "Long URL"; "High Domain Entropy" ]) ls).
  { intros HF. eapply Forall_impl; [exact HF|]. intros l Hl.
    apply Forall_cons in Hl as [? Hl]. apply Forall_cons in Hl as [? Hl].
    apply Forall_cons in Hl as [? _]. auto. }
  revert Hls. unfold HeuristicEngine.analyze, exc_bind. rewrite Hp.
  intros <-%Ok_inj.
  cbv zeta. unfold isTrustedInfra in Htrusted. rewrite Htrusted.
  cbn [negb andb].
  repeat (apply Forall_app; split);
    try (apply domainRules_methods;
         intros Hin; repeat (apply elem_of_cons in Hin as [Hin|Hin]; [discriminate Hin|]);
         inversion Hin);
    methods_rule; try exact I.
Qed.

End Suppression.

(** A short host. *)
Lemma short_host_has_no_high_entropy_witness :
  Entropy.gt (HeuristicEngine.calculateEntropy "a1b2c3d4e5f6.io") 4 1 = false.
Proof.
  refine (proj1 (@short_host_has_no_high_entropy PlainURL.platform
                   "https://a1b2c3d4e5f6.io/x"
                   {| scheme := "https"; username := ""; password := "";
                      host := Some "a1b2c3d4e5f6.io"; port := None; path := "/x";
                      query := None; fragment := None |} _ _ _ _)).
  - vm_compute. reflexivity.
  - vm_compute. lia.
  - vm_compute. reflexivity.
Defined.

(** A long address with a random-looking host under github.io: of the
    rules, the one on keywords (in the host) is left. *)
Lemma trusted_infra_suppresses_length_and_entropy_witness :
  Forall (λ l, method l ≠ "Excessive URL Length" ∧ method l ≠ "Long URL"
               ∧ method l ≠ "High Domain Entropy")
    [ {| layer := heuristic; method := "Phishing Keywords"; score := 30;
         details := "Contains 1 phishing-related keyword(s) in hostname";
         matched := true |} ].
Proof.
  refine (@trusted_infra_suppresses_length_and_entropy PlainURL.platform
            "https://login.abcdefghijklmnopqrstuvwxyz.github.io/aaaaaaaaaaaaaaaaaaaaaaaaaaaaaaaaaaaaaaaaaaaaaaaaaaaaaaaaaaaaaaaaaaaaaaaaaaaaaaaaaaaaaaaaaaaaaaaaaaaaaaaaaaaaaaaaaaaaaaaaaaaaaaaaaaaaaaaaaaaa"
            {| scheme := "https"; username := ""; password := "";
               host := Some "login.abcdefghijklmnopqrstuvwxyz.github.io"; port := None;
               path := "/aaaaaaaaaaaaaaaaaaaaaaaaaaaaaaaaaaaaaaaaaaaaaaaaaaaaaaaaaaaaaaaaaaaaaaaaaaaaaaaaaaaaaaaaaaaaaaaaaaaaaaaaaaaaaaaaaaaaaaaaaaaaaaaaaaaaaaaaaaaa";
               query := None; fragment := None |} _ _ _ _).
  - vm_compute. reflexivity.
  - vm_compute. reflexivity.
  - vm_compute. reflexivity.
Defined.

Lemma find_is_Some {A} (f : A → bool) (l : list A) x :
  x ∈ l → f x = true → ∃ y, List.find f l = Some y ∧ y ∈ l ∧ f y = true.
Proof.
  induction l as [|a l IH]; intros Hin Hf; [inversion Hin|].
  cbn [List.find]. destruct (f a) eqn:Hfa.
  - exists a. split; [reflexivity|]. split; [left|exact Hfa].
  - apply elem_of_cons in Hin as [->|Hin]; [congruence|].
    destruct (IH Hin Hf) as (y & Hy & Hyl & Hfy). exists y.
    split; [exact Hy|]. split; [right; exact Hyl|exact Hfy].
Qed.

Lemma TARGETED_BRANDS_nonempty brand :
  brand ∈ CONFIG.TARGETED_BRANDS → String.eqb brand "" = false.
Proof.
  unfold CONFIG.TARGETED_BRANDS. intros Hin.
  repeat (apply elem_of_cons in Hin as [->|Hin]; [reflexivity|]).
  inversion Hin.
Qed.

Section Brands.
Context `{Platform}.

(** X16. A host that has the name of a targeted brand in it and does not
    end in "brand.com" is reported for brand impersonation, trusted
    infrastructure or not: the heuristic engine emits "Brand Impersonation"
    with score 50, naming one of the targeted brands. (So every address on
    googleapis.com or amazonaws.com carries this signal.) *)
Theorem brand_in_host_is_impersonation (url : string) (urlObj : URL) (brand : string) :
  new_URL url = Ok urlObj →
  brand ∈ CONFIG.TARGETED_BRANDS →
  JS.includes (JS.toLowerCase (URLObj.hostname urlObj)) brand = true →
  JS.endsWith (JS.toLowerCase (URLObj.hostname urlObj)) (brand +:+ ".com") = false →
  ∃ reported ls,
    reported ∈ CONFIG.TARGETED_BRANDS ∧
    HeuristicEngine.detectBrandImpersonation (URLObj.hostname urlObj) = Some reported ∧
    HeuristicEngine.analyze url = Ok ls ∧
    {| layer := heuristic; method := "Brand Impersonation"; score := 50;
       details := "Potential impersonation of " +:+ reported; matched := true |} ∈ ls.
Proof.
  intros Hp Hbrand Hin Hend.
  destruct (find_is_Some
              (HeuristicEngine.impersonates (JS.toLowerCase (URLObj.hostname urlObj)))
              CONFIG.TARGETED_BRANDS brand Hbrand) as (reported & Hfind & Hrep & _).
  { unfold HeuristicEngine.impersonates. rewrite Hin, Hend. reflexivity. }
  exists reported. eexists. split; [exact Hrep|]. split; [exact Hfind|].
  unfold HeuristicEngine.analyze, exc_bind. rewrite Hp. split; [reflexivity|].
  cbv zeta. rewrite (extractFeatures_brand url urlObj Hp).
  unfold HeuristicEngine.detectBrandImpersonation. rewrite Hfind.
  rewrite (TARGETED_BRANDS_nonempty _ Hrep).
  do 7 (apply elem_of_app; right). apply elem_of_app. left.
  apply list_elem_of_singleton. reflexivity.
Qed.

Lemma scoreLoop_heuristic ls t :
  Forall heuristic_signal ls →
  ThreatAnalyzer.scoreLoop ls t = (fold_left (λ sum l, sum + score l) ls t, false).
Proof.
  intros Hls. revert t. induction Hls as [|l ls (Hl & Hm & _) _ IH]; intros t; [reflexivity|].
  cbn [ThreatAnalyzer.scoreLoop fold_left].
  rewrite Hm, bool_decide_eq_false_2 by (rewrite Hl; discriminate).
  apply IH.
Qed.

Lemma matchedSum_heuristic ls t :
  Forall heuristic_signal ls →
  fold_left (λ total l, if matched l then total + score l else total) ls t
  = fold_left (λ sum l, sum + score l) ls t.
Proof.
  intros Hls. revert t. induction Hls as [|l ls (_ & Hm & _) _ IH]; intros t; [reflexivity|].
  cbn [fold_left]. rewrite Hm. apply IH.
Qed.

Lemma heuristic_no_external ls :
  Forall heuristic_signal ls →
  filter (λ l, ThreatAnalyzerPriority.isExternalAPI l = true) ls = [].
Proof.
  induction 1 as [|l ls (Hl & _ & _) _ IH]; [reflexivity|].
  rewrite filter_cons_False; [exact IH|].
  unfold ThreatAnalyzerPriority.isExternalAPI.
  rewrite bool_decide_eq_false_2 by (rewrite Hl; discriminate). discriminate.
Qed.

Lemma sum_scores_nonneg ls t :
  Forall heuristic_signal ls → t ≤ fold_left (λ sum l, sum + score l) ls t.
Proof.
  intros Hls. revert t. induction Hls as [|l ls (_ & _ & Hs) _ IH]; intros t; cbn [fold_left].
  - lia.
  - etrans; [|apply IH]. lia.
Qed.

(** X17. The capped sum of [calculateScore] is the score of the verdict
    when the signals of the heuristic engine are all there is to assess:
    on the signals that [HeuristicEngine.analyze] returns, [buildResult]
    of either revision gives [riskScore = calculateScore], which lies
    between 0 and 100, and is 0 only when no rule fired. *)
Theorem calculateScore_is_heuristic_riskScore (w : World) (url u : string)
    (ls : list DetectionLayer) :
  HeuristicEngine.analyze url = Ok ls →
  riskScore (ThreatAnalyzer.buildResult w u ls) = HeuristicEngine.calculateScore ls ∧
  riskScore (ThreatAnalyzerPriority.buildResult w u ls) = HeuristicEngine.calculateScore ls ∧
  0 ≤ HeuristicEngine.calculateScore ls ≤ 100 ∧
  (HeuristicEngine.calculateScore ls = 0 ↔ ls = []).
Proof.
  intros Hls%HeuristicEngine_analyze_signals.
  unfold HeuristicEngine.calculateScore.
  pose proof (sum_scores_nonneg ls 0 Hls) as Hnn.
  split; [|split; [|split]].
  - unfold ThreatAnalyzer.buildResult. rewrite (scoreLoop_heuristic ls 0 Hls). reflexivity.
  - unfold ThreatAnalyzerPriority.buildResult.
    rewrite (heuristic_no_external ls Hls). cbn [existsb].
    cbn [riskScore]. rewrite (matchedSum_heuristic ls 0 Hls). reflexivity.
  - lia.
  - split; [|intros ->; reflexivity].
    destruct Hls as [|l ls (_ & _ & Hs) Hls]; [reflexivity|].
    cbn [fold_left]. pose proof (sum_scores_nonneg ls (0 + score l) Hls). lia.
Qed.

(** X18. The proxy model fails open on a string that is not a URL: its
    feature vector is the default one, and [MLEngine.analyze] returns,
    without throwing, an unmatched signal with score 0 and 83% confidence. *)
Theorem MLEngine_analyze_malformed (url e : string) :
  new_URL url = Throw e →
  MLEngine.extractMLFeatures url = MLEngine.defaultVector ∧
  MLEngine.analyze url
  = {| layer := ml; method := "ML Model (83% confidence)"; score := 0;
       details := "ML prediction: 0/100 (confidence: 83%)"; matched := false |}.
Proof.
  intros Hp.
  assert (MLEngine.extractMLFeatures url = MLEngine.defaultVector) as Hv
    by (unfold MLEngine.extractMLFeatures; rewrite Hp; reflexivity).
  split; [exact Hv|].
  unfold MLEngine.analyze. rewrite Hv. vm_compute. reflexivity.
Qed.

End Brands.

(** An address of a Google API. *)
Lemma brand_in_host_is_impersonation_witness :
  ∃ reported ls,
    reported ∈ CONFIG.TARGETED_BRANDS ∧
    HeuristicEngine.detectBrandImpersonation "storage.googleapis.com" = Some reported ∧
    @HeuristicEngine.analyze PlainURL.platform "https://storage.googleapis.com/bucket" = Ok ls ∧
    {| layer := heuristic; method := "Brand Impersonation"; score := 50;
       details := "Potential impersonation of " +:+ reported; matched := true |} ∈ ls.
Proof.
  refine (@brand_in_host_is_impersonation PlainURL.platform
            "https://storage.googleapis.com/bucket"
            {| scheme := "https"; username := ""; password := "";
               host := Some "storage.googleapis.com"; port := None; path := "/bucket";
               query := None; fragment := None |} "google" _ _ _ _).
  - vm_compute. reflexivity.
  - apply (bool_decide_unpack _). vm_compute. exact I.
  - vm_compute. reflexivity.
  - vm_compute. reflexivity.
Defined.

(** A host with four hyphens: the one signal, Hyphen Spam, gives 18. *)
Lemma calculateScore_is_heuristic_riskScore_witness :
  riskScore (ThreatAnalyzer.buildResult quietWorld "u"
               [ {| layer := heuristic; method := "Hyphen Spam"; score := 18;
                    details := "Domain contains excessive hyphens"; matched := true |} ])
  = 18.
Proof.
  refine (proj1 (@calculateScore_is_heuristic_riskScore PlainURL.platform quietWorld
                   "https://a-b-c-d-e.org" "u" _ _)).
  vm_compute. reflexivity.
Defined.

(** A string without a scheme. *)
Lemma MLEngine_analyze_malformed_witness :
  matched (@MLEngine.analyze PlainURL.platform "not a url") = false.
Proof.
  rewrite (proj2 (@MLEngine_analyze_malformed PlainURL.platform "not a url" "Invalid URL"
                    eq_refl)).
  reflexivity.
Defined.

(* --------------------------------------------------------------------- *)
(** ** Verdicts of the two revisions                                      *)
(* --------------------------------------------------------------------- *)

Lemma is_malicious_level_threshold t :
  is_malicious_level (getRiskLevel t) = bool_decide (CONFIG.RISK_THRESHOLDS.HIGH ≤ t).
Proof.
  unfold is_malicious_level, getRiskLevel.
  unfold CONFIG.RISK_THRESHOLDS.CRITICAL, CONFIG.RISK_THRESHOLDS.HIGH,
    CONFIG.RISK_THRESHOLDS.MEDIUM, CONFIG.RISK_THRESHOLDS.LOW.
  repeat case_bool_decide; simpl; try reflexivity; try lia; try congruence.
Qed.

Lemma scoreLoop_no_signature ls t :
  ¬ Exists signatureMatched ls →
  ThreatAnalyzer.scoreLoop ls t = (matchedSum ls t, false).
Proof.
  revert t. induction ls as [|l ls IH]; intros t Hno; [reflexivity|].
  cbn [ThreatAnalyzer.scoreLoop matchedSum fold_left].
  destruct (bool_decide (layer l = signature) && matched l) eqn:Hc.
  - exfalso. apply Hno. left. apply andb_true_iff in Hc as [Hl Hm].
    apply bool_decide_eq_true_1 in Hl. split; assumption.
  - apply IH. intros Hex. apply Hno. right. exact Hex.
Qed.

Lemma external_detected_signature ls :
  existsb matched (filter (λ l, ThreatAnalyzerPriority.isExternalAPI l = true) ls) = true →
  Exists signatureMatched ls.
Proof.
  intros (l & Hin & Hm)%existsb_exists. apply Exists_exists. exists l.
  apply list_elem_of_In, list_elem_of_filter in Hin as [Hext Hin].
  split; [exact Hin|]. split; [|exact Hm].
  unfold ThreatAnalyzerPriority.isExternalAPI in Hext.
  apply andb_true_iff in Hext as [Hl _]. apply bool_decide_eq_true_1 in Hl. exact Hl.
Qed.

Lemma buildResult_layers w u ls :
  detectionLayers (ThreatAnalyzer.buildResult w u ls) = ls.
Proof.
  unfold ThreatAnalyzer.buildResult. destruct (ThreatAnalyzer.scoreLoop ls 0). reflexivity.
Qed.

Lemma priority_buildResult_layers w u ls :
  detectionLayers (ThreatAnalyzerPriority.buildResult w u ls) = ls.
Proof.
  unfold ThreatAnalyzerPriority.buildResult. destruct (existsb matched _); reflexivity.
Qed.

Lemma signature_verdict
    (build : World → string → list DetectionLayer → ThreatAnalysisResult) w u ls :
  priority (build w u ls) → detectionLayers (build w u ls) = ls →
  Exists signatureMatched ls → verdict (build w u ls) = (100, critical, true).
Proof.
  intros Hp Hl Hex. unfold verdict. rewrite <- Hl in Hex.
  destruct (Hp Hex) as (-> & -> & ->). reflexivity.
Qed.

Lemma buildResult_verdicts_agree w u ls :
  Forall layer_ok ls →
  verdict (ThreatAnalyzerPriority.buildResult w u ls)
  = verdict (ThreatAnalyzer.buildResult w u ls).
Proof.
  intros Hok. unfold verdict.
  destruct (decide (Exists signatureMatched ls)) as [Hex|Hno].
  - fold (verdict (ThreatAnalyzerPriority.buildResult w u ls)).
    fold (verdict (ThreatAnalyzer.buildResult w u ls)).
    rewrite !signature_verdict;
      auto using buildResult_priority, priority_buildResult_priority,
        buildResult_layers, priority_buildResult_layers.
  - unfold ThreatAnalyzer.buildResult, ThreatAnalyzerPriority.buildResult.
    rewrite (scoreLoop_no_signature ls 0 Hno).
    destruct (existsb matched _) eqn:Hext;
      [destruct (Hno (external_detected_signature ls Hext))|].
    reflexivity.
Qed.

(** X19. The revision of [buildResult] changes the wording of [details]
    and nothing else: on every list of collected signals (scores not
    negative, matched Signature signals scored 100) the two revisions give
    the same score, level and verdict, and list the same signals under the
    same URL and time. *)
Theorem revisions_build_the_same_verdict (w : World) (u : string)
    (ls : list DetectionLayer) :
  Forall layer_ok ls →
  let r := ThreatAnalyzer.buildResult w u ls in
  let r' := ThreatAnalyzerPriority.buildResult w u ls in
  riskScore r' = riskScore r ∧ riskLevel r' = riskLevel r ∧
  isMalicious r' = isMalicious r ∧ detectionLayers r' = detectionLayers r ∧
  url r' = url r ∧ timestamp r' = timestamp r.
Proof.
  intros Hok r r'.
  pose proof (buildResult_verdicts_agree w u ls Hok) as Hv. unfold verdict in Hv.
  injection Hv as Hs Hl Hm. fold r r' in Hs, Hl, Hm.
  repeat split; try assumption;
    subst r r'; unfold ThreatAnalyzer.buildResult, ThreatAnalyzerPriority.buildResult;
    destruct (ThreatAnalyzer.scoreLoop ls 0); destruct (existsb matched _); reflexivity.
Qed.

Lemma revisions_build_the_same_verdict_witness :
  riskScore (ThreatAnalyzerPriority.buildResult quietWorld "u"
               [ {| layer := signature; method := "Local Blacklist"; score := 100;
                    details := "Flagged as malicious by Local Blacklist"; matched := true |};
                 {| layer := ml; method := "ML Model (75% confidence)"; score := 17;
                    details := "ML prediction: 17/100 (confidence: 75%)"; matched := false |} ])
  = riskScore (ThreatAnalyzer.buildResult quietWorld "u"
               [ {| layer := signature; method := "Local Blacklist"; score := 100;
                    details := "Flagged as malicious by Local Blacklist"; matched := true |};
                 {| layer := ml; method := "ML Model (75% confidence)"; score := 17;
                    details := "ML prediction: 17/100 (confidence: 75%)"; matched := false |} ]).
Proof.
  refine (proj1 (revisions_build_the_same_verdict quietWorld "u" _ _)).
  repeat constructor; simpl; try lia; intros [? ?]; try discriminate; reflexivity.
Defined.

Section Agreement.
Context `{Platform}.

Lemma signature_layers_signature w n st :
  Forall (λ l, layer l = signature) (SignatureEngine.checkAllAPIs w n st).1.
Proof.
  eapply Forall2_Forall_r; [apply checkAllAPIs_signals|].
  apply Forall_forall. intros r _ l (Hl & _). exact Hl.
Qed.

(** X20. Returning early changes the list of signals, never the verdict:
    in the same state, for the same URL and the same answers of the
    outside world, the analyzer that returns on a signature match and the
    one that runs every layer give the same [riskScore], [riskLevel] and
    [isMalicious]. *)
Theorem analyzers_agree_on_verdict (w : World) (st : State) (url : string) :
  verdict (ThreatAnalyzerPriority.analyze w st url).1
  = verdict (ThreatAnalyzer.analyze w st url).1.
Proof.
  unfold ThreatAnalyzer.analyze, ThreatAnalyzer.analyze_try,
    ThreatAnalyzerPriority.analyze, ThreatAnalyzerPriority.analyze_try.
  cbv zeta.
  destruct (new_URL (normalizeURL url)) as [parsed|e] eqn:Hp; [|reflexivity].
  case_bool_decide; [reflexivity|].
  destruct (cachedResult w st (normalizeURL url)); [reflexivity|].
  pose proof (signature_layers_ok w (normalizeURL url) (apis st)) as Hok.
  pose proof (signature_layers_signature w (normalizeURL url) (apis st)) as Hsig.
  destruct (HeuristicEngine_analyze_returns _ _ Hp) as [hs Hhs].
  pose proof (collected_ok w (normalizeURL url) (apis st) hs Hhs) as Hall.
  destruct (SignatureEngine.checkAllAPIs w (normalizeURL url) (apis st)) as [sigs a].
  cbn [fst] in *. rewrite Hhs.
  destruct (bool_decide (0 < length sigs)%nat && existsb matched sigs) eqn:Hearly;
    cbn [try_catch fst]; [|apply buildResult_verdicts_agree, Hall].
  apply andb_true_iff in Hearly as [_ (l & Hin & Hm)%existsb_exists].
  apply list_elem_of_In in Hin.
  assert (Exists signatureMatched sigs) as Hex.
  { apply Exists_exists. exists l. split; [exact Hin|].
    split; [|exact Hm]. eapply Forall_forall in Hsig; eassumption. }
  rewrite !signature_verdict;
    auto using buildResult_priority, priority_buildResult_priority,
      buildResult_layers, priority_buildResult_layers.
  apply Exists_app. left. exact Hex.
Qed.

Lemma reachable_results (P : ThreatAnalysisResult → Prop) analyze build :
  (∀ w u ls, Forall layer_ok ls → P (build w u ls)) →
  (∀ w n, P (whitelistedResult w n)) →
  (∀ w u e, P (errorResult w u e)) →
  (∀ w st url, outcome build w st url (analyze w st url)) →
  ∀ st, reachable analyze st →
    (∀ k e, (k, e) ∈ cache st → P (result e)) ∧ ∀ w url, P (analyze w st url).1.
Proof.
  intros Hbuild Hwl Herr Hout.
  assert (∀ w st url run, (∀ k e, (k, e) ∈ cache st → P (result e)) →
            outcome build w st url run →
            P run.1 ∧ ∀ k e, (k, e) ∈ cache run.2 → P (result e)) as Hstep.
  { intros w st url run Hinv Hrun.
    destruct Hrun as [e _|parsed _ _|parsed r _ _ Hc|parsed ls _ _ _ Hok]; cbn [fst snd].
    - auto.
    - auto.
    - split; [|exact Hinv]. apply cachedResult_elem in Hc as (e & Hin & ->). eauto.
    - split; [auto|]. intros k e [Hin| ->]%cacheResult_elem; eauto. }
  assert (∀ st, reachable analyze st → ∀ k e, (k, e) ∈ cache st → P (result e)) as Hinv.
  { intros st Hreach. induction Hreach as [|w st url _ IH|d st _ IH|d st _ IH|st _ IH].
    - intros k e Hin. inversion Hin.
    - apply (Hstep w st url _ IH (Hout w st url)).
    - exact IH.
    - exact IH.
    - intros k e Hin. inversion Hin. }
  intros st Hreach. split; [apply Hinv, Hreach|].
  intros w url. apply (Hstep w st url _ (Hinv st Hreach) (Hout w st url)).
Qed.

(** X21. The level and the verdict are functions of the score. Whatever
    the analyzer returns (a fresh result, a cached one, the whitelist or
    the error verdict), in every state that it can be in: [riskLevel] is
    [getRiskLevel riskScore], and [isMalicious] holds exactly when the
    score has reached the threshold [HIGH], 60. Both revisions. *)
Theorem level_and_verdict_follow_score (w : World) (st : State) (url : string) :
  (reachable ThreatAnalyzer.analyze st →
   let r := (ThreatAnalyzer.analyze w st url).1 in
   riskLevel r = getRiskLevel (riskScore r) ∧
   (isMalicious r = true ↔ 60 ≤ riskScore r)) ∧
  (reachable ThreatAnalyzerPriority.analyze st →
   let r := (ThreatAnalyzerPriority.analyze w st url).1 in
   riskLevel r = getRiskLevel (riskScore r) ∧
   (isMalicious r = true ↔ 60 ≤ riskScore r)).
Proof.
  set (P := λ r, riskLevel r = getRiskLevel (riskScore r) ∧
                 (isMalicious r = true ↔ 60 ≤ riskScore r)).
  assert (∀ t, is_malicious_level (getRiskLevel t) = true ↔ 60 ≤ t) as Hth.
  { intros t. rewrite is_malicious_level_threshold. apply bool_decide_eq_true. }
  assert (∀ w n, P (whitelistedResult w n)) as Hwl
    by (intros; split; [reflexivity|cbn; split; [discriminate|lia]]).
  assert (∀ w u e, P (errorResult w u e)) as Herr
    by (intros; split; [reflexivity|cbn; split; [discriminate|lia]]).
  split; intros Hreach.
  - apply (reachable_results P ThreatAnalyzer.analyze ThreatAnalyzer.buildResult);
      try assumption; [|apply analyze_outcome].
    intros w0 u ls _. unfold P, ThreatAnalyzer.buildResult.
    destruct (ThreatAnalyzer.scoreLoop ls 0) as [t b]. cbn [riskLevel riskScore isMalicious].
    split; [reflexivity|apply Hth].
  - apply (reachable_results P ThreatAnalyzerPriority.analyze
             ThreatAnalyzerPriority.buildResult);
      try assumption; [|apply priority_analyze_outcome].
    intros w0 u ls _. unfold P, ThreatAnalyzerPriority.buildResult.
    destruct (existsb matched _); cbn [riskLevel riskScore isMalicious].
    + split; [reflexivity|]. split; [lia|reflexivity].
    + split; [reflexivity|apply Hth].
Qed.

Lemma matchedSum_none ls t :
  Forall (λ l, matched l = false) ls → matchedSum ls t = t.
Proof.
  intros Hno. revert t. induction Hno as [|l ls Hm _ IH]; intros t; [reflexivity|].
  cbn [matchedSum fold_left]. rewrite Hm. apply IH.
Qed.

(** X22. No matched signal, no alarm: in every state that the analyzer can
    be in, a result none of whose signals is matched has score 0, level
    [safe] and is not malicious. Both revisions. *)
Theorem unmatched_signals_are_safe (w : World) (st : State) (url : string) :
  (reachable ThreatAnalyzer.analyze st →
   let r := (ThreatAnalyzer.analyze w st url).1 in
   Forall (λ l, matched l = false) (detectionLayers r) →
   riskScore r = 0 ∧ riskLevel r = safe ∧ isMalicious r = false) ∧
  (reachable ThreatAnalyzerPriority.analyze st →
   let r := (ThreatAnalyzerPriority.analyze w st url).1 in
   Forall (λ l, matched l = false) (detectionLayers r) →
   riskScore r = 0 ∧ riskLevel r = safe ∧ isMalicious r = false).
Proof.
  set (P := λ r, Forall (λ l, matched l = false) (detectionLayers r) →
                 riskScore r = 0 ∧ riskLevel r = safe ∧ isMalicious r = false).
  assert (∀ ls, Forall (λ l, matched l = false) ls → ¬ Exists signatureMatched ls) as Hnosig.
  { intros ls Hno (l & Hin & _ & Hm)%Exists_exists.
    eapply Forall_forall in Hno; [|exact Hin]. congruence. }
  assert (∀ w n, P (whitelistedResult w n)) as Hwl by (intros w0 n _; auto).
  assert (∀ w u e, P (errorResult w u e)) as Herr by (intros w0 u e _; auto).
  split; intros Hreach.
  - apply (reachable_results P ThreatAnalyzer.analyze ThreatAnalyzer.buildResult);
      try assumption; [|apply analyze_outcome].
    intros w0 u ls _ Hno. unfold ThreatAnalyzer.buildResult in *.
    destruct (ThreatAnalyzer.scoreLoop ls 0) as [t b] eqn:Hloop.
    cbn [detectionLayers] in Hno.
    rewrite (scoreLoop_no_signature ls 0 (Hnosig ls Hno)), (matchedSum_none ls 0 Hno) in Hloop.
    injection Hloop as <- <-. auto.
  - apply (reachable_results P ThreatAnalyzerPriority.analyze
             ThreatAnalyzerPriority.buildResult);
      try assumption; [|apply priority_analyze_outcome].
    intros w0 u ls _ Hno. unfold ThreatAnalyzerPriority.buildResult in *.
    destruct (existsb matched _) eqn:Hext.
    + destruct (Hnosig ls Hno (external_detected_signature ls Hext)).
    + pose proof (matchedSum_none ls 0 Hno) as Hsum. unfold matchedSum in Hsum.
      cbn [riskScore riskLevel isMalicious]. rewrite Hsum. auto.
Qed.

End Agreement.

Lemma level_and_verdict_follow_score_witness :
  let r := (@ThreatAnalyzer.analyze PlainURL.platform quietWorld initial
              "http://192.168.1.1/login").1 in
  riskLevel r = getRiskLevel (riskScore r) ∧ (isMalicious r = true ↔ 60 ≤ riskScore r).
Proof.
  apply (proj1 (@level_and_verdict_follow_score PlainURL.platform quietWorld initial
                  "http://192.168.1.1/login")).
  apply reachable_initial.
Defined.

Lemma unmatched_signals_are_safe_witness :
  let r := (@ThreatAnalyzer.analyze PlainURL.platform quietWorld initial
              "https://google.com").1 in
  riskScore r = 0 ∧ riskLevel r = safe ∧ isMalicious r = false.
Proof.
  apply (proj1 (@unmatched_signals_are_safe PlainURL.platform quietWorld initial
                  "https://google.com")).
  - apply reachable_initial.
  - apply (bool_decide_unpack _). vm_compute. exact I.
Defined.

(* --------------------------------------------------------------------- *)
(** ** The size of the cache                                              *)
(* --------------------------------------------------------------------- *)

Lemma JSMap_set_keys {V} (m : list (string * V)) k v :
  (JSMap.set m k v).*1 = if bool_decide (k ∈ m.*1) then m.*1 else m.*1 ++ [k].
Proof.
  induction m as [|[k0 v0] m IH]; [reflexivity|].
  cbn [JSMap.set]. destruct (String.eqb_spec k0 k) as [->|Hne].
  - rewrite bool_decide_eq_true_2 by (rewrite fmap_cons; left). reflexivity.
  - rewrite !fmap_cons, IH. cbn [fst].
    destruct (decide (k ∈ m.*1)) as [Hin|Hin].
    + rewrite !bool_decide_eq_true_2; [reflexivity|right; exact Hin|exact Hin].
    + rewrite !bool_decide_eq_false_2; [reflexivity| |exact Hin].
      intros [?|?]%elem_of_cons; congruence.
Qed.

Lemma JSMap_set_NoDup {V} (m : list (string * V)) k v :
  NoDup m.*1 → NoDup (JSMap.set m k v).*1.
Proof.
  intros Hnd. rewrite JSMap_set_keys. case_bool_decide as Hin; [exact Hnd|].
  apply NoDup_app. split; [exact Hnd|]. split; [|apply NoDup_singleton].
  intros x Hx ->%list_elem_of_singleton. contradiction.
Qed.

Lemma JSMap_set_size {V} (m : list (string * V)) k v :
  JSMap.size m ≤ JSMap.size (JSMap.set m k v) ≤ JSMap.size m + 1.
Proof.
  unfold JSMap.size.
  rewrite <- (length_fmap fst (JSMap.set m k v)), JSMap_set_keys, <- (length_fmap fst m).
  case_bool_decide; [lia|]. rewrite length_app. simpl. lia.
Qed.

Lemma JSMap_keys_inj {V} (m : list (string * V)) k v v' :
  NoDup m.*1 → (k, v) ∈ m → (k, v') ∈ m → v = v'.
Proof.
  induction m as [|[k0 v0] m IH]; [intros _ Hin; inversion Hin|].
  rewrite fmap_cons. intros [Hk0 Hnd]%NoDup_cons.
  intros [Heq|Hin]%elem_of_cons [Heq'|Hin']%elem_of_cons.
  - congruence.
  - destruct Hk0. apply (list_elem_of_fmap_2 fst) in Hin'.
    replace k0 with k by congruence. exact Hin'.
  - destruct Hk0. apply (list_elem_of_fmap_2 fst) in Hin.
    replace k0 with k by congruence. exact Hin.
  - auto.
Qed.

Lemma JSMap_get_NoDup {V} (m : list (string * V)) k v :
  NoDup m.*1 → (k, v) ∈ m → JSMap.get m k = Some v.
Proof.
  induction m as [|[k0 v0] m IH]; [intros _ Hin; inversion Hin|].
  rewrite fmap_cons. intros [Hk0 Hnd]%NoDup_cons Hin. cbn [JSMap.get].
  destruct (String.eqb_spec k0 k) as [->|Hne].
  - apply elem_of_cons in Hin as [[= ->]|Hin]; [reflexivity|].
    destruct Hk0. apply (list_elem_of_fmap_2 fst) in Hin. exact Hin.
  - apply elem_of_cons in Hin as [[= ? ?]|Hin]; [congruence|auto].
Qed.

Lemma JSMap_get_None {V} (m : list (string * V)) k :
  k ∉ m.*1 → JSMap.get m k = None.
Proof.
  induction m as [|[k0 v0] m IH]; [reflexivity|].
  rewrite fmap_cons. intros Hk. cbn [JSMap.get].
  destruct (String.eqb_spec k0 k) as [->|Hne]; [destruct Hk; left|].
  apply IH. intros Hin. apply Hk. right. exact Hin.
Qed.

(** The entries that [toRemove.forEach(([key]) => this.cache.delete(key))]
    leaves. *)
Lemma evict_filter (toRemove c : list (string * CacheEntry)) :
  fold_left (λ c e, JSMap.delete c e.1) toRemove c
  = filter (λ x, x.1 ∉ toRemove.*1) c.
Proof.
  revert c. induction toRemove as [|e es IH]; intros c; cbn [fold_left].
  - symmetry. induction c as [|x c IHc]; [reflexivity|].
    rewrite filter_cons_True by (intros Hin; inversion Hin). congruence.
  - rewrite IH. unfold JSMap.delete. rewrite list_filter_filter.
    apply list_filter_iff. intros x. rewrite fmap_cons, not_elem_of_cons. tauto.
Qed.

Lemma insert_by_timestamp_perm x l : insert_by_timestamp x l ≡ₚ x :: l.
Proof.
  induction l as [|y l IH]; [reflexivity|]. cbn [insert_by_timestamp].
  destruct (_ <=? _); [|reflexivity]. rewrite IH. apply Permutation_swap.
Qed.

Lemma sort_by_timestamp_perm l : sort_by_timestamp l ≡ₚ l.
Proof.
  unfold sort_by_timestamp.
  assert (∀ acc, fold_left (λ acc x, insert_by_timestamp x acc) l acc ≡ₚ l ++ acc) as Hgen.
  { induction l as [|x l IH]; intros acc; [reflexivity|]. cbn [fold_left].
    rewrite IH, insert_by_timestamp_perm. symmetry. apply Permutation_middle. }
  rewrite Hgen, app_nil_r. reflexivity.
Qed.

Lemma insert_by_timestamp_sorted x l :
  StronglySorted older l → StronglySorted older (insert_by_timestamp x l).
Proof.
  induction 1 as [|y l Hs IH Hy]; cbn [insert_by_timestamp]; [repeat constructor|].
  destruct (Z.leb_spec (entry_timestamp y.2) (entry_timestamp x.2)) as [Hle|Hlt].
  - constructor; [exact IH|]. rewrite insert_by_timestamp_perm.
    constructor; [exact Hle|exact Hy].
  - constructor; [constructor; assumption|].
    constructor; [unfold older; lia|].
    eapply Forall_impl; [exact Hy|]. unfold older. intros z Hz. lia.
Qed.

Lemma sort_by_timestamp_sorted l : StronglySorted older (sort_by_timestamp l).
Proof.
  unfold sort_by_timestamp.
  assert (∀ acc, StronglySorted older acc →
            StronglySorted older (fold_left (λ acc x, insert_by_timestamp x acc) l acc)) as Hgen.
  { induction l as [|x l IH]; intros acc Hacc; [exact Hacc|].
    cbn [fold_left]. apply IH, insert_by_timestamp_sorted, Hacc. }
  apply Hgen. constructor.
Qed.

Lemma sorted_prefix_in (c : list (string * CacheEntry)) n x :
  x ∈ take n (sort_by_timestamp c) → x ∈ c.
Proof.
  intros Hx. rewrite <- (sort_by_timestamp_perm c). eapply subseteq_take, Hx.
Qed.

Lemma toRemove_spec (c : list (string * CacheEntry)) n x :
  NoDup c.*1 → x ∈ c →
  x.1 ∈ (take n (sort_by_timestamp c)).*1 ↔ x ∈ take n (sort_by_timestamp c).
Proof.
  intros Hnd Hx. split; [|apply list_elem_of_fmap_2].
  intros ([k e] & Hk & Hy)%list_elem_of_fmap. cbn in Hk.
  pose proof (sorted_prefix_in c n _ Hy) as Hc.
  destruct x as [k' e']. cbn in Hk. subst k'.
  rewrite (JSMap_keys_inj c k e' e Hnd Hx Hc). exact Hy.
Qed.

Lemma evicted_length (c : list (string * CacheEntry)) n :
  NoDup c.*1 → (n ≤ length c)%nat →
  (length (fold_left (λ c e, JSMap.delete c e.1) (take n (sort_by_timestamp c)) c) + n
   = length c)%nat.
Proof.
  intros Hnd Hn. rewrite evict_filter. set (toRemove := take n (sort_by_timestamp c)).
  pose proof (filter_app_complement (λ x : string * CacheEntry, x.1 ∉ toRemove.*1) c) as Hsplit.
  apply Permutation_length in Hsplit. rewrite length_app in Hsplit.
  assert (filter (λ x : string * CacheEntry, ¬ (x.1 ∉ toRemove.*1)) c ≡ₚ toRemove) as Hrem.
  { assert (NoDup c) as Hc by (eapply NoDup_fmap_1, Hnd).
    apply NoDup_Permutation.
    - apply NoDup_filter, Hc.
    - eapply sublist_NoDup; [|apply sublist_take].
      rewrite sort_by_timestamp_perm. exact Hc.
    - intros x. rewrite list_elem_of_filter. split.
      + intros [Hin Hx]. apply toRemove_spec; [assumption..|].
        destruct (decide (x.1 ∈ toRemove.*1)); tauto.
      + intros Hx. pose proof (sorted_prefix_in c n x Hx) as Hxc.
        split; [|exact Hxc]. intros Hno. apply Hno, toRemove_spec; assumption. }
  apply Permutation_length in Hrem. rewrite Hrem in Hsplit.
  subst toRemove. rewrite length_take in Hsplit.
  rewrite (Permutation_length (sort_by_timestamp_perm c)) in Hsplit. lia.
Qed.

Lemma evicted_NoDup (toRemove c : list (string * CacheEntry)) :
  NoDup c.*1 → NoDup (fold_left (λ c e, JSMap.delete c e.1) toRemove c).*1.
Proof.
  intros Hnd. rewrite evict_filter.
  eapply sublist_NoDup; [exact Hnd|]. apply fmap_sublist, sublist_filter.
Qed.

Lemma evict_count : Z.of_nat (Z.to_nat (CONFIG.CACHE.MAX_CACHE_SIZE * 2 / 10)) = 2000.
Proof. rewrite Z2Nat.id; [reflexivity|]. vm_compute. discriminate. Qed.

(** What [cacheResult] does to the size of a [Map]: one entry more at
    most below the limit, and 2000 entries less before the new one is set
    at the limit. *)
Lemma cacheResult_size w u r c :
  NoDup c.*1 →
  NoDup (cacheResult w u r c).*1 ∧
  (JSMap.size c < CONFIG.CACHE.MAX_CACHE_SIZE →
   JSMap.size c ≤ JSMap.size (cacheResult w u r c) ≤ JSMap.size c + 1) ∧
  (CONFIG.CACHE.MAX_CACHE_SIZE ≤ JSMap.size c →
   JSMap.size c - 2000 ≤ JSMap.size (cacheResult w u r c) ≤ JSMap.size c - 1999).
Proof.
  intros Hnd. unfold cacheResult. cbv zeta.
  pose proof evict_count as Hcount. revert Hcount.
  generalize (Z.to_nat (CONFIG.CACHE.MAX_CACHE_SIZE * 2 / 10)). intros n Hcount.
  case_bool_decide as Hfull.
  - split; [apply JSMap_set_NoDup, evicted_NoDup, Hnd|]. split; [lia|]. intros _.
    assert (n ≤ length c)%nat as Hn.
    { unfold JSMap.size, CONFIG.CACHE.MAX_CACHE_SIZE in Hfull. lia. }
    pose proof (evicted_length c n Hnd Hn) as Hlen.
    pose proof (JSMap_set_size
      (fold_left (λ c e, JSMap.delete c e.1) (take n (sort_by_timestamp c)) c)
      u {| result := r; entry_timestamp := now w |}) as Hset.
    unfold JSMap.size in *. lia.
  - split; [apply JSMap_set_NoDup, Hnd|]. split; [|lia]. intros _.
    apply JSMap_set_size.
Qed.

Section Reachable.
Context `{Platform}.

Lemma reachable_cache (Q : list (string * CacheEntry) → Prop) analyze build :
  Q [] → (∀ w u r c, Q c → Q (cacheResult w u r c)) →
  (∀ w st url, outcome build w st url (analyze w st url)) →
  ∀ st, reachable analyze st → Q (cache st).
Proof.
  intros Hnil Hstep Hout st Hreach.
  induction Hreach as [|w st url _ IH|d st _ IH|d st _ IH|st _ IH];
    [exact Hnil| |exact IH|exact IH|exact Hnil].
  destruct (Hout w st url); cbn [snd]; try exact IH. apply Hstep, IH.
Qed.

(** X23. The cache is bounded: in every state that the analyzer can be
    in, the cache holds no URL twice and at most [MAX_CACHE_SIZE], 10000,
    entries. Both revisions. *)
Theorem cache_is_bounded (st : State) :
  reachable ThreatAnalyzer.analyze st ∨ reachable ThreatAnalyzerPriority.analyze st →
  NoDup (cache st).*1 ∧ JSMap.size (cache st) ≤ CONFIG.CACHE.MAX_CACHE_SIZE.
Proof.
  set (Q := λ c : list (string * CacheEntry),
              NoDup c.*1 ∧ JSMap.size c ≤ CONFIG.CACHE.MAX_CACHE_SIZE).
  assert (Q []) as Hnil.
  { split; [constructor|]. unfold JSMap.size, CONFIG.CACHE.MAX_CACHE_SIZE. simpl. lia. }
  assert (∀ w u r c, Q c → Q (cacheResult w u r c)) as Hstep.
  { intros w u r c [Hnd Hsize].
    destruct (cacheResult_size w u r c Hnd) as (Hnd' & Hbelow & Hfull).
    split; [exact Hnd'|].
    destruct (decide (JSMap.size c < CONFIG.CACHE.MAX_CACHE_SIZE)) as [Hlt|Hge].
    - specialize (Hbelow Hlt). lia.
    - specialize (Hfull ltac:(lia)). lia. }
  intros [Hreach|Hreach].
  - eapply (reachable_cache Q); eauto using analyze_outcome.
  - eapply (reachable_cache Q); eauto using priority_analyze_outcome.
Qed.

End Reachable.

(** A run that reaches the limit: the addresses are parsed as they are
    written, so that each has an entry of its own. *)
Lemma append_cons c s t : String c s +:+ t = String c (s +:+ t).
Proof. reflexivity. Qed.

Lemma ones_snoc n : ∃ s, ones n = s +:+ "1".
Proof.
  induction n as [|n [s IH]]; [exists ""; reflexivity|].
  exists (String "1" s). rewrite append_cons. cbn [ones]. f_equal. exact IH.
Qed.

Lemma rev_app_snoc s c acc :
  String.rev_app (s +:+ String c "") acc = String c (String.rev_app s acc).
Proof.
  revert acc. induction s as [|d s IH]; intros acc; [reflexivity|].
  rewrite append_cons. cbn [String.rev_app]. apply IH.
Qed.

Lemma append_assoc' (a b c : string) : (a +:+ b) +:+ c = a +:+ (b +:+ c).
Proof.
  induction a as [|x a IH]; [reflexivity|]. rewrite !append_cons. f_equal. exact IH.
Qed.

Lemma append_nil_r' (a : string) : a +:+ "" = a.
Proof.
  induction a as [|x a IH]; [reflexivity|]. rewrite append_cons. f_equal. exact IH.
Qed.

Lemma ones_all_class (p : ascii → bool) n :
  p "1"%char = true → forallb p (JS.chars (ones n)) = true.
Proof.
  intros Hp. unfold JS.chars in *.
  induction n as [|n IH]; cbn; rewrite Hp; [reflexivity|exact IH].
Qed.

Lemma span_until_ones (stop : ascii → bool) n :
  stop "1"%char = false → PlainURL.span_until stop (ones n) = (ones n, "").
Proof.
  intros Hs. induction n as [|n IH]; cbn; rewrite Hs; [reflexivity|].
  rewrite IH. reflexivity.
Qed.

Lemma split_ones n : JS.split "/"%char (ones n) = [ones n].
Proof.
  induction n as [|n IH]; [reflexivity|].
  cbn [ones JS.split]. rewrite IH. reflexivity.
Qed.

Lemma toLowerCase_ones n : JS.toLowerCase (ones n) = ones n.
Proof. induction n as [|n IH]; [reflexivity|]. cbn. f_equal. exact IH. Qed.

Lemma ones_inj i j : ones i = ones j → i = j.
Proof.
  revert j. induction i as [|i IH]; intros [|j]; cbn; try reflexivity.
  - destruct j; discriminate.
  - destruct i; discriminate.
  - intros [= Heq]. f_equal. apply IH, Heq.
Qed.

Lemma address_inj i j : address i = address j → i = j.
Proof. unfold address. cbv [String.append]. intros [= Heq]. apply ones_inj, Heq. Qed.

Ltac eval_lower :=
  repeat match goal with
  | |- context [JS.lower_char ?c] =>
      let v := eval vm_compute in (JS.lower_char c) in
      change (JS.lower_char c) with v
  end.

Lemma parse_plain_path x :
  JS.all_class PlainURL.allowed x = true →
  PlainURL.span_until (PlainURL.is_one_of "?#") x = (x, "") →
  PlainURL.path_ok (String "/" x) = true →
  PlainURL.parse ("http://a.io/" +:+ x)
  = Ok {| scheme := "http"; username := ""; password := ""; host := Some "a.io";
          port := None; path := String "/" x; query := None; fragment := None |}.
Proof.
  intros Ha Hs Hp. unfold PlainURL.parse.
  change (JS.all_class PlainURL.allowed ("http://a.io/" +:+ x))
    with (JS.all_class PlainURL.allowed x).
  rewrite Ha. cbv [String.append]. cbn. eval_lower. cbn.
  rewrite Hs. cbv beta iota zeta. rewrite Hp. reflexivity.
Qed.

Lemma dot_segment_ones n : PlainURL.dot_segment (ones n) = false.
Proof. destruct n; reflexivity. Qed.

Lemma parse_address n :
  PlainURL.parse (address n)
  = Ok {| scheme := "http"; username := ""; password := ""; host := Some "a.io";
          port := None; path := String "/" (ones n); query := None; fragment := None |}.
Proof.
  apply parse_plain_path.
  - apply ones_all_class. reflexivity.
  - apply span_until_ones. reflexivity.
  - unfold PlainURL.path_ok.
    change (JS.split "/"%char (String "/" (ones n))) with ("" :: JS.split "/"%char (ones n)).
    rewrite split_ones. cbn [existsb]. rewrite dot_segment_ones. reflexivity.
Qed.

Lemma toLowerCase_app a b : JS.toLowerCase (a +:+ b) = JS.toLowerCase a +:+ JS.toLowerCase b.
Proof.
  induction a as [|c a IH]; [reflexivity|].
  rewrite append_cons. cbn [JS.toLowerCase]. rewrite append_cons. f_equal. exact IH.
Qed.

Lemma normalizeURL_address n : @normalizeURL PlainURL.platform (address n) = address n.
Proof.
  unfold normalizeURL. change (@new_URL PlainURL.platform) with PlainURL.parse.
  rewrite parse_address. cbv zeta.
  assert (URLObj.href (URLObj.clear_hash
            {| scheme := "http"; username := ""; password := ""; host := Some "a.io";
               port := None; path := String "/" (ones n); query := None;
               fragment := None |}) = address n) as ->.
  { unfold URLObj.href, URLObj.clear_hash, URLObj.protocol. cbn.
    rewrite !append_nil_r'. reflexivity. }
  assert (JS.endsWith (address n) "/" = false) as ->.
  { unfold JS.endsWith, address, String.rev. destruct (ones_snoc n) as [s ->].
    rewrite <- append_assoc', rev_app_snoc. reflexivity. }
  unfold address. rewrite toLowerCase_app, toLowerCase_ones. reflexivity.
Qed.

Lemma visited_S n : visited (S n) = visit (visited n) n.
Proof. unfold visited. rewrite seq_S, fold_left_app. reflexivity. Qed.

Lemma reachable_visited n :
  reachable (@ThreatAnalyzer.analyze PlainURL.platform) (visited n).
Proof.
  induction n as [|n IH]; [apply reachable_initial|].
  rewrite visited_S. apply reachable_analyze, IH.
Qed.

(** An address that is not in the cache is analysed and cached. *)
Lemma visit_fresh st n :
  whitelist st = ∅ → address n ∉ (cache st).*1 →
  ∃ r a, visit st n
         = with_cache (with_apis st a) (cacheResult quietWorld (address n) r (cache st)).
Proof.
  intros Hwl Hnew. unfold visit.
  pose proof (@analyze_outcome PlainURL.platform quietWorld st (address n)) as Hout.
  eapply (outcome_fresh_inv (H := PlainURL.platform)) in Hout as (ls & a & ->).
  - rewrite normalizeURL_address. cbn [snd]. eauto.
  - rewrite normalizeURL_address. exact (parse_address n).
  - rewrite Hwl. apply not_elem_of_empty.
  - rewrite normalizeURL_address. unfold cachedResult.
    rewrite (JSMap_get_None _ _ Hnew). reflexivity.
Qed.

Lemma address_new n : address n ∉ address <$> seq 0 n.
Proof.
  intros (j & Heq & Hj)%list_elem_of_fmap. apply address_inj in Heq. subst j.
  apply elem_of_seq in Hj. lia.
Qed.

(** Below the limit every address visited has its entry. *)
Lemma visited_keys n :
  Z.of_nat n ≤ CONFIG.CACHE.MAX_CACHE_SIZE →
  whitelist (visited n) = ∅ ∧ (cache (visited n)).*1 = address <$> seq 0 n.
Proof.
  induction n as [|n IH]; [intros _; split; reflexivity|]. intros Hn.
  destruct IH as [Hwl Hkeys]; [lia|].
  destruct (visit_fresh (visited n) n Hwl) as (r & a & Hvisit);
    [rewrite Hkeys; apply address_new|].
  rewrite visited_S, Hvisit. split; [exact Hwl|].
  cbn [cache with_cache]. unfold cacheResult. cbv zeta.
  rewrite bool_decide_eq_false_2.
  - rewrite JSMap_set_keys, Hkeys, bool_decide_eq_false_2 by apply address_new.
    rewrite seq_S, fmap_app. reflexivity.
  - unfold JSMap.size. rewrite <- (length_fmap fst), Hkeys, length_fmap, length_seq. lia.
Qed.

(** The address after the last one that fits evicts a fifth of the cache. *)
Lemma visited_evicts :
  let full := visited (Z.to_nat CONFIG.CACHE.MAX_CACHE_SIZE) in
  let next := visited (S (Z.to_nat CONFIG.CACHE.MAX_CACHE_SIZE)) in
  JSMap.size (cache full) = CONFIG.CACHE.MAX_CACHE_SIZE ∧
  8000 ≤ JSMap.size (cache next) ≤ 8001.
Proof.
  cbv zeta. set (N := Z.to_nat CONFIG.CACHE.MAX_CACHE_SIZE).
  assert (Z.of_nat N = CONFIG.CACHE.MAX_CACHE_SIZE) as HN
    by (subst N; rewrite Z2Nat.id; [reflexivity|unfold CONFIG.CACHE.MAX_CACHE_SIZE; lia]).
  destruct (visited_keys N) as [Hwl Hkeys]; [lia|].
  assert (JSMap.size (cache (visited N)) = CONFIG.CACHE.MAX_CACHE_SIZE) as Hfull.
  { unfold JSMap.size. rewrite <- (length_fmap fst), Hkeys, length_fmap, length_seq.
    exact HN. }
  split; [exact Hfull|].
  destruct (visit_fresh (visited N) N Hwl) as (r & a & Hvisit);
    [rewrite Hkeys; apply address_new|].
  rewrite visited_S, Hvisit. cbn [cache with_cache].
  assert (NoDup (cache (visited N)).*1) as Hnd.
  { rewrite Hkeys. apply NoDup_fmap_2_strong; [|apply NoDup_seq].
    intros i j _ _. apply address_inj. }
  destruct (cacheResult_size quietWorld (address N) r _ Hnd) as (_ & _ & Hdrop).
  specialize (Hdrop ltac:(lia)). unfold CONFIG.CACHE.MAX_CACHE_SIZE in *. lia.
Qed.

(** Two addresses analysed and cached, the first one asked for again; and
    the run of 10001 addresses, in which the cache was full and lost a
    fifth of its entries. *)
Lemma cache_is_bounded_witness :
  (let st1 := (@ThreatAnalyzer.analyze PlainURL.platform quietWorld initial
                 "http://192.168.1.1/login").2 in
   let st2 := (@ThreatAnalyzer.analyze PlainURL.platform flaggingWorld st1
                 "https://google.com").2 in
   let st3 := (@ThreatAnalyzer.analyze PlainURL.platform quietWorld st2
                 "http://192.168.1.1/login#again").2 in
   (cache st3).*1 = [ "http://192.168.1.1/login"; "https://google.com" ] ∧
   NoDup (cache st3).*1 ∧ JSMap.size (cache st3) ≤ CONFIG.CACHE.MAX_CACHE_SIZE) ∧
  (let st := visited (S (Z.to_nat CONFIG.CACHE.MAX_CACHE_SIZE)) in
   8000 ≤ JSMap.size (cache st) ≤ 8001 ∧
   NoDup (cache st).*1 ∧ JSMap.size (cache st) ≤ CONFIG.CACHE.MAX_CACHE_SIZE).
Proof.
  split.
  - cbv zeta. split; [vm_compute; reflexivity|].
    apply (@cache_is_bounded PlainURL.platform). left.
    do 3 apply reachable_analyze. apply reachable_initial.
  - cbv zeta. split; [apply visited_evicts|].
    apply (@cache_is_bounded PlainURL.platform). left. apply reachable_visited.
Defined.

(** X24. A full cache drops its oldest fifth. When [cacheResult] finds
    [MAX_CACHE_SIZE] entries or more, it deletes 2000 of them before it
    sets the new one, and these are the oldest: there is a time [t] such
    that every entry older than [t] is gone and every entry newer than [t]
    is still there, unchanged (the entry of the URL being cached apart,
    which is set anew). *)
Theorem cacheResult_evicts_the_oldest (w : World) (u : string)
    (r : ThreatAnalysisResult) (c : list (string * CacheEntry)) :
  NoDup c.*1 → CONFIG.CACHE.MAX_CACHE_SIZE ≤ JSMap.size c →
  let c' := cacheResult w u r c in
  JSMap.size c - 2000 ≤ JSMap.size c' ≤ JSMap.size c - 1999 ∧
  ∃ t, ∀ k e, (k, e) ∈ c → k ≠ u →
    (entry_timestamp e < t → JSMap.get c' k = None) ∧
    (t < entry_timestamp e → JSMap.get c' k = Some e).
Proof.
  intros Hnd Hfull c'. split; [apply (cacheResult_size w u r c Hnd), Hfull|].
  subst c'. unfold cacheResult. cbv zeta. rewrite bool_decide_eq_true_2 by exact Hfull.
  pose proof evict_count as Hcount. revert Hcount.
  generalize (Z.to_nat (CONFIG.CACHE.MAX_CACHE_SIZE * 2 / 10)). intros n Hcount.
  rewrite evict_filter.
  pose proof (sort_by_timestamp_sorted c) as Hsorted.
  pose proof (sort_by_timestamp_perm c) as Hperm.
  rewrite <- (take_drop n (sort_by_timestamp c)) in Hsorted.
  destruct (drop n (sort_by_timestamp c)) as [|z rest] eqn:Hdrop.
  { apply (f_equal length) in Hdrop. rewrite length_drop in Hdrop.
    apply Permutation_length in Hperm.
    unfold JSMap.size, CONFIG.CACHE.MAX_CACHE_SIZE in Hfull. simpl in Hdrop. lia. }
  exists (entry_timestamp z.2). intros k e Hin Hne.
  assert ((k, e) ∈ take n (sort_by_timestamp c) ∨ (k, e) ∈ z :: rest) as Hwhere.
  { rewrite <- Hdrop, <- elem_of_app, take_drop, Hperm. exact Hin. }
  rewrite !(JSMap_get_set_ne _ u k) by congruence.
  split; intros Ht.
  - apply JSMap_get_None. intros ([k' e'] & Hk & [Hrem _]%list_elem_of_filter)%list_elem_of_fmap.
    cbn in Hk, Hrem. subst k'. apply Hrem.
    apply (toRemove_spec c n (k, e) Hnd Hin).
    destruct Hwhere as [Htake|Hrest]; [exact Htake|exfalso].
    apply StronglySorted_app_1_r in Hsorted. inversion Hsorted as [|? ? _ Hz]; subst.
    apply elem_of_cons in Hrest as [Heq|Hrest]; [rewrite <- Heq in Ht; cbn in Ht; lia|].
    eapply Forall_forall in Hz; [|exact Hrest]. unfold older in Hz. cbn in Hz. lia.
  - apply JSMap_get_NoDup.
    + eapply sublist_NoDup; [exact Hnd|]. apply fmap_sublist, sublist_filter.
    + apply list_elem_of_filter. split; [|exact Hin].
      intros Hk. apply (toRemove_spec c n (k, e) Hnd Hin) in Hk.
      pose proof (StronglySorted_app_1_elem_of _ _ _ (k, e) z Hsorted Hk ltac:(left)) as Hold.
      unfold older in Hold. cbn in Hold. lia.
Qed.

Lemma fullCache_NoDup : NoDup fullCache.*1.
Proof.
  unfold fullCache. rewrite <- list_fmap_compose.
  apply NoDup_fmap_2_strong; [|apply NoDup_seqZ].
  intros x y _ _ Hxy. cbn in Hxy. apply (inj pretty), Hxy.
Qed.

Lemma fullCache_size : CONFIG.CACHE.MAX_CACHE_SIZE ≤ JSMap.size fullCache.
Proof.
  unfold JSMap.size, fullCache. rewrite length_fmap, length_seqZ, Z2Nat.id; [lia|].
  unfold CONFIG.CACHE.MAX_CACHE_SIZE. lia.
Qed.

Lemma cacheResult_evicts_the_oldest_witness :
  let c' := cacheResult quietWorld "https://example.com/"
              (ThreatAnalyzer.buildResult quietWorld "https://example.com/" []) fullCache in
  JSMap.size fullCache - 2000 ≤ JSMap.size c' ≤ JSMap.size fullCache - 1999 ∧
  ∃ t, ∀ k e, (k, e) ∈ fullCache → k ≠ "https://example.com/" →
    (entry_timestamp e < t → JSMap.get c' k = None) ∧
    (t < entry_timestamp e → JSMap.get c' k = Some e).
Proof.
  exact (cacheResult_evicts_the_oldest quietWorld "https://example.com/"
           (ThreatAnalyzer.buildResult quietWorld "https://example.com/" []) fullCache
           fullCache_NoDup fullCache_size).
Defined.

(* --------------------------------------------------------------------- *)
(** ** The service worker                                                 *)
(* --------------------------------------------------------------------- *)

Lemma sumLevels_increment level counters :
  ServiceWorker.sumLevels (increment level counters)
  = ServiceWorker.sumLevels counters + 1.
Proof.
  unfold ServiceWorker.sumLevels, increment.
  destruct level; repeat case_decide; try congruence; lia.
Qed.

Lemma sumLayers_increment l counters :
  ServiceWorker.sumLayers (increment l counters)
  = ServiceWorker.sumLayers counters + 1.
Proof.
  unfold ServiceWorker.sumLayers, increment.
  destruct l; repeat case_decide; try congruence; lia.
Qed.

Lemma sumLayers_fold (ls : list DetectionLayer) counters :
  ServiceWorker.sumLayers (fold_left (λ counters l, increment (layer l) counters) ls counters)
  = ServiceWorker.sumLayers counters + Z.of_nat (length ls).
Proof.
  revert counters. induction ls as [|l ls IH]; intros counters; cbn [fold_left length].
  - lia.
  - rewrite IH, sumLayers_increment. lia.
Qed.

Lemma remember_length site recent :
  Z.of_nat (length recent) ≤ ServiceWorker.MAX_RECENT_BLOCKED →
  Z.of_nat (length (ServiceWorker.remember site recent)) ≤ ServiceWorker.MAX_RECENT_BLOCKED.
Proof.
  unfold ServiceWorker.remember. cbv zeta. intros Hlen.
  case_bool_decide as Hover; [|lia].
  rewrite removelast_firstn_len, length_take. cbn [length] in *. lia.
Qed.

Lemma remember_elem site recent x :
  x ∈ ServiceWorker.remember site recent → x = site ∨ x ∈ recent.
Proof.
  unfold ServiceWorker.remember. cbv zeta. intros Hin.
  apply elem_of_cons. case_bool_decide; [|exact Hin].
  rewrite removelast_firstn_len in Hin. eapply subseteq_take, Hin.
Qed.

Section Worker.
Variable analyze : World → State → string → ThreatAnalysisResult * State.

Lemma run_invariant (Inv : ServiceWorker.Worker → Prop) (Q : ServiceWorker.Event → Prop)
    t events :
  Inv (ServiceWorker.loaded t) →
  (∀ e s, Q e → Inv s → Inv (ServiceWorker.step analyze s e)) →
  Forall Q events → Inv (ServiceWorker.run analyze t events).
Proof.
  intros Hloaded Hstep Hevents. unfold ServiceWorker.run.
  revert Hloaded. generalize (ServiceWorker.loaded t).
  induction Hevents as [|e events He _ IH]; intros s Hs; [exact Hs|].
  cbn [fold_left]. apply IH, Hstep; assumption.
Qed.

(** How one step changes the statistics. *)
Lemma step_stats s e :
  let st := ServiceWorker.stats s in
  let st' := ServiceWorker.stats (ServiceWorker.step analyze s e) in
  st' = st ∨
  (∃ r, st' = ServiceWorker.checked r st) ∨
  (∃ i h, ServiceWorker.suspended s !! i = Some h ∧
          ServiceWorker.awaits h = ServiceWorker.storingAnalysis ∧
          isMalicious (ServiceWorker.analysis h) = true ∧
          st' = ServiceWorker.blocked (ServiceWorker.analysis h) st) ∨
  (ServiceWorker.isReset e = true ∧ ∃ now, st' = ServiceWorker.zeroStats now).
Proof.
  cbv zeta. destruct e as [w d|w i ok|w m ok|name|tab ok]; cbn [ServiceWorker.step].
  - unfold ServiceWorker.onBeforeRequest.
    destruct (ServiceWorker.intercepted d); cbn [negb]; [|auto].
    destruct (analyze w (ServiceWorker.analyzer s) (ServiceWorker.request_url d)) as [r a].
    right. left. exists r. reflexivity.
  - unfold ServiceWorker.settle.
    destruct (ServiceWorker.suspended s !! i) as [h|] eqn:Hh; [|auto].
    destruct ok; cbn [negb]; [|auto].
    destruct (ServiceWorker.awaits h) eqn:Hawaits;
      [|destruct (JS.encodeURIComponent_throws _); auto].
    destruct (isMalicious (ServiceWorker.analysis h)) eqn:Hmal; [|auto].
    right. right. left. exists i, h. auto.
  - destruct m; cbn [ServiceWorker.onMessage]; auto.
    + right. right. right. split; [reflexivity|]. exists (now w). reflexivity.
    + destruct tab as [t|]; [|auto]. destruct (t =? 0); [auto|].
      destruct ok; cbn [negb]; auto.
  - unfold ServiceWorker.onAlarm. destruct (String.eqb _ _); auto.
  - unfold ServiceWorker.onRemoved. destruct ok; auto.
Qed.

(** X25. The risk distribution accounts for every checked request: after
    any sequence of requests, settled storage calls, messages (resets of
    the statistics among them), alarms and closed tabs, in any
    interleaving, the five counters of [riskDistribution] add up to
    [totalChecked], and no counter of the statistics is negative. *)
Theorem riskDistribution_adds_up_to_totalChecked (t : Z)
    (events : list ServiceWorker.Event) :
  let st := ServiceWorker.stats (ServiceWorker.run analyze t events) in
  ServiceWorker.sumLevels (riskDistribution st) = totalChecked st ∧
  (∀ level, 0 ≤ riskDistribution st level) ∧
  (∀ l, 0 ≤ blockedByLayer st l) ∧
  0 ≤ totalBlocked st.
Proof.
  cbv zeta.
  apply (run_invariant
    (λ s, let st := ServiceWorker.stats s in
          ServiceWorker.sumLevels (riskDistribution st) = totalChecked st ∧
          (∀ level, 0 ≤ riskDistribution st level) ∧
          (∀ l, 0 ≤ blockedByLayer st l) ∧ 0 ≤ totalBlocked st)
    (λ _, True)); [| |apply Forall_true; auto].
  - cbn. unfold ServiceWorker.sumLevels. auto with lia.
  - intros e s _ (Hsum & Hlevels & Hlayers & Hblocked). cbv zeta.
    destruct (step_stats s e) as [->|[[r ->]|[(i & h & _ & _ & _ & ->)|(_ & now & ->)]]].
    + auto.
    + cbn [ServiceWorker.checked riskDistribution totalChecked blockedByLayer totalBlocked].
      rewrite sumLevels_increment, Hsum. repeat split; auto.
      intros level. unfold increment. specialize (Hlevels level). case_decide; lia.
    + cbn [ServiceWorker.blocked riskDistribution totalChecked blockedByLayer totalBlocked].
      repeat split; auto; [|lia].
      generalize (filter (λ l, matched l = true) (detectionLayers (ServiceWorker.analysis h))).
      intros ls. revert Hlayers. generalize (blockedByLayer (ServiceWorker.stats s)).
      induction ls as [|l ls IH]; intros counters Hc; cbn [fold_left]; [exact Hc|].
      apply IH. intros l'. unfold increment. specialize (Hc l'). case_decide; lia.
    + cbn. unfold ServiceWorker.sumLevels. auto with lia.
Qed.

End Worker.


Lemma is_malicious_level_severe level :
  is_malicious_level level = true → level = high ∨ level = critical.
Proof. destruct level; cbn; intros; try discriminate; auto. Qed.

Lemma unmatched_or_matched (ls : list DetectionLayer) :
  Forall (λ l, matched l = false) ls ∨ Exists (λ l, matched l = true) ls.
Proof.
  induction ls as [|l ls [IH|IH]]; [left; constructor| |right; right; exact IH].
  destruct (matched l) eqn:Hm; [right; left; exact Hm|left; constructor; assumption].
Qed.

Lemma buildResult_grounded w u ls : grounded (ThreatAnalyzer.buildResult w u ls).
Proof.
  unfold grounded. rewrite buildResult_layers.
  destruct (unmatched_or_matched ls) as [Hno|Hex].
  - unfold ThreatAnalyzer.buildResult. rewrite scoreLoop_no_signature, matchedSum_none.
    + cbn. discriminate.
    + exact Hno.
    + intros (l & Hin & _ & Hm)%Exists_exists.
      eapply Forall_forall in Hno; [|exact Hin]. congruence.
  - intros Hmal. split; [|exact Hex]. revert Hmal. unfold ThreatAnalyzer.buildResult.
    destruct (ThreatAnalyzer.scoreLoop ls 0). cbn [isMalicious riskLevel].
    apply is_malicious_level_severe.
Qed.

Lemma priority_buildResult_grounded w u ls :
  grounded (ThreatAnalyzerPriority.buildResult w u ls).
Proof.
  unfold grounded. rewrite priority_buildResult_layers.
  destruct (unmatched_or_matched ls) as [Hno|Hex].
  - unfold ThreatAnalyzerPriority.buildResult.
    destruct (existsb matched _) eqn:Hext.
    + apply external_detected_signature in Hext.
      apply Exists_exists in Hext as (l & Hin & _ & Hm).
      eapply Forall_forall in Hno; [|exact Hin]. congruence.
    + pose proof (matchedSum_none ls 0 Hno) as Hsum. unfold matchedSum in Hsum.
      cbn [isMalicious]. rewrite Hsum. cbn. discriminate.
  - intros Hmal. split; [|exact Hex]. revert Hmal. unfold ThreatAnalyzerPriority.buildResult.
    destruct (existsb matched _); cbn [isMalicious riskLevel]; [auto|].
    apply is_malicious_level_severe.
Qed.

Lemma waiting_app hs hs' :
  ServiceWorker.waiting (hs ++ hs') = ServiceWorker.waiting hs + ServiceWorker.waiting hs'.
Proof. unfold ServiceWorker.waiting. rewrite filter_app, length_app. lia. Qed.

Lemma waiting_singleton h :
  ServiceWorker.waiting [h]
  = if decide (ServiceWorker.awaits h = ServiceWorker.storingAnalysis) then 1 else 0.
Proof.
  unfold ServiceWorker.waiting. rewrite filter_cons, filter_nil.
  case_decide; reflexivity.
Qed.

Lemma waiting_delete hs i h :
  hs !! i = Some h →
  ServiceWorker.waiting (delete i hs)
  = ServiceWorker.waiting hs
    - (if decide (ServiceWorker.awaits h = ServiceWorker.storingAnalysis) then 1 else 0).
Proof.
  intros Hh. rewrite delete_take_drop.
  rewrite <- (take_drop_middle hs i h Hh) at 3.
  rewrite !waiting_app. change (h :: drop (S i) hs) with ([h] ++ drop (S i) hs).
  rewrite waiting_app, waiting_singleton. lia.
Qed.

Section Blocking.
Context `{Platform}.
Variable analyze : World → State → string → ThreatAnalysisResult * State.
Variable build : World → string → list DetectionLayer → ThreatAnalysisResult.
Hypothesis analyze_outcome' : ∀ w st url, outcome build w st url (analyze w st url).
Hypothesis build_grounded : ∀ w u ls, grounded (build w u ls).

Lemma worker_blocks_grounded t events :
  let s := ServiceWorker.run analyze t events in
  Z.of_nat (length (ServiceWorker.recentlyBlocked s)) ≤ ServiceWorker.MAX_RECENT_BLOCKED ∧
  Forall severe (ServiceWorker.recentlyBlocked s) ∧
  totalBlocked (ServiceWorker.stats s)
  ≤ ServiceWorker.sumLayers (blockedByLayer (ServiceWorker.stats s)).
Proof.
  cbv zeta.
  set (Inv := λ s,
          reachable analyze (ServiceWorker.analyzer s) ∧
          Forall (λ h, grounded (ServiceWorker.analysis h)) (ServiceWorker.suspended s) ∧
          Z.of_nat (length (ServiceWorker.recentlyBlocked s))
          ≤ ServiceWorker.MAX_RECENT_BLOCKED ∧
          Forall severe (ServiceWorker.recentlyBlocked s) ∧
          totalBlocked (ServiceWorker.stats s)
          ≤ ServiceWorker.sumLayers (blockedByLayer (ServiceWorker.stats s))).
  enough (Inv (ServiceWorker.run analyze t events)) as Hinv by (unfold Inv in Hinv; tauto).
  apply (run_invariant analyze Inv (λ _, True)); [| |apply Forall_true; auto]; unfold Inv.
  - cbn. unfold ServiceWorker.MAX_RECENT_BLOCKED, ServiceWorker.sumLayers.
    repeat split; try constructor; try lia.
  - intros e s _ (Hreach & Hsusp & Hlen & Hsev & Hsum). cbv zeta.
    destruct e as [w d|w i ok|w m ok|name|tab ok]; cbn [ServiceWorker.step].
    + unfold ServiceWorker.onBeforeRequest.
      destruct (ServiceWorker.intercepted d); cbn [negb]; [|auto].
      pose proof (reachable_results grounded analyze build
                    (λ w u ls _, build_grounded w u ls)
                    (λ w n (Hm : isMalicious (whitelistedResult w n) = true),
                       False_ind _ (Bool.diff_false_true Hm))
                    (λ w u e (Hm : isMalicious (errorResult w u e) = true),
                       False_ind _ (Bool.diff_false_true Hm))
                    analyze_outcome' _ Hreach) as [_ Hres].
      specialize (Hres w (ServiceWorker.request_url d)).
      pose proof (reachable_analyze analyze w _ (ServiceWorker.request_url d) Hreach) as Hnext.
      destruct (analyze w (ServiceWorker.analyzer s) (ServiceWorker.request_url d)) as [r a].
      cbn in *. repeat split; auto.
      apply Forall_app. split; [exact Hsusp|]. apply Forall_singleton. exact Hres.
    + unfold ServiceWorker.settle.
      destruct (ServiceWorker.suspended s !! i) as [h|] eqn:Hh; [|auto].
      pose proof (Forall_lookup_1 _ _ _ _ Hsusp Hh) as Hgr.
      pose proof (Forall_delete _ _ i Hsusp) as Hdel.
      destruct ok; cbn [negb]; [|cbn; auto].
      destruct (ServiceWorker.awaits h);
        [|destruct (JS.encodeURIComponent_throws _); cbn; auto].
      destruct (isMalicious (ServiceWorker.analysis h)) eqn:Hmal; [|cbn; auto].
      destruct (Hgr Hmal) as [Hlevel Hmatched].
      unfold ServiceWorker.block. cbn. repeat split.
      * exact Hreach.
      * apply Forall_app. split; [exact Hdel|]. apply Forall_singleton. exact Hgr.
      * apply remember_length, Hlen.
      * apply Forall_forall. intros x [->|Hx]%remember_elem; [exact Hlevel|].
        eapply Forall_forall in Hsev; eassumption.
      * rewrite sumLayers_fold.
        apply Exists_exists in Hmatched as (l & Hin & Hm).
        assert (l ∈ filter (λ l, matched l = true)
                      (detectionLayers (ServiceWorker.analysis h))) as Hl
          by (apply list_elem_of_filter; auto).
        destruct (filter _ _); [inversion Hl|]. cbn [length]. lia.
    + destruct m; cbn; auto.
      * repeat split; auto. apply reachable_analyze, Hreach.
      * repeat split; auto. unfold ServiceWorker.sumLayers. lia.
      * repeat split; auto. apply reachable_addToWhitelist, Hreach.
      * repeat split; auto. apply reachable_removeFromWhitelist, Hreach.
      * destruct tab as [tb|]; [|auto]. destruct (tb =? 0); [auto|].
        destruct ok; cbn; auto.
    + unfold ServiceWorker.onAlarm. destruct (String.eqb _ _); cbn; auto.
      repeat split; auto. apply reachable_clearCache, Hreach.
    + unfold ServiceWorker.onRemoved. destruct ok; cbn; auto.
Qed.

End Blocking.

Section WorkerSpec.
Context `{Platform}.

(** X26. The list of recently blocked sites is short and severe: after
    any sequence of events the service worker remembers at most
    [MAX_RECENT_BLOCKED], 100, sites, and each of them was blocked at the
    level [high] or [critical]. With either revision of the analyzer. *)
Theorem recentlyBlocked_is_bounded_and_severe (t : Z) (events : list ServiceWorker.Event) :
  let blockedSites analyze :=
    ServiceWorker.recentlyBlocked (ServiceWorker.run analyze t events) in
  let ok sites :=
    Z.of_nat (length sites) ≤ 100 ∧
    Forall severe sites in
  ok (blockedSites ThreatAnalyzer.analyze) ∧
  ok (blockedSites ThreatAnalyzerPriority.analyze).
Proof.
  cbv zeta. split.
  - pose proof (worker_blocks_grounded ThreatAnalyzer.analyze ThreatAnalyzer.buildResult
                  analyze_outcome buildResult_grounded t events) as Hw.
    cbv zeta in Hw. tauto.
  - pose proof (worker_blocks_grounded ThreatAnalyzerPriority.analyze
                  ThreatAnalyzerPriority.buildResult
                  priority_analyze_outcome priority_buildResult_grounded t events) as Hw.
    cbv zeta in Hw. tauto.
Qed.

(** X27. Every block is accounted to a layer: after any sequence of
    events, [totalBlocked] is at most the sum of the four counters of
    [blockedByLayer], because a verdict of the analyzer is malicious only
    when one of its signals is matched. With either revision of the
    analyzer. *)
Theorem totalBlocked_is_accounted_to_layers (t : Z) (events : list ServiceWorker.Event) :
  let accounted analyze :=
    let st := ServiceWorker.stats (ServiceWorker.run analyze t events) in
    totalBlocked st ≤ ServiceWorker.sumLayers (blockedByLayer st) in
  accounted ThreatAnalyzer.analyze ∧ accounted ThreatAnalyzerPriority.analyze.
Proof.
  cbv zeta. split.
  - pose proof (worker_blocks_grounded ThreatAnalyzer.analyze ThreatAnalyzer.buildResult
                  analyze_outcome buildResult_grounded t events) as Hw.
    cbv zeta in Hw. tauto.
  - pose proof (worker_blocks_grounded ThreatAnalyzerPriority.analyze
                  ThreatAnalyzerPriority.buildResult
                  priority_analyze_outcome priority_buildResult_grounded t events) as Hw.
    cbv zeta in Hw. tauto.
Qed.

End WorkerSpec.

(** X28. Without a reset, no more sites are blocked than checked: after
    any sequence of events in which the statistics are not reset,
    [totalBlocked], together with the handlers that still wait for their
    analysis to be stored, is at most [totalChecked]. For any analyzer. *)
Theorem totalBlocked_le_totalChecked_without_reset
    (analyze : World → State → string → ThreatAnalysisResult * State)
    (t : Z) (events : list ServiceWorker.Event) :
  Forall (λ e, ServiceWorker.isReset e = false) events →
  let s := ServiceWorker.run analyze t events in
  totalBlocked (ServiceWorker.stats s) + ServiceWorker.waiting (ServiceWorker.suspended s)
  ≤ totalChecked (ServiceWorker.stats s) ∧
  totalBlocked (ServiceWorker.stats s) ≤ totalChecked (ServiceWorker.stats s).
Proof.
  intros Hno. cbv zeta.
  enough (totalBlocked (ServiceWorker.stats (ServiceWorker.run analyze t events))
          + ServiceWorker.waiting (ServiceWorker.suspended (ServiceWorker.run analyze t events))
          ≤ totalChecked (ServiceWorker.stats (ServiceWorker.run analyze t events))) as Hinv.
  { split; [exact Hinv|]. revert Hinv. unfold ServiceWorker.waiting. lia. }
  apply (run_invariant analyze
           (λ s, totalBlocked (ServiceWorker.stats s)
                 + ServiceWorker.waiting (ServiceWorker.suspended s)
                 ≤ totalChecked (ServiceWorker.stats s))
           (λ e, ServiceWorker.isReset e = false)); [| |exact Hno].
  - unfold ServiceWorker.waiting. cbn. lia.
  - intros e s He Hinv.
    destruct e as [w d|w i ok|w m ok|name|tab ok]; cbn [ServiceWorker.step].
    + unfold ServiceWorker.onBeforeRequest.
      destruct (ServiceWorker.intercepted d); cbn [negb]; [|auto].
      destruct (analyze w (ServiceWorker.analyzer s) (ServiceWorker.request_url d)) as [r a].
      cbn. rewrite waiting_app, waiting_singleton. cbn [ServiceWorker.awaits].
      rewrite decide_True by reflexivity. lia.
    + unfold ServiceWorker.settle.
      destruct (ServiceWorker.suspended s !! i) as [h|] eqn:Hh; [|auto].
      pose proof (waiting_delete _ _ _ Hh) as Hdel.
      destruct ok; cbn [negb]; [|cbn; case_decide; lia].
      destruct (ServiceWorker.awaits h) eqn:Hawaits;
        [|destruct (JS.encodeURIComponent_throws _); cbn; case_decide; lia].
      rewrite decide_True in Hdel by reflexivity.
      destruct (isMalicious (ServiceWorker.analysis h)); [|cbn; lia].
      unfold ServiceWorker.block. cbn. rewrite waiting_app, waiting_singleton.
      cbn [ServiceWorker.awaits]. rewrite decide_False by discriminate. lia.
    + destruct m; cbn; auto; [discriminate|].
      destruct tab as [tb|]; [|auto]. destruct (tb =? 0); [auto|].
      destruct ok; cbn; auto.
    + unfold ServiceWorker.onAlarm. destruct (String.eqb _ _); cbn; auto.
    + unfold ServiceWorker.onRemoved. destruct ok; cbn; auto.
Qed.

(** X29. A reset while a request is being handled leaves more sites
    blocked than checked: when the statistics are reset while a handler
    with a malicious verdict waits for its analysis to be stored, and the
    handler then goes on, [totalBlocked] is 1 and [totalChecked] is 0. *)
Theorem reset_during_request_breaks_statistics
    (analyze : World → State → string → ThreatAnalysisResult * State)
    (s : ServiceWorker.Worker) (w w' : World) (i : nat) (ok : bool)
    (h : ServiceWorker.Handler) :
  ServiceWorker.suspended s !! i = Some h →
  ServiceWorker.awaits h = ServiceWorker.storingAnalysis →
  isMalicious (ServiceWorker.analysis h) = true →
  let s' := fold_left (ServiceWorker.step analyze)
              [ServiceWorker.Receives w ServiceWorker.msg_resetStats ok;
               ServiceWorker.Settles w' i true] s in
  totalBlocked (ServiceWorker.stats s') = 1 ∧ totalChecked (ServiceWorker.stats s') = 0.
Proof.
  intros Hh Hawaits Hmal. cbn [fold_left ServiceWorker.step ServiceWorker.onMessage].
  unfold ServiceWorker.settle. cbn [ServiceWorker.suspended ServiceWorker.with_stats].
  rewrite Hh. cbn [negb]. rewrite Hawaits, Hmal. cbn. auto.
Qed.

Lemma totalBlocked_le_totalChecked_without_reset_witness :
  let s := ServiceWorker.run (@ThreatAnalyzer.analyze PlainURL.platform) 0
             [ServiceWorker.BeforeRequest quietWorld
                {| ServiceWorker.request_type := "main_frame";
                   ServiceWorker.request_url := "http://phishing.example/";
                   ServiceWorker.tabId := 7 |};
              ServiceWorker.Settles quietWorld 0 true] in
  totalBlocked (ServiceWorker.stats s) + ServiceWorker.waiting (ServiceWorker.suspended s)
  ≤ totalChecked (ServiceWorker.stats s) ∧
  totalBlocked (ServiceWorker.stats s) ≤ totalChecked (ServiceWorker.stats s).
Proof.
  apply totalBlocked_le_totalChecked_without_reset.
  repeat constructor.
Defined.

Lemma reset_during_request_breaks_statistics_witness :
  let s := ServiceWorker.run (@ThreatAnalyzer.analyze PlainURL.platform) 0
             [ServiceWorker.BeforeRequest quietWorld
                {| ServiceWorker.request_type := "main_frame";
                   ServiceWorker.request_url := "http://phishing.example/";
                   ServiceWorker.tabId := 7 |};
              ServiceWorker.Receives quietWorld ServiceWorker.msg_resetStats true;
              ServiceWorker.Settles quietWorld 0 true] in
  totalBlocked (ServiceWorker.stats s) = 1 ∧ totalChecked (ServiceWorker.stats s) = 0.
Proof.
  refine (reset_during_request_breaks_statistics (@ThreatAnalyzer.analyze PlainURL.platform)
            (ServiceWorker.run (@ThreatAnalyzer.analyze PlainURL.platform) 0
               [ServiceWorker.BeforeRequest quietWorld
                  {| ServiceWorker.request_type := "main_frame";
                     ServiceWorker.request_url := "http://phishing.example/";
                     ServiceWorker.tabId := 7 |}])
            quietWorld quietWorld 0 true
            {| ServiceWorker.request :=
                 {| ServiceWorker.request_type := "main_frame";
                    ServiceWorker.request_url := "http://phishing.example/";
                    ServiceWorker.tabId := 7 |};
               ServiceWorker.analysis :=
                 (@ThreatAnalyzer.analyze PlainURL.platform quietWorld initial
                    "http://phishing.example/").1;
               ServiceWorker.awaits := ServiceWorker.storingAnalysis |} _ _ _).
  - vm_compute. reflexivity.
  - reflexivity.
  - vm_compute. reflexivity.
Defined.

(* --------------------------------------------------------------------- *)
(** ** The popup                                                          *)
(* --------------------------------------------------------------------- *)

(** X30. The mask hides nothing of a short key: a key of at most eight
    characters can be read off what [maskApiKey] displays, below eight
    characters because it is displayed as it is, at eight because the four
    characters shown on either side of the asterisks are the whole key. *)
Theorem maskApiKey_shows_short_keys (key : string) :
  (String.length key ≤ 8)%nat → Popup.shown (Popup.maskApiKey key) = key.
Proof.
  intros Hlen.
  do 9 (destruct key as [|? key]; [reflexivity|]).
  cbn [String.length] in Hlen. lia.
Qed.

Lemma maskApiKey_shows_short_keys_witness :
  Popup.maskApiKey "AIzaSyB0" = "AIza********SyB0" ∧
  Popup.shown (Popup.maskApiKey "AIzaSyB0") = "AIzaSyB0".
Proof.
  split; [reflexivity|]. apply (maskApiKey_shows_short_keys "AIzaSyB0"). cbn. lia.
Defined.

(* --------------------------------------------------------------------- *)
(** ** The gateway, service by service                                    *)
(* --------------------------------------------------------------------- *)

Lemma checkPhishTank_flags w url :
  let r := SignatureEngine.checkPhishTank w url in
  success r && malicious r = true ↔ phishTankFlags w url.
Proof.
  unfold phishTankFlags, SignatureEngine.checkPhishTank. cbv zeta.
  destruct (String.eqb_spec (PHISHTANK (getApiKeys w)) CONFIG.YOUR_API_KEY_HERE) as [Hk|Hk].
  - cbn. split; [discriminate|tauto].
  - destruct (JS.encodeURIComponent_throws url).
    + cbn. split; [discriminate|]. intros (_ & [=] & _).
    + destruct (phishTankFetch w) as [e|status|[|]]; cbn;
        (split; [try discriminate; auto|]); try (intros (_ & _ & [=])); auto.
Qed.

Lemma checkVirusTotal_flags w url st :
  let r := (SignatureEngine.checkVirusTotal w url st).1 in
  success r && malicious r = true ↔ virusTotalFlags w url st.
Proof.
  unfold virusTotalFlags, admitted, SignatureEngine.checkVirusTotal. cbv zeta.
  destruct (String.eqb_spec (VIRUSTOTAL (getApiKeys w)) CONFIG.YOUR_API_KEY_HERE) as [Hk|Hk].
  - cbn. split; [discriminate|tauto].
  - destruct (SignatureEngine.checkRateLimit w "virustotal" _ st) as [[|] st'];
      cbn [negb fst].
    + destruct (JS.btoa_throws url).
      * cbn. split; [discriminate|]. intros (_ & _ & [=] & _).
      * destruct (virusTotalFetch w) as [e|status|[[m s]|]]; cbn [fst];
          unfold SignatureEngine.failure, SignatureEngine.answer;
          cbn [success malicious andb].
        -- split; [discriminate|]. intros (_ & _ & _ & ? & ? & [=] & _).
        -- split; [discriminate|]. intros (_ & _ & _ & ? & ? & [=] & _).
        -- rewrite bool_decide_eq_true. split.
           ++ intros Hpos. repeat split; auto. exists m, s. split; [reflexivity|lia].
           ++ intros (_ & _ & _ & m' & s' & [= <- <-] & Hpos). lia.
        -- rewrite bool_decide_eq_true. split; [lia|].
           intros (_ & _ & _ & ? & ? & [=] & _).
    + cbn. split; [discriminate|]. intros (_ & [=] & _).
Qed.

Section Flags.
Context `{Platform}.

Lemma checkSafeBrowsing_flags w url st :
  let r := (SignatureEngine.checkSafeBrowsing w url st).1 in
  success r && malicious r = true ↔ safeBrowsingFlags w url st.
Proof.
  assert (∀ c : option bool,
    (let r := (let '(allowed, st') :=
                 SignatureEngine.checkRateLimit w "safe_browsing"
                   CONFIG.RATE_LIMITS.SAFE_BROWSING_PER_MINUTE st in
               if negb allowed
               then (SignatureEngine.failure "Google Safe Browsing" "Rate limit exceeded", st')
               else if String.eqb (GOOGLE_SAFE_BROWSING (getApiKeys w)) CONFIG.YOUR_API_KEY_HERE
               then (SignatureEngine.checkLocalBlacklist url, st')
               else match safeBrowsingFetch w with
                    | Rejected e =>
                        (SignatureEngine.failure "Google Safe Browsing" (error_message e), st')
                    | HttpError status =>
                        (SignatureEngine.failure "Google Safe Browsing"
                           ("API error: " +:+ pretty status), st')
                    | Body matches =>
                        let m := match matches with
                                 | Some n => bool_decide (0 < n)%nat
                                 | None => false
                                 end in
                        (SignatureEngine.answer "Google Safe Browsing" m None,
                         SignatureEngine.set_cache st'
                           (<[url := (m, now w)]> (SignatureEngine.safeBrowsingCache st')))
                    end).1 in
     success r && malicious r = true) ↔
    (admitted w "safe_browsing" CONFIG.RATE_LIMITS.SAFE_BROWSING_PER_MINUTE st ∧
     ((GOOGLE_SAFE_BROWSING (getApiKeys w) = CONFIG.YOUR_API_KEY_HERE ∧
       (∃ parsed, new_URL url = Ok parsed) ∧
       SignatureEngine.blacklisted url = true) ∨
      (GOOGLE_SAFE_BROWSING (getApiKeys w) ≠ CONFIG.YOUR_API_KEY_HERE ∧
       ∃ n, safeBrowsingFetch w = Body (Some (S n)))))) as Hmiss.
  { intros _. unfold admitted. cbv zeta.
    destruct (SignatureEngine.checkRateLimit w "safe_browsing" _ st) as [[|] st'];
      cbn [negb fst]; [|cbn; split; [discriminate|intros [Hf _]; discriminate Hf]].
    destruct (String.eqb_spec (GOOGLE_SAFE_BROWSING (getApiKeys w))
                CONFIG.YOUR_API_KEY_HERE) as [Hk|Hk].
    - unfold SignatureEngine.checkLocalBlacklist.
      destruct (new_URL url) as [parsed|e]; cbn [fst];
        unfold SignatureEngine.failure, SignatureEngine.answer;
        cbn [success malicious andb].
      + split; [intros Hb; split; [reflexivity|]; left; eauto|].
        intros [_ [(_ & _ & Hb)|[Hk' _]]]; [exact Hb|contradiction].
      + split; [discriminate|].
        intros [_ [(_ & [parsed [=]] & _)|[Hk' _]]]; contradiction.
    - destruct (safeBrowsingFetch w) as [e|status|[[|n]|]]; cbn [fst];
        unfold SignatureEngine.failure, SignatureEngine.answer;
        cbn [success malicious andb];
        (split; [try discriminate|intros [_ [(Hk' & _)|(_ & n' & Hn)]];
                                   [contradiction|try discriminate]]).
      + intros _. split; [reflexivity|]. right. split; [exact Hk|]. eauto.
      + apply bool_decide_eq_true. lia. }
  unfold safeBrowsingFlags, cachedVerdict, SignatureEngine.checkSafeBrowsing. cbv zeta.
  destruct (SignatureEngine.safeBrowsingCache st !! url) as [[m ts]|].
  - case_bool_decide.
    + cbn [fst]. unfold SignatureEngine.answer. cbn [success malicious andb].
      split; [intros ->; left; reflexivity|].
      intros [[= ->]|[[=] _]]. reflexivity.
    + rewrite (Hmiss None). split; [intros Hf; right; split; [reflexivity|exact Hf]|].
      intros [[=]|[_ Hf]]. exact Hf.
  - rewrite (Hmiss None). split; [intros Hf; right; split; [reflexivity|exact Hf]|].
    intros [[=]|[_ Hf]]. exact Hf.
Qed.

Lemma checkRateLimit_other_counter w service limit st k :
  k ≠ service →
  SignatureEngine.rateLimitCounters (SignatureEngine.checkRateLimit w service limit st).2 !! k
  = SignatureEngine.rateLimitCounters st !! k.
Proof.
  intros Hk. unfold SignatureEngine.checkRateLimit. cbv zeta.
  destruct (SignatureEngine.rateLimitCounters st !! service) as [[count resetTime]|];
    repeat case_bool_decide; cbn; rewrite ?lookup_insert_ne by congruence; reflexivity.
Qed.

Lemma checkSafeBrowsing_keeps_virustotal_counter w url st :
  SignatureEngine.rateLimitCounters (SignatureEngine.checkSafeBrowsing w url st).2
    !! "virustotal"
  = SignatureEngine.rateLimitCounters st !! "virustotal".
Proof.
  pose proof (checkRateLimit_other_counter w "safe_browsing"
                CONFIG.RATE_LIMITS.SAFE_BROWSING_PER_MINUTE st "virustotal"
                ltac:(discriminate)) as Hother.
  unfold SignatureEngine.checkSafeBrowsing. cbv zeta.
  destruct (SignatureEngine.checkRateLimit w "safe_browsing" _ st) as [allowed st'].
  cbn [snd] in Hother.
  assert (∀ r : APIResponse * SignatureEngine.State,
            r = (let '(a, s) := (allowed, st') in
                 if negb a
                 then (SignatureEngine.failure "Google Safe Browsing" "Rate limit exceeded", s)
                 else if String.eqb (GOOGLE_SAFE_BROWSING (getApiKeys w))
                           CONFIG.YOUR_API_KEY_HERE
                 then (SignatureEngine.checkLocalBlacklist url, s)
                 else match safeBrowsingFetch w with
                      | Rejected e =>
                          (SignatureEngine.failure "Google Safe Browsing" (error_message e), s)
                      | HttpError status =>
                          (SignatureEngine.failure "Google Safe Browsing"
                             ("API error: " +:+ pretty status), s)
                      | Body matches =>
                          let m := match matches with
                                   | Some n => bool_decide (0 < n)%nat
                                   | None => false
                                   end in
                          (SignatureEngine.answer "Google Safe Browsing" m None,
                           SignatureEngine.set_cache s
                             (<[url := (m, now w)]> (SignatureEngine.safeBrowsingCache s)))
                      end) →
            SignatureEngine.rateLimitCounters r.2 !! "virustotal"
            = SignatureEngine.rateLimitCounters st !! "virustotal") as Hmiss.
  { intros r ->. cbv zeta. destruct allowed; cbn [negb]; [|exact Hother].
    destruct (String.eqb _ _); [exact Hother|].
    destruct (safeBrowsingFetch w); exact Hother. }
  destruct (SignatureEngine.safeBrowsingCache st !! url) as [[m ts]|];
    [case_bool_decide; [reflexivity|]|]; apply Hmiss; reflexivity.
Qed.

Lemma admitted_counter w service limit st st' :
  SignatureEngine.rateLimitCounters st' !! service
  = SignatureEngine.rateLimitCounters st !! service →
  admitted w service limit st' ↔ admitted w service limit st.
Proof.
  unfold admitted, SignatureEngine.checkRateLimit. cbv zeta. intros ->.
  destruct (SignatureEngine.rateLimitCounters st !! service) as [[count resetTime]|];
    [|tauto].
  repeat case_bool_decide; cbn; tauto.
Qed.

(** C7. Whatever the state of the cache and of the rate limiters, whatever
    is stored and whatever the three requests come to, [checkAllAPIs]
    returns exactly three signals, one per service in the order Safe
    Browsing, PhishTank, VirusTotal. Each is a Signature-layer signal,
    matched with score 100 or unmatched with score 0, and it is matched
    exactly when its service flags the URL: a fresh cache entry or an
    answer of the service (or of the local blacklist that stands in for
    Safe Browsing) that says so. A call that the limiter refuses, a key
    that is missing for PhishTank or VirusTotal, a request that is
    rejected, an HTTP error, a URL that cannot be encoded: each gives a
    signal with [matched = false]. *)
Theorem checkAllAPIs_one_signal_per_service (w : World) (url : string)
    (st : SignatureEngine.State) :
  ∃ sb pt vt,
    (SignatureEngine.checkAllAPIs w url st).1 = [sb; pt; vt] ∧
    Forall (λ l, layer l = signature ∧ score l = if matched l then 100 else 0)
      [sb; pt; vt] ∧
    (matched sb = true ↔ safeBrowsingFlags w url st) ∧
    (matched pt = true ↔ phishTankFlags w url) ∧
    (matched vt = true ↔ virusTotalFlags w url st).
Proof.
  pose proof (checkSafeBrowsing_flags w url st) as Hsb.
  pose proof (checkPhishTank_flags w url) as Hpt.
  pose proof (checkVirusTotal_flags w url (SignatureEngine.checkSafeBrowsing w url st).2) as Hvt.
  pose proof (checkSafeBrowsing_keeps_virustotal_counter w url st) as Hcounter.
  cbv zeta in Hsb, Hpt, Hvt.
  unfold SignatureEngine.checkAllAPIs, SignatureEngine.settleAll.
  destruct (SignatureEngine.checkSafeBrowsing w url st) as [sb st1]. cbn [fst snd] in *.
  destruct (SignatureEngine.checkVirusTotal w url st1) as [vt st2]. cbn [fst snd] in *.
  cbn [SignatureEngine.forEach_layers].
  destruct (layersOf_signal (SignatureEngine.fulfilled sb) 0) as (l1 & -> & H1 & M1 & S1).
  destruct (layersOf_signal (SignatureEngine.fulfilled (SignatureEngine.checkPhishTank w url)) 1)
    as (l2 & -> & H2 & M2 & S2).
  destruct (layersOf_signal (SignatureEngine.fulfilled vt) 2) as (l3 & -> & H3 & M3 & S3).
  exists l1, l2, l3. cbn [app flagged] in *.
  split; [reflexivity|].
  split; [repeat (constructor; [split; assumption|]); constructor|].
  rewrite M1, M2, M3, Hsb, Hpt, Hvt.
  split; [reflexivity|]. split; [reflexivity|].
  unfold virusTotalFlags. rewrite (admitted_counter w _ _ st st1 Hcounter). reflexivity.
Qed.

End Flags.

(** Safe Browsing flags the URL; PhishTank is down and the request to
    VirusTotal fails, which gives two unmatched signals. *)
Lemma checkAllAPIs_one_signal_per_service_witness :
  (@SignatureEngine.checkAllAPIs PlainURL.platform failingWorld
     "https://example.com/" SignatureEngine.initial).1
  = [ {| layer := signature; method := "Google Safe Browsing"; score := 100;
         details := "Flagged as malicious by Google Safe Browsing"; matched := true |};
      {| layer := signature; method := "PhishTank"; score := 0;
         details := "PhishTank check failed: API unavailable (503)"; matched := false |};
      {| layer := signature; method := "VirusTotal"; score := 0;
         details := "VirusTotal check failed: Failed to fetch"; matched := false |} ] ∧
  ¬ phishTankFlags failingWorld "https://example.com/" ∧
  ¬ virusTotalFlags failingWorld "https://example.com/" SignatureEngine.initial.
Proof.
  destruct (@checkAllAPIs_one_signal_per_service PlainURL.platform failingWorld
              "https://example.com/" SignatureEngine.initial)
    as (sb & pt & vt & Hlayers & _ & _ & Hpt & Hvt).
  assert ((@SignatureEngine.checkAllAPIs PlainURL.platform failingWorld
             "https://example.com/" SignatureEngine.initial).1
          = [ {| layer := signature; method := "Google Safe Browsing"; score := 100;
                 details := "Flagged as malicious by Google Safe Browsing"; matched := true |};
              {| layer := signature; method := "PhishTank"; score := 0;
                 details := "PhishTank check failed: API unavailable (503)";
                 matched := false |};
              {| layer := signature; method := "VirusTotal"; score := 0;
                 details := "VirusTotal check failed: Failed to fetch";
                 matched := false |} ]) as Hrun by (vm_compute; reflexivity).
  split; [exact Hrun|].
  rewrite Hrun in Hlayers. injection Hlayers as <- <- <-.
  rewrite <- Hpt, <- Hvt. cbn. split; discriminate.
Defined.

(* --------------------------------------------------------------------- *)
(** ** The verdict on the signals collected                               *)
(* --------------------------------------------------------------------- *)

Section Collected.
Context `{Platform}.

(** Only the gateway emits Signature signals. *)
Lemma collected_signature_matched w n st hs :
  HeuristicEngine.analyze n = Ok hs →
  Exists signatureMatched
    ((SignatureEngine.checkAllAPIs w n st).1 ++ hs ++ [MLEngine.analyze n]) →
  Exists signatureMatched (SignatureEngine.checkAllAPIs w n st).1.
Proof.
  intros Hhs [Hsig|[Hh|Hml]%Exists_app]%Exists_app; [exact Hsig| |].
  - apply Exists_exists in Hh as (l & Hin & Hl & _).
    pose proof (HeuristicEngine_analyze_signals _ _ Hhs) as Hsignals.
    eapply Forall_forall in Hsignals as (Hlayer & _); [|exact Hin]. congruence.
  - apply Exists_exists in Hml as (l & ->%list_elem_of_singleton & Hl & _).
    destruct (MLEngine_analyze_signal n) as [Hlayer _]. congruence.
Qed.

Lemma existsb_signatureMatched ls :
  Exists signatureMatched ls → existsb matched ls = true ∧ (0 < length ls)%nat.
Proof.
  intros (l & Hin & _ & Hm)%Exists_exists. split.
  - apply existsb_exists. exists l. split; [apply list_elem_of_In, Hin|exact Hm].
  - destruct ls; [inversion Hin|cbn; lia].
Qed.

(** The analyzer of threat-analyzer.ts when neither the whitelist nor the
    cache answers: the signals it assesses. *)
Lemma analyze_fresh w st url parsed hs :
  new_URL (normalizeURL url) = Ok parsed →
  URLObj.hostname parsed ∉ whitelist st →
  cachedResult w st (normalizeURL url) = None →
  HeuristicEngine.analyze (normalizeURL url) = Ok hs →
  let n := normalizeURL url in
  let sigs := (SignatureEngine.checkAllAPIs w n (apis st)).1 in
  (ThreatAnalyzer.analyze w st url).1
  = ThreatAnalyzer.buildResult w n
      (if existsb matched sigs then sigs else sigs ++ hs ++ [MLEngine.analyze n]).
Proof.
  intros Hparse Hwl Hc Hhs n sigs. subst n sigs.
  unfold ThreatAnalyzer.analyze, ThreatAnalyzer.analyze_try. cbv zeta.
  rewrite Hparse, bool_decide_eq_false_2, Hc by exact Hwl.
  destruct (SignatureEngine.checkAllAPIs w (normalizeURL url) (apis st)) as [sigs a].
  cbn [fst]. destruct (existsb matched sigs) eqn:Hm.
  - assert (0 < length sigs)%nat as Hlen.
    { destruct sigs; [discriminate|cbn; lia]. }
    rewrite bool_decide_eq_true_2 by exact Hlen. reflexivity.
  - rewrite andb_false_r, Hhs. reflexivity.
Qed.

(** C1. Trust priority. (1) On every list of collected signals with a
    matched Signature signal, [buildResult] returns [riskScore = 100],
    [riskLevel = critical] and [isMalicious = true] and lists the signals
    as they were collected, whatever the other signals are; the revised
    [buildResult], which adds up the scores when the matched signal is not
    from a remote service, needs that no score is negative and that a
    matched Signature signal has score 100, which holds of every signal
    that the layers produce. (2) When neither the whitelist nor the cache
    answers and a Signature signal among the signals of the three layers is
    matched, the result of [analyze] is this verdict, and it lists the
    signals of the gateway (the analyzer of threat-analyzer.ts) or of all
    three layers (the revised one). (3) In every state that the analyzer
    can be in, every result of [analyze], a cached one too, that lists a
    matched Signature signal is this verdict. *)
Theorem signature_match_forces_critical (w : World) (st : State) (url : string)
    (ls : list DetectionLayer) :
  (Exists signatureMatched ls →
   (let r := ThreatAnalyzer.buildResult w url ls in
    detectionLayers r = ls ∧
    riskScore r = 100 ∧ riskLevel r = critical ∧ isMalicious r = true) ∧
   (Forall layer_ok ls →
    let r := ThreatAnalyzerPriority.buildResult w url ls in
    detectionLayers r = ls ∧
    riskScore r = 100 ∧ riskLevel r = critical ∧ isMalicious r = true)) ∧
  (∀ parsed hs,
     new_URL (normalizeURL url) = Ok parsed →
     URLObj.hostname parsed ∉ whitelist st →
     cachedResult w st (normalizeURL url) = None →
     HeuristicEngine.analyze (normalizeURL url) = Ok hs →
     let sigs := (SignatureEngine.checkAllAPIs w (normalizeURL url) (apis st)).1 in
     let collected := sigs ++ hs ++ [MLEngine.analyze (normalizeURL url)] in
     Exists signatureMatched collected →
     (let r := (ThreatAnalyzer.analyze w st url).1 in
      detectionLayers r = sigs ∧
      riskScore r = 100 ∧ riskLevel r = critical ∧ isMalicious r = true) ∧
     (let r := (ThreatAnalyzerPriority.analyze w st url).1 in
      detectionLayers r = collected ∧
      riskScore r = 100 ∧ riskLevel r = critical ∧ isMalicious r = true)) ∧
  (reachable ThreatAnalyzer.analyze st →
   let r := (ThreatAnalyzer.analyze w st url).1 in
   Exists signatureMatched (detectionLayers r) →
   riskScore r = 100 ∧ riskLevel r = critical ∧ isMalicious r = true) ∧
  (reachable ThreatAnalyzerPriority.analyze st →
   let r := (ThreatAnalyzerPriority.analyze w st url).1 in
   Exists signatureMatched (detectionLayers r) →
   riskScore r = 100 ∧ riskLevel r = critical ∧ isMalicious r = true).
Proof.
  assert (∀ u ls', Exists signatureMatched ls' →
            let r := ThreatAnalyzer.buildResult w u ls' in
            detectionLayers r = ls' ∧
            riskScore r = 100 ∧ riskLevel r = critical ∧ isMalicious r = true) as Hbuild.
  { intros u ls' Hex. cbv zeta. split; [apply buildResult_layers|].
    apply buildResult_priority. rewrite buildResult_layers. exact Hex. }
  assert (∀ u ls', Exists signatureMatched ls' → Forall layer_ok ls' →
            let r := ThreatAnalyzerPriority.buildResult w u ls' in
            detectionLayers r = ls' ∧
            riskScore r = 100 ∧ riskLevel r = critical ∧ isMalicious r = true) as Hbuild'.
  { intros u ls' Hex Hok. cbv zeta. split; [apply priority_buildResult_layers|].
    apply priority_buildResult_priority; [exact Hok|].
    rewrite priority_buildResult_layers. exact Hex. }
  split; [intros Hex; split; [apply Hbuild, Hex|intros Hok; apply Hbuild'; assumption]|].
  split.
  - intros parsed hs Hparse Hwl Hc Hhs sigs collected Hex.
    pose proof (collected_signature_matched _ _ _ _ Hhs Hex) as Hsig. fold sigs in Hsig.
    destruct (existsb_signatureMatched _ Hsig) as [Hm _].
    split.
    + cbv zeta. rewrite (analyze_fresh w st url parsed hs Hparse Hwl Hc Hhs). cbv zeta.
      fold sigs. rewrite Hm. apply Hbuild, Hsig.
    + destruct (priority_analyze_fresh w st url parsed Hparse Hwl Hc) as (hs' & Hhs' & Heq).
      cbv zeta in Heq. rewrite Hhs in Hhs'. injection Hhs' as <-.
      cbv zeta. rewrite Heq. cbn [fst]. apply Hbuild'; [exact Hex|].
      apply collected_ok, Hhs.
  - split; intros Hreach.
    + eapply outcome_sound;
        [apply buildResult_sound|apply reachable_cache_sound, Hreach|apply analyze_outcome].
    + eapply outcome_sound;
        [apply priority_buildResult_sound|apply priority_reachable_cache_sound, Hreach
        |apply priority_analyze_outcome].
Qed.


End Collected.

(** The local blacklist flags the URL for the analyzer that returns early;
    VirusTotal flags a clean address for the revised one, which lists the
    signals of all three layers. *)
Lemma signature_match_forces_critical_witness :
  (let r := (@ThreatAnalyzer.analyze PlainURL.platform quietWorld initial
               "http://phishing.example.com/login").1 in
   method <$> detectionLayers r = [ "Local Blacklist"; "PhishTank"; "VirusTotal" ] ∧
   riskScore r = 100 ∧ riskLevel r = critical ∧ isMalicious r = true) ∧
  (let r := (@ThreatAnalyzerPriority.analyze PlainURL.platform flaggingWorld initial
               "https://google.com").1 in
   method <$> detectionLayers r
   = [ "Local Blacklist"; "PhishTank"; "VirusTotal"; "ML Model (75% confidence)" ] ∧
   riskScore r = 100 ∧ riskLevel r = critical ∧ isMalicious r = true).
Proof.
  split.
  - edestruct (proj1 (proj2 (@signature_match_forces_critical PlainURL.platform quietWorld
                               initial "http://phishing.example.com/login" [])))
      as [(Hlayers & Hverdict) _].
    + vm_compute. reflexivity.
    + apply not_elem_of_empty.
    + reflexivity.
    + vm_compute. reflexivity.
    + apply (bool_decide_unpack _). vm_compute. exact I.
    + cbv zeta. split; [|exact Hverdict]. rewrite Hlayers. vm_compute. reflexivity.
  - edestruct (proj1 (proj2 (@signature_match_forces_critical PlainURL.platform flaggingWorld
                               initial "https://google.com" [])))
      as [_ (Hlayers & Hverdict)].
    + vm_compute. reflexivity.
    + apply not_elem_of_empty.
    + reflexivity.
    + vm_compute. reflexivity.
    + apply (bool_decide_unpack _). vm_compute. exact I.
    + cbv zeta. split; [|exact Hverdict]. rewrite Hlayers. vm_compute. reflexivity.
Defined.

